(** * pyFLUKAgeo: a shallow embedding of the geometry aggregate

    Sources embedded: [src/geometry.py] (class [Geometry], [MapContRegs]),
    [src/region.py] (class [Region]) and [src/scorings.py] (class [Usrbin]).

    Conventions of the embedding:
    - Python [str] is [string]; the characters are code points of ASCII text,
      which is what FLUKA input decks are made of;
    - Python [float]/[int] quantities (lengths, angles, neighbour counts) are
      rationals [Q]; list positions are [Z], so that the sentinel [-1] is an
      index like any other;
    - a call that ends in [exit(1)] yields [Exit], a call that dies on a Python
      exception (IndexError, AttributeError, TypeError) yields [Raise];
    - objects are records and mutation is explicit state passing. *)

From Stdlib Require Import ZArith QArith List String Ascii Bool Lia.
Import ListNotations.
Open Scope string_scope.
Open Scope Z_scope.
Open Scope list_scope.

(** String concatenation, Python's [+] on [str]. *)
Notation "a +++ b" := (String.append a b) (at level 60, right associativity).

(** ** Outcomes of fallible code *)

Inductive outcome (A : Type) : Type :=
| Ok (a : A)
| Exit
| Raise.
Arguments Ok {A} a.
Arguments Exit {A}.
Arguments Raise {A}.

Definition bind {A B : Type} (m : outcome A) (f : A -> outcome B) : outcome B :=
  match m with
  | Ok a => f a
  | Exit => Exit
  | Raise => Raise
  end.

Notation "x <- m ;; k" := (bind m (fun x => k))
  (at level 61, m at next level, right associativity).
Notation "' p <- m ;; k" := (bind m (fun x => match x with p => k end))
  (at level 61, p pattern, m at next level, right associativity).

(** [seq[i]] for a Python list read with a non-negative or negative index. *)
Definition py_index {A : Type} (l : list A) (i : Z) : outcome A :=
  let n := Z.of_nat (List.length l) in
  let j := if i <? 0 then i + n else i in
  if (j <? 0) || (n <=? j) then Raise
  else match nth_error l (Z.to_nat j) with
       | Some a => Ok a
       | None => Raise
       end.

(** ** Python string primitives *)

Module Py.

(** [str.isspace] on one character. *)
Definition is_space (c : ascii) : bool :=
  let n := nat_of_ascii c in
  (((9 <=? n) && (n <=? 13)) || ((28 <=? n) && (n <=? 32))
   || (n =? 133) || (n =? 160))%nat.

(** [str.upper] on one character. *)
Definition upper_char (c : ascii) : ascii :=
  let n := nat_of_ascii c in
  if ((97 <=? n) && (n <=? 122))%nat then ascii_of_nat (n - 32) else c.

Fixpoint upper (s : string) : string :=
  match s with
  | EmptyString => EmptyString
  | String c s' => String (upper_char c) (upper s')
  end.

(** [s.startswith(p)] *)
Definition startswith (s p : string) : bool := String.prefix p s.

(** [len(s) > 0] *)
Definition nonempty (s : string) : bool :=
  match s with
  | EmptyString => false
  | String _ _ => true
  end.

(** [s.split()]: the maximal runs of non-blank characters. *)
Fixpoint split_ws_from (cur s : string) : list string :=
  match s with
  | EmptyString => if nonempty cur then [cur] else []
  | String c s' =>
      if is_space c
      then (if nonempty cur then cur :: split_ws_from EmptyString s'
            else split_ws_from EmptyString s')
      else split_ws_from (cur +++ String c EmptyString) s'
  end.

Definition split_ws (s : string) : list string := split_ws_from EmptyString s.

(** [s.split(sep)] for a one-character separator: always at least one piece. *)
Fixpoint split_on_from (sep : ascii) (cur s : string) : list string :=
  match s with
  | EmptyString => [cur]
  | String c s' =>
      if Ascii.eqb c sep
      then cur :: split_on_from sep EmptyString s'
      else split_on_from sep (cur +++ String c EmptyString) s'
  end.

Definition split_on (sep : ascii) (s : string) : list string :=
  split_on_from sep EmptyString s.

(** [s.lstrip()], [s.rstrip()] and [s.strip()] *)
Fixpoint lstrip (s : string) : string :=
  match s with
  | EmptyString => EmptyString
  | String c s' => if is_space c then lstrip s' else s
  end.

Fixpoint rstrip (s : string) : string :=
  match s with
  | EmptyString => EmptyString
  | String c s' =>
      match rstrip s' with
      | EmptyString => if is_space c then EmptyString else String c EmptyString
      | r => String c r
      end
  end.

Definition strip (s : string) : string := rstrip (lstrip s).

(** The line feed, ["\n"]. *)
Definition LF : string := String (ascii_of_nat 10) EmptyString.

(** [x in l] for a list of strings. *)
Definition mem (x : string) (l : list string) : bool :=
  existsb (String.eqb x) l.

(** [list(enumerate(l, start))] *)
Fixpoint enumerate_from {A : Type} (start : Z) (l : list A) : list (Z * A) :=
  match l with
  | [] => []
  | a :: l' => (start, a) :: enumerate_from (start + 1) l'
  end.

(** [list(range(n))] *)
Definition range (n : nat) : list Z := map Z.of_nat (seq 0 n).

(** ["%d" % z] *)
Definition digit (n : nat) : string :=
  String (ascii_of_nat (48 + n)) EmptyString.

Fixpoint decimal_fuel (fuel n : nat) : string :=
  match fuel with
  | O => EmptyString
  | S f =>
      if (n <? 10)%nat then digit n
      else decimal_fuel f (n / 10) +++ digit (n mod 10)
  end.

Definition fmt_d (z : Z) : string :=
  if z <? 0 then "-" +++ decimal_fuel (S (Z.to_nat (- z))) (Z.to_nat (- z))
  else decimal_fuel (S (Z.to_nat z)) (Z.to_nat z).

Fixpoint repeat_char (c : ascii) (n : nat) : string :=
  match n with
  | O => EmptyString
  | S n' => String c (repeat_char c n')
  end.

(** ["%3d" % z]: blanks in front up to the width. *)
Definition fmt_d_width (width : nat) (z : Z) : string :=
  let t := fmt_d z in
  repeat_char " " (width - String.length t) +++ t.

(** ["%03d" % z]: zeros between the sign and the digits up to the width. *)
Definition fmt_d_zeros (width : nat) (z : Z) : string :=
  if z <? 0 then
    let t := decimal_fuel (S (Z.to_nat (- z))) (Z.to_nat (- z)) in
    "-" +++ repeat_char "0" (width - 1 - String.length t) +++ t
  else
    let t := fmt_d z in
    repeat_char "0" (width - String.length t) +++ t.

(** [s.replace(old,new)]: every occurrence, from the left, without overlap;
    an empty [old] matches before every character and at the end. *)
Fixpoint drop (n : nat) (s : string) : string :=
  match n, s with
  | O, _ => s
  | S n', String _ s' => drop n' s'
  | S _, EmptyString => EmptyString
  end.

Fixpoint replace_fuel (fuel : nat) (old new s : string) : string :=
  match fuel with
  | O => s
  | S f =>
      match s with
      | EmptyString => EmptyString
      | String c s' =>
          if String.prefix old s
          then new +++ replace_fuel f old new (drop (String.length old) s)
          else String c (replace_fuel f old new s')
      end
  end.

Fixpoint interleave (new s : string) : string :=
  match s with
  | EmptyString => new
  | String c s' => new +++ String c (interleave new s')
  end.

Definition replace (s old new : string) : string :=
  match old with
  | EmptyString => interleave new s
  | String _ _ => replace_fuel (S (String.length s)) old new s
  end.

End Py.

(** ** The preprocessor of [Geometry.fromInp]

    The state that the parsing loop keeps between lines: the flag set of the
    [#define]d names and the two stacks [lReads] and [lElse]. Both stacks grow
    at the end of the list, like the Python lists they embed. *)

Record PreProc : Type := mkPreProc {
  defineFlags : list string;
  lReads : list bool;
  lElse : list bool
}.

(** State at the first line: [defineFlags=[]], [lReads=[True]], [lElse=[]]. *)
Definition PreProc_init : PreProc :=
  {| defineFlags := []; lReads := [true]; lElse := [] |}.

(** [l[-1]] *)
Definition py_last {A : Type} (l : list A) : outcome A :=
  match rev l with
  | [] => Raise
  | a :: _ => Ok a
  end.

(** [l[-1]=v] *)
Definition py_set_last {A : Type} (l : list A) (v : A) : outcome (list A) :=
  match rev l with
  | [] => Raise
  | _ :: r => Ok (rev r ++ [v])
  end.

(** [l.pop()], keeping the shortened list only. *)
Definition py_pop {A : Type} (l : list A) : outcome (list A) :=
  match rev l with
  | [] => Raise
  | _ :: r => Ok (rev r)
  end.

(** [all(l)] *)
Definition py_all (l : list bool) : bool := forallb (fun b => b) l.

(** One turn of the loop over the lines, up to and including the test
    [if (not all(lReads)): continue]. The boolean tells whether the line goes
    on to the section parser; a directive never does. *)
Definition preproc_line (st : PreProc) (tmpLine : string)
  : outcome (PreProc * bool) :=
  if Py.startswith tmpLine "#define" then
    let data := Py.split_ws tmpLine in
    if (2 <? List.length data)%nat then Exit
    else
      name <- py_index data 1 ;;
      Ok ({| defineFlags := if Py.mem name (defineFlags st)
                            then defineFlags st
                            else defineFlags st ++ [name];
             lReads := lReads st;
             lElse := lElse st |}, false)
  else if Py.startswith tmpLine "#if" then
    let data := Py.split_ws tmpLine in
    name <- py_index data 1 ;;
    Ok ({| defineFlags := defineFlags st;
           lReads := lReads st ++ [Py.mem name (defineFlags st)];
           lElse := lElse st ++ [Py.mem name (defineFlags st)] |}, false)
  else if Py.startswith tmpLine "#elif" then
    let data := Py.split_ws tmpLine in
    name <- py_index data 1 ;;
    reads <- py_set_last (lReads st) (Py.mem name (defineFlags st)) ;;
    seen <- py_last (lElse st) ;;
    elses <- py_set_last (lElse st) (seen || Py.mem name (defineFlags st)) ;;
    Ok ({| defineFlags := defineFlags st; lReads := reads; lElse := elses |},
        false)
  else if Py.startswith tmpLine "#else" then
    seen <- py_last (lElse st) ;;
    reads <- py_set_last (lReads st) (negb seen) ;;
    Ok ({| defineFlags := defineFlags st; lReads := reads;
           lElse := lElse st |}, false)
  else if Py.startswith tmpLine "#end" then
    reads <- py_pop (lReads st) ;;
    elses <- py_pop (lElse st) ;;
    Ok ({| defineFlags := defineFlags st; lReads := reads; lElse := elses |},
        false)
  else Ok (st, py_all (lReads st)).

(** The lines that reach the section parser, in order. *)
Fixpoint active_lines (st : PreProc) (lines : list string)
  : outcome (list string) :=
  match lines with
  | [] => Ok []
  | l :: rest =>
      '(st', go) <- preproc_line st l ;;
      more <- active_lines st' rest ;;
      Ok (if go then l :: more else more)
  end.

(** ** Collaborators that are not part of the sources

    [geometry.py] imports [Body], [RotDefi], [Transformation], [RotMat],
    [GeoObject] and the region-based scoring cards from modules that are not
    among the sources. What the code only passes around is kept abstract here:
    the shape parameters of a body, rotation matrices and the operations on
    them, the text layout of scoring cards. [list_set] stands for Python's
    [list(set(l))], whose iteration order the language leaves open. *)

Definition Vec3 : Type := (Q * Q * Q)%type.

(** [-v] on a numpy array of three coordinates. *)
Definition Vec3_opp (v : Vec3) : Vec3 :=
  let '(x, y, z) := v in (Qopp x, Qopp y, Qopp z).

Definition Vec3_zero : Vec3 := (0%Q, 0%Q, 0%Q).

Class External : Type := {
  shape : Type;
  RotMat : Type;
  Body_rotate : RotMat -> bool -> shape -> shape;
  Body_traslate : Vec3 -> shape -> shape;
  RotMat_new : Q -> Z -> bool -> RotMat;
  RotMat_inv : RotMat -> RotMat;
  GetGimbalAngles : RotMat -> list Q;
  Usrbin_move : Vec3 -> list string -> list string;
  scoring_card : Type;
  regNameReplaceInDef : string -> string -> scoring_card -> scoring_card;
  list_set : list string -> list string;
  HighLightComment : string -> string;
  TailNameInt : string -> option nat -> nat -> string -> Z -> string;
  rename_note : string -> string -> string;
  Location_echo : Vec3 -> list Q -> list Z -> RotMat -> string
}.

(** ** [GeoObject]: name and comment *)

(** Modelled from the spec: class [GeoObject] (module [FLUKA]) is not in the
    sources. Every entity is "named" and carries the comment lines that are
    "buffered, attached to the next non-comment card"; [tailMe] adds a line
    after the comment held so far and [headMe] adds one before it. *)
Definition tailMe (comment myString : string) : string :=
  if Py.nonempty comment then comment +++ Py.LF +++ myString else myString.

Definition headMe (comment myString : string) : string :=
  if Py.nonempty comment then myString +++ Py.LF +++ comment else myString.

(** ** Regions ([region.py])

    [lattice] and [rTransf] are the lattice linkage that [geometry.py] reaches
    through [assignLat], [isLattice], [echoLatticeName], [assignTrasf],
    [isLinkedToTransform] and [echoTransformName]. *)

Record Region : Type := mkRegion {
  rName : string;
  rComment : string;
  neigh : Q;
  definition : string;
  material : string;
  rCont : Z;
  rCent : Vec3;
  rMaxLen : Q;
  lattice : option string;
  rTransf : option string
}.

(** [Region.initCont(rCont=0,rCent=np.array([0.0,0.0,0.0]),rMaxLen=0.0)].
    Nothing in the sources writes into the array that serves as default, so
    the default is the constant it is created with. *)
Definition initCont (r : Region) (cont : Z) (cent : Vec3) (maxLen : Q) : Region :=
  {| rName := rName r; rComment := rComment r; neigh := neigh r;
     definition := definition r; material := material r;
     rCont := cont; rCent := cent; rMaxLen := maxLen;
     lattice := lattice r; rTransf := rTransf r |}.

Definition initCont_default (r : Region) : Region :=
  initCont r 0 Vec3_zero 0%Q.

(** [Region(myName=...)]: the constructor. *)
Definition Region_new (myName : string) : Region :=
  {| rName := myName; rComment := ""; neigh := 5%Q; definition := "";
     material := "BLACKHOLE"; rCont := 0; rCent := Vec3_zero; rMaxLen := 0%Q;
     lattice := None; rTransf := None |}.

Definition Region_tailMe (r : Region) (myString : string) : Region :=
  {| rName := rName r; rComment := tailMe (rComment r) myString;
     neigh := neigh r; definition := definition r; material := material r;
     rCont := rCont r; rCent := rCent r; rMaxLen := rMaxLen r;
     lattice := lattice r; rTransf := rTransf r |}.

Definition Region_headMe (r : Region) (myString : string) : Region :=
  {| rName := rName r; rComment := headMe (rComment r) myString;
     neigh := neigh r; definition := definition r; material := material r;
     rCont := rCont r; rCent := rCent r; rMaxLen := rMaxLen r;
     lattice := lattice r; rTransf := rTransf r |}.

Definition Region_set_def (r : Region) (d : string) (n : Q) : Region :=
  {| rName := rName r; rComment := rComment r;
     neigh := n; definition := d; material := material r;
     rCont := rCont r; rCent := rCent r; rMaxLen := rMaxLen r;
     lattice := lattice r; rTransf := rTransf r |}.

(** The comment ["* merging zone %s:%d into %s:%d"%(new,jj,me,ii)]. *)
Definition merge_comment (newName : string) (jj : Z) (myName : string) (ii : Z)
  : string :=
  "* merging zone " +++ newName +++ ":" +++ Py.fmt_d jj +++ " into "
    +++ myName +++ ":" +++ Py.fmt_d ii.

(** What the two nested loops of [Region.merge] carry along: the comment of
    the surviving region, [mergedDef] and [lFirst]. *)
Record MergeAcc : Type := mkMergeAcc {
  accComment : string;
  mergedDef : string;
  lFirst : bool
}.

(** The body of the inner loop, for one zone of each region. *)
Definition merge_pair (spacing newName myName : string)
  (ii : Z) (sMyRegZone : string) (acc : MergeAcc) (jz : Z * string) : MergeAcc :=
  let '(jj, newRegZone) := jz in
  let sNewRegZone := Py.strip newRegZone in
  if Py.nonempty sNewRegZone then
    let tmpComment := merge_comment newName jj myName ii in
    if lFirst acc then
      {| accComment := tailMe (accComment acc) tmpComment;
         mergedDef := "| " +++ sMyRegZone +++ " " +++ sNewRegZone;
         lFirst := false |}
    else
      {| accComment := accComment acc;
         mergedDef := mergedDef acc +++ Py.LF +++ tmpComment +++ Py.LF
                        +++ spacing +++ "| " +++ sMyRegZone +++ " "
                        +++ sNewRegZone;
         lFirst := false |}
  else acc.

(** The body of the outer loop, for one zone of the surviving region. *)
Definition merge_zone (spacing newName myName : string)
  (newRegZones : list string) (acc : MergeAcc) (iz : Z * string) : MergeAcc :=
  let '(ii, myRegZone) := iz in
  let sMyRegZone := Py.strip myRegZone in
  if Py.nonempty sMyRegZone then
    fold_left (merge_pair spacing newName myName ii sMyRegZone)
              (Py.enumerate_from 1 newRegZones) acc
  else acc.

(** [Region.merge(self,newReg,spacing)] *)
Definition merge (self newReg : Region) (spacing : string) : Region :=
  let c1 := tailMe (rComment self)
              ("* --> merged with region " +++ rName newReg +++ " <--") in
  let c2 := if Py.nonempty (rComment newReg)
            then tailMe c1 (rComment newReg) else c1 in
  let newRegZones := Py.split_on "|" (definition newReg) in
  let myRegZones := Py.split_on "|" (definition self) in
  let acc := fold_left
               (merge_zone spacing (rName newReg) (rName self) newRegZones)
               (Py.enumerate_from 1 myRegZones)
               {| accComment := c2; mergedDef := ""; lFirst := true |} in
  initCont_default
    {| rName := rName self; rComment := accComment acc;
       neigh := Qplus (neigh self) (neigh newReg);
       definition := mergedDef acc; material := material self;
       rCont := rCont self; rCent := rCent self; rMaxLen := rMaxLen self;
       lattice := lattice self; rTransf := rTransf self |}.

(** The default [spacing=" "*16]. *)
Definition merge_spacing : string := "                ".

(** [Region.retBodiesInDef]: the lines of the definition, comment lines
    left out, with the operators blanked, split into names; every name once,
    at its first place. The test [if (self.isNonEmpty)] looks at the method,
    not at its result, so that the branch with [exit(1)] is never taken. *)

(** [s.splitlines()] on the line boundaries of ASCII text. *)
Definition is_linebreak (c : ascii) : bool :=
  let n := nat_of_ascii c in
  (((10 <=? n) && (n <=? 13)) || ((28 <=? n) && (n <=? 30)) || (n =? 133))%nat.

Fixpoint splitlines_from (cur s : string) : list string :=
  match s with
  | EmptyString => if Py.nonempty cur then [cur] else []
  | String c s' =>
      if is_linebreak c then
        match s' with
        | String c' s'' =>
            if ((nat_of_ascii c =? 13) && (nat_of_ascii c' =? 10))%nat
            then cur :: splitlines_from EmptyString s''
            else cur :: splitlines_from EmptyString s'
        | EmptyString => [cur]
        end
      else splitlines_from (cur +++ String c EmptyString) s'
  end.

Definition splitlines (s : string) : list string :=
  splitlines_from EmptyString s.

(** [s.replace(old," ")] for a one-character [old]. *)
Fixpoint blank_char (old : ascii) (s : string) : string :=
  match s with
  | EmptyString => EmptyString
  | String c s' =>
      String (if Ascii.eqb c old then " "%char else c) (blank_char old s')
  end.

Definition add_new (seen : list string) (x : string) : list string :=
  if Py.mem x seen then seen else seen ++ [x].

(** The names of a list, each once, in the order of first occurrence. *)
Definition first_seen (l : list string) : list string :=
  fold_left add_new l [].

Definition retBodiesInDef (r : Region) : list string :=
  fold_left
    (fun bodiesInDef myLine =>
       if Py.startswith myLine "*" then bodiesInDef
       else
         let tmpLine := blank_char "-" (blank_char "+" (blank_char "|" myLine)) in
         fold_left (fun acc currBody => add_new acc (Py.strip currBody))
                   (Py.split_ws (Py.strip tmpLine)) bodiesInDef)
    (splitlines (definition r)) [].

(** ** Bodies, transformations and scoring cards *)

Section Entities.
Context {ext : External}.

(** Modelled from the spec: class [Body] (module [body]) is not in the
    sources. A body is a "named primitive" that "exposes identity and
    rotate/translate capability; opaque otherwise"; it may be linked by name
    to a transformation (the geometry directive). *)
Record Body : Type := mkBody {
  bName : string;
  bComment : string;
  bTransf : option string;
  bShape : shape
}.

(** Modelled from the spec: class [RotDefi] (module [transformation]) is not
    in the sources. An "elementary rotation/translation step" of a card, as
    the card records it: the axis and the angle of a rotation, or the vector
    of a translation; what a step does not have is [None]. *)
Record RotDefi : Type := mkRotDefi {
  myAx : option Z;
  angle : option Q;
  myDD : option Vec3
}.

Definition rotation_step (ax : Z) (a : Q) : RotDefi :=
  {| myAx := Some ax; angle := Some a; myDD := None |}.

Definition translation_step (v : Vec3) : RotDefi :=
  {| myAx := None; angle := None; myDD := Some v |}.

(** Modelled from the spec: the constructor [RotDefi(myAx=..,myTh=..)] is not
    in the sources. [solidTrasform] hands over the angle by which it rotates
    the bodies; "recorded external transform cards, however, must encode:
    translation applied first, rotation second, with rotation angles negated
    relative to a right-handed convention", so that a rotation by 90 degrees
    about axis 2 is recorded as "rotation -90 about axis 2": the step records
    the angle negated. *)
Definition RotDefi_rot (ax : Z) (th : Q) : RotDefi :=
  rotation_step ax (Qopp th).

(** Modelled from the spec: the constructor [RotDefi(myDD=..)] is not in the
    sources. [solidTrasform] hands over the vector [-dd] of a translation by
    [dd], and the card must record "translation (0,0,-10)" for the
    translation by (0,0,10): the step records the vector as it is handed
    over. *)
Definition RotDefi_tra (dd : Vec3) : RotDefi :=
  translation_step dd.

(** Modelled from the spec: class [Transformation] (module [transformation])
    is not in the sources. A transformation is a "named ordered list of
    elementary rotation/translation steps" with a "numeric ID fallback". *)
Record Transformation : Type := mkTransformation {
  tName : string;
  tComment : string;
  ID : Z;
  RotDefis : list RotDefi
}.

(** [Transformation(myID=..,myName=..)] *)
Definition Transformation_new (myID : Z) (myName : string) : Transformation :=
  {| tName := myName; tComment := ""; ID := myID; RotDefis := [] |}.

(** [l.insert(i,x)] of Python lists. *)
Definition py_insert {A : Type} (l : list A) (i : Z) (x : A) : list A :=
  let n := Z.of_nat (List.length l) in
  let j := if i <? 0 then Z.max 0 (i + n) else Z.min i n in
  firstn (Z.to_nat j) l ++ x :: skipn (Z.to_nat j) l.

(** Modelled from the spec: [Transformation.AddRotDefi] and
    [Transformation.AddRotDefis] are not in the sources. The steps handed
    over are taken one after the other; with [iAdd=-1] a step goes to the end
    of the list, otherwise it is inserted at position [iAdd], so that with
    [iAdd=0] the steps are "prepended" and the one handed over last comes to
    stand first: [solidTrasform] collects rotation before translation, and the
    card must "encode: translation applied first, rotation second". *)
Definition AddRotDefi (t : Transformation) (newRotDefi : RotDefi) (iAdd : Z)
  : Transformation :=
  {| tName := tName t; tComment := tComment t; ID := ID t;
     RotDefis := if iAdd =? -1 then RotDefis t ++ [newRotDefi]
                 else py_insert (RotDefis t) iAdd newRotDefi |}.

Definition AddRotDefis (t : Transformation) (newRotDefis : list RotDefi)
  (iAdd : Z) : Transformation :=
  fold_left (fun t' rd => AddRotDefi t' rd iAdd) newRotDefis t.

Definition Transformation_headMe (t : Transformation) (myString : string)
  : Transformation :=
  {| tName := tName t; tComment := headMe (tComment t) myString;
     ID := ID t; RotDefis := RotDefis t |}.

(** [Usrbin] ([scorings.py]): the two definition lines and the name of the
    transformation of the ROTPRBIN card, empty when there is none. *)
Record Usrbin : Type := mkUsrbin {
  uName : string;
  uComment : string;
  uDefinition : list string;
  TransfName : string
}.

(** Modelled from the spec: [isLinkedToTransform], [retTransformName] and
    [assignTransformName] of [Usrbin] are not in the sources, which have
    [returnTrasf], [assignTrasf] and the test [len(self.TransfName)>0] of
    [echo]; the "transform-link query/assign" of the card follow these. *)
Definition Usrbin_isLinked (u : Usrbin) : bool := Py.nonempty (TransfName u).

Definition Usrbin_assignTrasf (u : Usrbin) (trasfName : string) : Usrbin :=
  if Py.nonempty trasfName then
    {| uName := uName u; uComment := uComment u;
       uDefinition := uDefinition u; TransfName := trasfName |}
  else u.

(** Modelled from the spec: the region-based scoring cards [Usryield],
    [Usrbdx], [Usrtrack] and [Usrcoll] are not in the sources; the tag stands
    for the class that [isinstance] tests. *)
Inductive ScoKind : Type := Usryield | Usrbdx | Usrtrack | Usrcoll.

Definition ScoKind_eqb (a b : ScoKind) : bool :=
  match a, b with
  | Usryield, Usryield | Usrbdx, Usrbdx
  | Usrtrack, Usrtrack | Usrcoll, Usrcoll => true
  | _, _ => false
  end.

Record Scoring : Type := mkScoring {
  sName : string;
  sComment : string;
  sKind : ScoKind;
  sCard : scoring_card
}.

(** ** The aggregate *)

Record Geometry : Type := mkGeometry {
  bods : list Body;
  regs : list Region;
  tras : list Transformation;
  bins : list Usrbin;
  scos : list Scoring;
  title : string
}.

Definition Geometry_new : Geometry :=
  {| bods := []; regs := []; tras := []; bins := []; scos := []; title := "" |}.

Definition set_bods (g : Geometry) (l : list Body) : Geometry :=
  {| bods := l; regs := regs g; tras := tras g; bins := bins g;
     scos := scos g; title := title g |}.

Definition set_regs (g : Geometry) (l : list Region) : Geometry :=
  {| bods := bods g; regs := l; tras := tras g; bins := bins g;
     scos := scos g; title := title g |}.

Definition set_tras (g : Geometry) (l : list Transformation) : Geometry :=
  {| bods := bods g; regs := regs g; tras := l; bins := bins g;
     scos := scos g; title := title g |}.

Definition set_bins (g : Geometry) (l : list Usrbin) : Geometry :=
  {| bods := bods g; regs := regs g; tras := tras g; bins := l;
     scos := scos g; title := title g |}.

Definition set_scos (g : Geometry) (l : list Scoring) : Geometry :=
  {| bods := bods g; regs := regs g; tras := tras g; bins := bins g;
     scos := l; title := title g |}.

Definition set_title (g : Geometry) (t : string) : Geometry :=
  {| bods := bods g; regs := regs g; tras := tras g; bins := bins g;
     scos := scos g; title := t |}.

End Entities.

(** ** The query engine: [Geometry.ret] *)

(** The branches of the [if]/[elif] chain of [ret], in the order in which
    the chain tests [myKey.upper().startswith(..)]. *)
Inductive Selector : Type :=
| SBodsInReg | SBod | SLat | SReg
| STransfLinkedToBody | STransfLinkedToLat | STransfLinkedToUsrbin | STransf
| SBinInUnit | SBin | SSco
| SUsryield | SUsrbdx | SUsrtrack | SUsrcoll.

Definition selector_of (myKey : string) : option Selector :=
  let K := Py.upper myKey in
  if Py.startswith K "BODSINREG" then Some SBodsInReg
  else if Py.startswith K "BOD" then Some SBod
  else if Py.startswith K "LAT" then Some SLat
  else if Py.startswith K "REG" then Some SReg
  else if Py.startswith K "TRANSFLINKEDTOBODY" then Some STransfLinkedToBody
  else if Py.startswith K "TRANSFLINKEDTOLAT" then Some STransfLinkedToLat
  else if Py.startswith K "TRANSFLINKEDTOUSRBIN" then Some STransfLinkedToUsrbin
  else if Py.startswith K "TRANSF" then Some STransf
  else if Py.startswith K "BININUNIT" || Py.startswith K "USRBININUNIT"
       then Some SBinInUnit
  else if Py.startswith K "BIN" || Py.startswith K "USRBIN" then Some SBin
  else if Py.startswith K "SCO" || Py.startswith K "SCORING" then Some SSco
  else if Py.startswith K "USRYIELD" then Some SUsryield
  else if Py.startswith K "USRBDX" then Some SUsrbdx
  else if Py.startswith K "USRTRACK" then Some SUsrtrack
  else if Py.startswith K "USRCOLL" then Some SUsrcoll
  else None.

(** [myValue.upper()=="ALL"] *)
Definition is_ALL (myValue : string) : bool :=
  String.eqb (Py.upper myValue) "ALL".

Section Query.
Context {ext : External}.

(** What [ret] hands back as first component when it is a single entity. *)
Inductive Entity : Type :=
| EBody (b : Body)
| ERegion (r : Region)
| ETransformation (t : Transformation)
| EUsrbin (u : Usrbin)
| EScoring (s : Scoring).

(** One entry of the index list of a relation: the index of one lookup, or
    the whole index list when the name looked up reads "ALL". *)
Inductive Index : Type :=
| IOne (i : Z)
| IMany (l : list Z).

(** The pairs that [ret] returns: [(None,-1)], an entity with its index, the
    names and indices of a collection, the names and indices of a relation. *)
Inductive Ret : Type :=
| RNone
| ROne (e : Entity) (i : Z)
| RAll (names : list string) (idx : list Z)
| RRel (names : list string) (idx : list Index).

(** The loop [for iEntry,myEntry in enumerate(l): if (..): lFound=True; break]. *)
Fixpoint find_from {A : Type} (p : A -> bool) (i : Z) (l : list A)
  : option (Z * A) :=
  match l with
  | [] => None
  | a :: l' => if p a then Some (i, a) else find_from p (i + 1) l'
  end.

Definition lookup {A : Type} (inj : A -> Entity) (p : A -> bool) (l : list A)
  : Ret :=
  match find_from p 0 l with
  | Some (i, a) => ROne (inj a) i
  | None => RNone
  end.

(** [[ ii for ii in range(len(l)) if p(l[ii]) ]] *)
Definition indices_where {A : Type} (p : A -> bool) (l : list A) : list Z :=
  map fst (filter (fun ia => p (snd ia)) (Py.enumerate_from 0 l)).

Definition isLattice (r : Region) : bool :=
  match lattice r with Some _ => true | None => false end.

Definition Region_isLinked (r : Region) : bool :=
  match rTransf r with Some _ => true | None => false end.

Definition Body_isLinked (b : Body) : bool :=
  match bTransf b with Some _ => true | None => false end.

Definition opt_eqb (o : option string) (v : string) : bool :=
  match o with Some n => String.eqb n v | None => false end.

(** The names [ x.retTransformName() for x in l if linked(x) ]. *)
Definition linked_names {A : Type} (link : A -> option string) (l : list A)
  : list string :=
  flat_map (fun a => match link a with Some n => [n] | None => [] end) l.

Definition Usrbin_link (u : Usrbin) : option string :=
  if Usrbin_isLinked u then Some (TransfName u) else None.

Definition lattice_link (r : Region) : option string :=
  if isLattice r then rTransf r else None.

Definition entity_link (e : Entity) : outcome (option string) :=
  match e with
  | EBody b => Ok (bTransf b)
  | ERegion r => Ok (rTransf r)
  | EUsrbin u => Ok (Usrbin_link u)
  | _ => Raise
  end.

(** The second component of a nested lookup, as it is appended to [iEntry]. *)
Definition index_of (r : Ret) : outcome Index :=
  match r with
  | RNone => Ok (IOne (-1))
  | ROne _ i => Ok (IOne i)
  | RAll _ idx => Ok (IMany idx)
  | RRel _ _ => Raise
  end.

Fixpoint mapM {A B : Type} (f : A -> outcome B) (l : list A)
  : outcome (list B) :=
  match l with
  | [] => Ok []
  | a :: l' => b <- f a ;; bs <- mapM f l' ;; Ok (b :: bs)
  end.

(** The three relations "transformation linked to ..": with "ALL" the set of
    the names in use, each looked up among the transformations; with a name,
    the owner is looked up first and a missing owner ends the run. The flag
    is set by [lFound=myEntry is None]. *)
Definition ret_linked (self_ret : string -> string -> outcome Ret)
  (names : list string) (owner : string) (myValue : string) : outcome Ret :=
  if is_ALL myValue then
    let myEntry := list_set names in
    iEntry <- mapM (fun tEntry => r <- self_ret "transf" tEntry ;; index_of r)
                   myEntry ;;
    Ok (RRel myEntry iEntry)
  else
    r <- self_ret owner myValue ;;
    match r with
    | RNone => Exit
    | ROne mE _ =>
        link <- entity_link mE ;;
        match link with
        | Some n =>
            r' <- self_ret "transf" n ;;
            match r' with
            | RNone => Ok r'
            | _ => Ok RNone
            end
        | None => Ok RNone
        end
    | _ => Raise
    end.

Definition ret_scoring (g : Geometry) (k : ScoKind) (myValue : string) : Ret :=
  if is_ALL myValue then
    RAll (map sName (filter (fun s => ScoKind_eqb (sKind s) k) (scos g)))
         (Py.range (List.length (scos g)))
  else
    lookup EScoring
           (fun s => String.eqb (sName s) myValue && ScoKind_eqb (sKind s) k)
           (scos g).

Definition ret_collection {A : Type} (inj : A -> Entity) (name : A -> string)
  (l : list A) (myValue : string) : Ret :=
  if is_ALL myValue then RAll (map name l) (Py.range (List.length l))
  else lookup inj (fun a => String.eqb (name a) myValue) l.

(** One pass through the chain; [self_ret] stands for the calls [self.ret(..)]
    inside the chain. *)
Definition ret_sel (self_ret : string -> string -> outcome Ret) (g : Geometry)
  (sel : Selector) (myValue : string) : outcome Ret :=
  match sel with
  | SBodsInReg =>
      if is_ALL myValue then
        r <- self_ret "reg" "ALL" ;;
        match r with
        | RAll myReg _ =>
            _ <- mapM (fun findReg =>
                         r' <- self_ret "BodsInReg" findReg ;;
                         match r' with
                         | RRel tmpEl tmpInd => Ok (tmpEl, tmpInd)
                         | RAll _ _ => Raise
                         | _ => Raise
                         end) myReg ;;
            Ok RNone
        | _ => Raise
        end
      else
        r <- self_ret "reg" myValue ;;
        match r with
        | ROne (ERegion myReg) _ =>
            let myEntry := retBodiesInDef myReg in
            iEntry <- mapM (fun findBod =>
                              r' <- self_ret "bod" findBod ;; index_of r')
                           myEntry ;;
            Ok (RRel myEntry iEntry)
        | _ => Raise
        end
  | SBod => Ok (ret_collection EBody bName (bods g) myValue)
  | SLat =>
      if is_ALL myValue then
        Ok (RAll (linked_names lattice (regs g))
                 (indices_where isLattice (regs g)))
      else Ok (lookup ERegion (fun r => opt_eqb (lattice r) myValue) (regs g))
  | SReg => Ok (ret_collection ERegion rName (regs g) myValue)
  | STransfLinkedToBody =>
      ret_linked self_ret (linked_names bTransf (bods g)) "body" myValue
  | STransfLinkedToLat =>
      ret_linked self_ret (linked_names lattice_link (regs g)) "lat" myValue
  | STransfLinkedToUsrbin =>
      ret_linked self_ret (linked_names Usrbin_link (bins g)) "usrbin" myValue
  | STransf => Ok (ret_collection ETransformation tName (tras g) myValue)
  | SBinInUnit =>
      match bins g with
      | [] => Ok RNone
      | _ :: _ => Raise
      end
  | SBin => Ok (ret_collection EUsrbin uName (bins g) myValue)
  | SSco => Ok (ret_collection EScoring sName (scos g) myValue)
  | SUsryield => Ok (ret_scoring g Usryield myValue)
  | SUsrbdx => Ok (ret_scoring g Usrbdx myValue)
  | SUsrtrack => Ok (ret_scoring g Usrtrack myValue)
  | SUsrcoll => Ok (ret_scoring g Usrcoll myValue)
  end.

(** [ret] calls itself; [fuel] bounds the depth of the calls, and a call
    beyond it dies, as Python does at its recursion limit. The chain nests
    three deep at most: "BodsInReg" with "ALL" asks "BodsInReg" with a region
    name, which asks "reg" and "bod". *)
Fixpoint ret_fuel (fuel : nat) (g : Geometry) (myKey myValue : string)
  : outcome Ret :=
  match fuel with
  | O => Raise
  | S fuel' =>
      match selector_of myKey with
      | Some sel => ret_sel (ret_fuel fuel' g) g sel myValue
      | None => Exit
      end
  end.

(** [Geometry.ret(self,myKey,myValue)] for a name or "ALL" as [myValue]. With
    the unit number that the selector "BININUNIT" expects replaced by a
    string, Python fails on the first USRBIN at [abs(..) in myValue]. *)
Definition ret (g : Geometry) (myKey myValue : string) : outcome Ret :=
  ret_fuel 3 g myKey myValue.

End Query.

(** ** Adding entities and mapping by flags *)

Section Building.
Context {ext : External}.

(** [Geometry.add(self,tmpEl,what)]. The lists of the embedding are typed: an
    element of another class than the list that [what] names cannot be
    stored, which no caller in the sources attempts. *)
Definition add (g : Geometry) (tmpEl : Entity) (what : string)
  : outcome Geometry :=
  let W := Py.upper what in
  if Py.startswith W "BOD" then
    match tmpEl with EBody b => Ok (set_bods g (bods g ++ [b])) | _ => Raise end
  else if Py.startswith W "REG" then
    match tmpEl with ERegion r => Ok (set_regs g (regs g ++ [r])) | _ => Raise end
  else if Py.startswith W "TRAS" || Py.startswith W "TRANSF" then
    match tmpEl with
    | ETransformation t => Ok (set_tras g (tras g ++ [t]))
    | _ => Raise
    end
  else if Py.startswith W "BIN" || Py.startswith W "USRBIN" then
    match tmpEl with EUsrbin u => Ok (set_bins g (bins g ++ [u])) | _ => Raise end
  else if Py.startswith W "SCO" || Py.startswith W "SCORING" then
    match tmpEl with EScoring s => Ok (set_scos g (scos g ++ [s])) | _ => Raise end
  else Exit.

(** The dictionary [mapping] with its four lists. *)
Record Mapping : Type := mkMapping {
  iRhg : list Z;
  jRhg : list Z;
  iRgg : list Z;
  jRgg : list Z
}.

(** [MapContRegs(CtainGeo,CinedGeo)] *)
Definition MapContRegs (CtainGeo CinedGeo : Geometry)
  : outcome (list Geometry * list Geometry * Mapping * string) :=
  let iRhgs := indices_where (fun mReg => rCont mReg =? 1) (regs CtainGeo) in
  let iRggs := indices_where (fun mReg => rCont mReg =? -1) (regs CinedGeo) in
  if ((1 <? List.length iRhgs) && (1 <? List.length iRggs))%nat then Exit
  else
    '(mapType, hg, gg) <-
      (if ((1 <=? List.length iRhgs) && (List.length iRggs =? 1))%nat then
         gg <- mapM (fun _ => py_index iRggs 0) iRhgs ;;
         Ok ("oneGrid", iRhgs, gg)
       else
         hg <- mapM (fun _ => py_index iRhgs 0) iRggs ;;
         Ok ("oneHive", hg, iRggs)) ;;
    Ok ([CtainGeo], [CinedGeo],
        {| iRhg := hg; jRhg := map (fun _ => 0) hg;
           iRgg := gg; jRgg := map (fun _ => 0) gg |},
        mapType).

End Building.

(** ** The transform composer: [Geometry.solidTrasform] *)

(** [myTheta] and [myAxis] are a number or a list of numbers. *)
Inductive Angles : Type :=
| Angle (th : Q)
| AngleList (ths : list Q).

Inductive Axes : Type :=
| Axis (ax : Z)
| AxisList (axs : list Z).

(** [x != 0.0] *)
Definition nonzero (x : Q) : bool := negb (Qeq_bool x 0).

Section Composer.
Context {ext : External}.

(** [l[i]=x] at a position that a lookup has returned. *)
Fixpoint replace_nth {A : Type} (n : nat) (x : A) (l : list A) : list A :=
  match l, n with
  | [], _ => []
  | _ :: l', O => x :: l'
  | a :: l', S n' => a :: replace_nth n' x l'
  end.

(** [myTras,iEntry=self.ret("transf",name)] followed by a method call on
    [myTras], which changes the transformation where it is stored. *)
Definition on_transf (g : Geometry) (key name : string)
  (f : Transformation -> Transformation) : outcome Geometry :=
  r <- ret g key name ;;
  match r with
  | ROne (ETransformation t) i =>
      Ok (set_tras g (replace_nth (Z.to_nat i) (f t) (tras g)))
  | _ => Raise
  end.

(** The loop over the owners of links (bodies, lattice regions, USRBINs):
    an owner that is linked has the name of its transformation noted, once;
    an owner that is not gets linked to [Tname] and sets [lCreate]. *)
Definition link_step {A : Type} (link : A -> option string)
  (assign : A -> string -> A) (Tname : string)
  (acc : list A * bool * list string) (a : A) : list A * bool * list string :=
  let '(done, lCreate, tTrasfs) := acc in
  match link a with
  | Some myTname =>
      (done ++ [a], lCreate,
       if Py.mem myTname tTrasfs then tTrasfs else tTrasfs ++ [myTname])
  | None => (done ++ [assign a Tname], true, tTrasfs)
  end.

Definition link_all {A : Type} (link : A -> option string)
  (assign : A -> string -> A) (Tname : string) (l : list A)
  : list A * bool * list string :=
  fold_left (link_step link assign Tname) l ([], false, []).

(** What follows the loop: the transformation [Tname] is created when it is
    needed and not there; every transformation noted gets the steps, at the
    head of its list and, when wrapping, the inverse ones at the end; the
    comment goes to [Tname]. *)
Definition record_steps (g : Geometry) (Tname : string) (lCreate : bool)
  (tTrasfs : list string) (ROTDEFIlist : list RotDefi)
  (wrap : option (list RotDefi)) (myComment : option string)
  : outcome Geometry :=
  '(g1, tTrasfs1) <-
    (if lCreate then
       r <- ret g "TRANSF" Tname ;;
       match r with
       | RNone =>
           g' <- add g (ETransformation
                          (Transformation_new
                             (Z.of_nat (List.length (tras g)) + 1) Tname))
                     "tras" ;;
           Ok (g', tTrasfs ++ [Tname])
       | _ => Ok (g, tTrasfs)
       end
     else Ok (g, tTrasfs)) ;;
  g2 <- fold_left
          (fun acc myTrasName =>
             g' <- acc ;;
             on_transf g' "transf" myTrasName
               (fun myTras =>
                  let t1 := AddRotDefis myTras ROTDEFIlist 0 in
                  match wrap with
                  | Some ROTDEFIlistINV =>
                      AddRotDefis t1 (rev ROTDEFIlistINV) (-1)
                  | None => t1
                  end))
          tTrasfs1 (Ok g1) ;;
  match lCreate, myComment with
  | true, Some c =>
      on_transf g2 "TRANSF" Tname (fun myEntry => Transformation_headMe myEntry c)
  | _, _ => Ok g2
  end.

Definition Body_link (b : Body) (Tname : string) : Body :=
  {| bName := bName b; bComment := bComment b; bTransf := Some Tname;
     bShape := bShape b |}.

Definition Body_map_shape (f : shape -> shape) (b : Body) : Body :=
  {| bName := bName b; bComment := bComment b; bTransf := bTransf b;
     bShape := f (bShape b) |}.

Definition Region_assignTrasf (r : Region) (myTrasfName : string) : Region :=
  {| rName := rName r; rComment := rComment r; neigh := neigh r;
     definition := definition r; material := material r;
     rCont := rCont r; rCent := rCent r; rMaxLen := rMaxLen r;
     lattice := lattice r; rTransf := Some myTrasfName |}.

(** The loop over the regions looks at lattice regions only. *)
Definition lattice_step (Tname : string)
  (acc : list Region * bool * list string) (myReg : Region)
  : list Region * bool * list string :=
  if isLattice myReg then link_step rTransf Region_assignTrasf Tname acc myReg
  else let '(done, lCreate, tTrasfs) := acc in (done ++ [myReg], lCreate, tTrasfs).

Definition Usrbin_moved (dd : Vec3) (u : Usrbin) : Usrbin :=
  {| uName := uName u; uComment := uComment u;
     uDefinition := Usrbin_move dd (uDefinition u);
     TransfName := TransfName u |}.

(** The loop over the USRBINs: a pure translation moves the mesh of a
    USRBIN that has no transformation. *)
Definition usrbin_step (lTraslOnly : option Vec3) (Tname : string)
  (acc : list Usrbin * bool * list string) (myBin : Usrbin)
  : list Usrbin * bool * list string :=
  match lTraslOnly, Usrbin_isLinked myBin with
  | Some dd, false =>
      let '(done, lCreate, tTrasfs) := acc in
      (done ++ [Usrbin_moved dd myBin], lCreate, tTrasfs)
  | _, _ => link_step Usrbin_link Usrbin_assignTrasf Tname acc myBin
  end.

(** The steps of a rotation matrix: one per axis with a non-zero angle. *)
Definition gimbal_steps (sign : Q -> Q) (thetas : list Q) : list RotDefi :=
  flat_map (fun p => if nonzero (snd p)
                     then [RotDefi_rot (fst p) (sign (snd p))] else [])
           (Py.enumerate_from 1 thetas).

(** [zip(a,b)] *)
Definition zip {A B : Type} (a : list A) (b : list B) : list (A * B) :=
  combine a b.

(** One call of [solidTrasform]; [self_call] stands for the call of the
    method on a single angle, which leaves [dd], [myMat], [myName] and
    [myComment] at their defaults. *)
Definition solidTrasform_call
  (self_call : Geometry -> Q -> Z -> outcome Geometry)
  (g : Geometry) (dd : option Vec3) (myMat : option RotMat)
  (myTheta : option Angles) (myAxis : Axes)
  (lDegs lGeoDirs lOnlyGeo lWrapGeo : bool)
  (myName : string) (myComment : option string) : outcome Geometry :=
  match myMat, myTheta, dd with
  | None, None, None => Ok g
  | _, _, _ =>
      (* rotation *)
      '(g1, L1, I1) <-
        match myMat with
        | Some m =>
            let g' := if lGeoDirs then g
                      else set_bods g (map (Body_map_shape (Body_rotate m lDegs))
                                           (bods g)) in
            let thetas := GetGimbalAngles m in
            Ok (g', gimbal_steps (fun t => t) thetas,
                if lWrapGeo then gimbal_steps Qopp thetas else [])
        | None =>
            match myTheta with
            | Some (AngleList ths) =>
                match myAxis with
                | AxisList axs =>
                    if negb (List.length ths =? List.length axs)%nat then Exit
                    else
                      g' <- fold_left
                              (fun acc p => ga <- acc ;; self_call ga (fst p) (snd p))
                              (zip ths axs) (Ok g) ;;
                      Ok (g', [], [])
                | Axis _ => Raise
                end
            | Some (Angle th) =>
                if nonzero th then
                  match myAxis with
                  | Axis ax =>
                      let g' := if lGeoDirs then g
                                else set_bods g
                                       (map (Body_map_shape
                                               (Body_rotate (RotMat_new th ax lDegs)
                                                            lDegs))
                                            (bods g)) in
                      Ok (g', [RotDefi_rot ax th],
                          if lWrapGeo then [RotDefi_rot ax (Qopp th)] else [])
                  | AxisList _ => Raise
                  end
                else Ok (g, [], [])
            | None => Ok (g, [], [])
            end
        end ;;
      (* translation *)
      let '(g2, ROTDEFIlist, ROTDEFIlistINV) :=
        match dd with
        | Some d =>
            (if lGeoDirs then g1
             else set_bods g1 (map (Body_map_shape (Body_traslate d)) (bods g1)),
             L1 ++ [RotDefi_tra (Vec3_opp d)],
             if lWrapGeo then I1 ++ [RotDefi_tra d] else I1)
        | None => (g1, L1, I1)
        end in
      if (0 <? List.length ROTDEFIlist)%nat then
        (* bodies *)
        g3 <-
          (if lGeoDirs then
             let '(bs, lCreate, tTrasfs) :=
               link_all bTransf Body_link (myName +++ "_bdy") (bods g2) in
             record_steps (set_bods g2 bs) (myName +++ "_bdy") lCreate tTrasfs
                          ROTDEFIlist None myComment
           else Ok g2) ;;
        (* LATTICEs *)
        g4 <-
          (let '(rs, lCreate, tTrasfs) :=
             fold_left (lattice_step (myName +++ "_lat")) (regs g3)
                       ([], false, []) in
           record_steps (set_regs g3 rs) (myName +++ "_lat") lCreate tTrasfs
                        ROTDEFIlist
                        (if lWrapGeo then Some ROTDEFIlistINV else None)
                        myComment) ;;
        (* USRBIN part *)
        if negb lOnlyGeo then
          let lTraslOnly :=
            match dd, myMat, myTheta with
            | Some d, None, None => Some d
            | _, _, _ => None
            end in
          let '(us, lCreate, tTrasfs) :=
            fold_left (usrbin_step lTraslOnly (myName +++ "_bin")) (bins g4)
                      ([], false, []) in
          record_steps (set_bins g4 us) (myName +++ "_bin") lCreate tTrasfs
                       ROTDEFIlist None myComment
        else Ok g4
      else Ok g2
  end.

(** The method calls itself once per angle of a list and no deeper; [fuel]
    counts the nesting as in [ret_fuel]. *)
Fixpoint solidTrasform_fuel (fuel : nat) (g : Geometry) (dd : option Vec3)
  (myMat : option RotMat) (myTheta : option Angles) (myAxis : Axes)
  (lDegs lGeoDirs lOnlyGeo lWrapGeo : bool)
  (myName : string) (myComment : option string) : outcome Geometry :=
  match fuel with
  | O => Raise
  | S fuel' =>
      solidTrasform_call
        (fun ga myT myAx =>
           solidTrasform_fuel fuel' ga None None (Some (Angle myT)) (Axis myAx)
                              lDegs lGeoDirs lOnlyGeo lWrapGeo "ToFinPos" None)
        g dd myMat myTheta myAxis lDegs lGeoDirs lOnlyGeo lWrapGeo
        myName myComment
  end.

(** [Geometry.solidTrasform(self,dd,myMat,myTheta,myAxis,lDegs,lGeoDirs,
    lOnlyGeo,lWrapGeo,myName,myComment)] *)
Definition solidTrasform (g : Geometry) (dd : option Vec3)
  (myMat : option RotMat) (myTheta : option Angles) (myAxis : Axes)
  (lDegs lGeoDirs lOnlyGeo lWrapGeo : bool)
  (myName : string) (myComment : option string) : outcome Geometry :=
  solidTrasform_fuel 2 g dd myMat myTheta myAxis lDegs lGeoDirs lOnlyGeo
                     lWrapGeo myName myComment.

End Composer.

(** ** Copies, flags and names *)

(** The dictionary [exceptions] of [rename]: per kind, names to be kept. *)
Record Exceptions : Type := mkExceptions {
  exc_bods : option (list string);
  exc_regs : option (list string);
  exc_tras : option (list string);
  exc_bins : option (list string);
  exc_scos : option (list string)
}.

Definition excepted (exceptions : option Exceptions)
  (kind : Exceptions -> option (list string)) (myCurrName : string) : bool :=
  match exceptions with
  | Some e => match kind e with
              | Some names => Py.mem myCurrName names
              | None => false
              end
  | None => false
  end.

(** [l.index(x)], where the caller has checked [x in l]. *)
Fixpoint index_in (x : string) (l : list string) : nat :=
  match l with
  | [] => O
  | y :: l' => if String.eqb x y then O else S (index_in x l')
  end.

(** A location of the grid and the grid itself. *)
Record Location {ext : External} : Type := mkLocation {
  POINT : Vec3;
  ANGLE : list Q;
  AXIS : list Z;
  MATRIX : RotMat
}.

Section Gridding.
Context {ext : External}.

(** The names of a relation with "ALL", as the copies use them. *)
Definition names_of (r : Ret) : outcome (list string) :=
  match r with
  | RAll names _ => Ok names
  | RRel names _ => Ok names
  | _ => Raise
  end.

(** [for iT,myT in reversed(list(enumerate(names))): if (drop(myT)):
    myTras.pop(iT)] *)
Definition pop_where (drop : string -> bool) (names : list string)
  (myTras : list Transformation) : list Transformation :=
  fold_left
    (fun acc p =>
       if drop (snd p)
       then firstn (Z.to_nat (fst p)) acc ++ skipn (S (Z.to_nat (fst p))) acc
       else acc)
    (rev (Py.enumerate_from 0 names)) myTras.

(** [Geometry.ActualCopy(myGeo,lTrigScoring)] *)
Definition ActualCopy (myGeo : Geometry) (lTrigScoring : bool)
  : outcome Geometry :=
  if lTrigScoring then
    Ok {| bods := bods myGeo; regs := regs myGeo; tras := tras myGeo;
          bins := bins myGeo; scos := scos myGeo; title := title myGeo |}
  else
    r1 <- ret myGeo "TRANSF" "ALL" ;;
    allTrasfNames <- names_of r1 ;;
    r2 <- ret myGeo "TRANSFLINKEDTOBODY" "ALL" ;;
    bodTrasfNames <- names_of r2 ;;
    Ok {| bods := bods myGeo; regs := regs myGeo;
          tras := pop_where (fun myT => negb (Py.mem myT bodTrasfNames))
                            allTrasfNames (tras myGeo);
          bins := []; scos := []; title := title myGeo |}.

Definition Region_assignLat (r : Region) (myLatName : string) : Region :=
  {| rName := rName r; rComment := rComment r; neigh := neigh r;
     definition := definition r; material := material r;
     rCont := rCont r; rCent := rCent r; rMaxLen := rMaxLen r;
     lattice := Some myLatName; rTransf := rTransf r |}.

Definition Region_set_material (r : Region) (m : string) : Region :=
  {| rName := rName r; rComment := rComment r; neigh := neigh r;
     definition := definition r; material := m;
     rCont := rCont r; rCent := rCent r; rMaxLen := rMaxLen r;
     lattice := lattice r; rTransf := rTransf r |}.

(** [Geometry.LatticeCopy(myGeo,lTrigScoring)] with the defaults
    [RegName="LATREG"], [LatName=RegName] and [LatMat="VACUUM"]. *)
Definition LatticeCopy (myGeo : Geometry) (lTrigScoring : bool)
  : outcome Geometry :=
  let myReg := Region_set_material
                 (Region_assignLat (Region_new "LATREG") "LATREG") "VACUUM" in
  new <- add Geometry_new (ERegion myReg) "REG" ;;
  if lTrigScoring then
    Ok {| bods := bods new; regs := regs new; tras := tras myGeo;
          bins := bins myGeo; scos := scos myGeo;
          title := "LATTICE of " +++ title myGeo |}
  else
    r1 <- ret myGeo "TRANSF" "ALL" ;;
    allTrasfNames <- names_of r1 ;;
    r2 <- ret myGeo "TRANSFLINKEDTOUSRBIN" "ALL" ;;
    binTrasfNames <- names_of r2 ;;
    Ok {| bods := bods new; regs := regs new;
          tras := pop_where (fun myT => Py.mem myT binTrasfNames)
                            allTrasfNames (tras myGeo);
          bins := bins new; scos := scos new;
          title := "LATTICE of " +++ title myGeo |}.

(** [Geometry.flagRegs(self,whichRegs,rCont,rCent)] for a name or a list of
    names as [whichRegs]. *)
Definition flagRegs (g : Geometry) (whichRegs : string + list string)
  (cont : Z) (cent : Vec3) : outcome Geometry :=
  regs2mod <-
    match whichRegs with
    | inl name =>
        if is_ALL name then r <- ret g "reg" "ALL" ;; names_of r
        else Ok [name]
    | inr names =>
        if Py.mem "ALL" (map Py.upper names)
        then r <- ret g "reg" "ALL" ;; names_of r
        else Ok names
    end ;;
  fold_left
    (fun acc whichReg =>
       g' <- acc ;;
       r <- ret g' "reg" whichReg ;;
       match r with
       | ROne (ERegion outReg) iReg =>
           Ok (set_regs g' (replace_nth (Z.to_nat iReg)
                                        (initCont outReg cont cent 0%Q)
                                        (regs g')))
       | _ => Raise
       end)
    regs2mod (Ok g).

(** Modelled from the spec: [GeoObject.rename(newName,lNotify)] is not in the
    sources; the entity takes the new name and, when notifying, a line about
    the change is added to its comment. *)
Definition renamed_comment (comment oldName newName : string) (lNotify : bool)
  : string :=
  if lNotify then tailMe comment (rename_note oldName newName) else comment.

(** [Region.BodyNameReplaceInDef(oldNames,newNames)] *)
Definition BodyNameReplaceInDef (def : string) (oldNames newNames : list string)
  : string :=
  fold_left (fun d p => Py.replace d (fst p) (snd p)) (zip oldNames newNames) def.

(** The first four loops of [rename] share their frame: the entities are
    visited with their position; one whose name is excepted is left as it is;
    the others get the name made of position plus one, and old and new name
    are noted. *)
Definition rename_step {A : Type} (name : A -> string)
  (skip : string -> bool) (fmt : Z -> string)
  (update : A -> string -> list string * list string -> A)
  (acc : list A * (list string * list string)) (ia : Z * A)
  : list A * (list string * list string) :=
  let '(done, (olds, news)) := acc in
  let '(i, a) := ia in
  if skip (name a) then (done ++ [a], (olds, news))
  else
    let n := fmt (i + 1) in
    (done ++ [update a n (olds ++ [name a], news ++ [n])],
     (olds ++ [name a], news ++ [n])).

Definition rename_all {A : Type} (name : A -> string)
  (skip : string -> bool) (fmt : Z -> string)
  (update : A -> string -> list string * list string -> A) (l : list A)
  : list A * (list string * list string) :=
  fold_left (rename_step name skip fmt update) (Py.enumerate_from 0 l)
            ([], ([], [])).

(** [Geometry.rename(self,newName,lNotify,nDigits,addChar,exceptions)] *)
Definition rename (g : Geometry) (newName : string) (lNotify : bool)
  (nDigits : nat) (addChar : string) (exceptions : option Exceptions)
  : outcome Geometry :=
  let nNameFmt := TailNameInt newName None nDigits addChar in
  let nNameScoFmt := TailNameInt newName (Some 10%nat) (nDigits + 1) addChar in
  let '(bods1, (oldBodyNames, newBodyNames)) :=
    rename_all bName (excepted exceptions exc_bods) nNameFmt
      (fun b n _ =>
         {| bName := n;
            bComment := renamed_comment (bComment b) (bName b) n lNotify;
            bTransf := bTransf b; bShape := bShape b |})
      (bods g) in
  let '(regs1, (oldRegNames, newRegNames)) :=
    rename_all rName (excepted exceptions exc_regs) nNameFmt
      (fun r n _ =>
         {| rName := n;
            rComment := renamed_comment (rComment r) (rName r) n lNotify;
            neigh := neigh r;
            definition :=
              BodyNameReplaceInDef (definition r) oldBodyNames newBodyNames;
            material := material r; rCont := rCont r; rCent := rCent r;
            rMaxLen := rMaxLen r;
            lattice := if isLattice r then Some n else lattice r;
            rTransf := rTransf r |})
      (regs g) in
  let '(tras1, (oldTrasNames, newTrasNames)) :=
    rename_all tName (excepted exceptions exc_tras) nNameFmt
      (fun t n _ =>
         {| tName := n;
            tComment := renamed_comment (tComment t) (tName t) n lNotify;
            ID := ID t; RotDefis := RotDefis t |})
      (tras g) in
  bins1 <-
    mapM (fun ib : Z * Usrbin =>
            let '(iBin, myBin) := ib in
            relinked <-
              (if Usrbin_isLinked myBin then
                 match find_from (fun p : string * string =>
                                    String.eqb (TransfName myBin) (fst p))
                                 0 (zip oldTrasNames newTrasNames) with
                 | Some (_, p) => Ok (Usrbin_assignTrasf myBin (snd p))
                 | None => Exit
                 end
               else Ok myBin) ;;
            if excepted exceptions exc_bins (uName relinked) then Ok relinked
            else
              let n := nNameScoFmt (iBin + 1) in
              Ok {| uName := n;
                    uComment := renamed_comment (uComment relinked)
                                                (uName relinked) n lNotify;
                    uDefinition := uDefinition relinked;
                    TransfName := TransfName relinked |})
         (Py.enumerate_from 0 (bins g)) ;;
  let scos1 :=
    map (fun js : Z * Scoring =>
           let '(iSco, mySco) := js in
           let card := fold_left (fun c p => regNameReplaceInDef (fst p) (snd p) c)
                                 (zip oldRegNames newRegNames) (sCard mySco) in
           if excepted exceptions exc_scos (sName mySco) then
             {| sName := sName mySco; sComment := sComment mySco;
                sKind := sKind mySco; sCard := card |}
           else
             let n := nNameScoFmt (iSco + 1) in
             {| sName := n;
                sComment := renamed_comment (sComment mySco) (sName mySco) n
                                            lNotify;
                sKind := sKind mySco; sCard := card |})
        (Py.enumerate_from 0 (scos g)) in
  bods2 <-
    mapM (fun myBod =>
            match bTransf myBod with
            | Some t =>
                if negb (Py.mem t oldTrasNames) then Exit
                else ii <- py_index newTrasNames
                                    (Z.of_nat (index_in t oldTrasNames)) ;;
                     Ok (Body_link myBod ii)
            | None => Ok myBod
            end) bods1 ;;
  regs2 <-
    mapM (fun myReg =>
            if isLattice myReg then
              match rTransf myReg with
              | Some t =>
                  if negb (Py.mem t oldTrasNames) then Exit
                  else ii <- py_index newTrasNames
                                      (Z.of_nat (index_in t oldTrasNames)) ;;
                       Ok (Region_assignTrasf myReg ii)
              | None => Exit
              end
            else Ok myReg) regs1 ;;
  Ok {| bods := bods2; regs := regs2; tras := tras1; bins := bins1;
        scos := scos1; title := title g |}.

(** [Geometry.headMe(self,myString)]: the highlighted string goes in front of
    the comment of the first body, region, transformation and USRBIN. *)
Definition on_head {A : Type} (f : A -> A) (l : list A) : list A :=
  match l with
  | [] => []
  | a :: l' => f a :: l'
  end.

Definition Geometry_headMe (g : Geometry) (myString : string) : Geometry :=
  let actualString := HighLightComment myString in
  {| bods := on_head (fun b => {| bName := bName b;
                                  bComment := headMe (bComment b) actualString;
                                  bTransf := bTransf b; bShape := bShape b |})
                     (bods g);
     regs := on_head (fun r => Region_headMe r actualString) (regs g);
     tras := on_head (fun t => Transformation_headMe t actualString) (tras g);
     bins := on_head (fun u => {| uName := uName u;
                                  uComment := headMe (uComment u) actualString;
                                  uDefinition := uDefinition u;
                                  TransfName := TransfName u |})
                     (bins g);
     scos := scos g; title := title g |}.

End Gridding.

(** ** The gridded geometry builder: [Geometry.BuildGriddedGeo] *)

Section Builder.
Context {ext : External}.

(** The dictionaries [myProtoGeos] and [protoSeen], keyed by prototype name. *)
Fixpoint dict_get {V : Type} (d : list (string * V)) (k : string) : option V :=
  match d with
  | [] => None
  | (k', v) :: d' => if String.eqb k k' then Some v else dict_get d' k
  end.

Fixpoint dict_set {V : Type} (d : list (string * V)) (k : string) (v : V)
  : list (string * V) :=
  match d with
  | [] => [(k, v)]
  | (k', v') :: d' =>
      if String.eqb k k' then (k, v) :: d' else (k', v') :: dict_set d' k v
  end.

(** [lTrigScoring]: left out, one flag, or one flag per location. *)
Inductive TrigScoring : Type :=
| TrigDefault
| TrigFlag (b : bool)
| TrigList (l : list bool).

(** The body of the loop over the locations of the grid. [protoSeen] is
    consulted in lattice mode only, where it exists. *)
Definition place (myGrid : list Location) (myProtoList : list string)
  (myProtoGeos : list (string * Geometry)) (osRegNames : list string)
  (lLattice : bool) (lTrigScoring : list bool) (lGeoDirs : bool)
  (protoSeen : list (string * Z)) (iLoc : Z) (myLoc : Location)
  : outcome (Geometry * list (string * Z)) :=
  proto <- py_index myProtoList iLoc ;;
  match dict_get myProtoGeos proto with
  | None => Exit
  | Some protoGeo =>
      (* clone prototype *)
      seen <- (if lLattice then
                 match dict_get protoSeen proto with
                 | Some i => Ok i
                 | None => Raise
                 end
               else Ok (-1)) ;;
      '(myGeo, protoSeen1) <-
        (if negb lLattice || (seen =? -1) then
           trig <- py_index lTrigScoring iLoc ;;
           c <- ActualCopy protoGeo trig ;;
           Ok (c, if lLattice then dict_set protoSeen proto iLoc else protoSeen)
         else
           trig <- py_index lTrigScoring iLoc ;;
           c <- LatticeCopy protoGeo trig ;;
           Ok (c, protoSeen)) ;;
      seen1 <- (if lLattice then
                  match dict_get protoSeen1 proto with
                  | Some i => Ok i
                  | None => Raise
                  end
                else Ok iLoc) ;;
      (* move clone to requested location/orientation *)
      moved <-
        (if (0 <? List.length (ANGLE myLoc))%nat then
           g1 <-
             (if lLattice && negb (iLoc =? seen1) then
                protoLoc <- py_index myGrid seen1 ;;
                ga <- solidTrasform myGeo (Some (Vec3_opp (POINT protoLoc)))
                        None None (Axis 3) true lGeoDirs true false
                        "ToFinPos" None ;;
                solidTrasform ga None None
                  (Some (AngleList (map Qopp (rev (ANGLE protoLoc)))))
                  (AxisList (rev (AXIS protoLoc))) true lGeoDirs true false
                  "ToFinPos" None
              else Ok myGeo) ;;
           solidTrasform g1 (Some (POINT myLoc)) None
             (Some (AngleList (ANGLE myLoc))) (AxisList (AXIS myLoc))
             true lGeoDirs false false "ToFinPos" None
         else
           g1 <-
             (if lLattice && negb (iLoc =? seen1) then
                protoLoc <- py_index myGrid iLoc ;;
                ga <- solidTrasform myGeo (Some (Vec3_opp (POINT protoLoc)))
                        None None (Axis 3) true lGeoDirs false false
                        "ToFinPos" None ;;
                solidTrasform ga None (Some (RotMat_inv (MATRIX protoLoc)))
                  None (Axis 3) true lGeoDirs true false "ToFinPos" None
              else Ok myGeo) ;;
           solidTrasform g1 (Some (POINT myLoc)) (Some (MATRIX myLoc)) None
             (Axis 3) true lGeoDirs false false "ToFinPos" None) ;;
      (* flag the regions to be sized by the hive cells *)
      flagged <-
        (if negb lLattice || (iLoc =? seen1)
         then flagRegs moved (inr osRegNames) (-1) (POINT myLoc)
         else flagRegs moved (inr ["LATREG"]) (-1) (POINT myLoc)) ;;
      (* rename the clone *)
      let baseName := "GR" +++ Py.fmt_d_zeros 3 iLoc in
      named <- rename flagged baseName true 2 "_" None ;;
      Ok (Geometry_headMe named
            ("GRID cell # " +++ Py.fmt_d_width 3 iLoc +++ " - family name: "
               +++ baseName +++ " - prototype: " +++ proto +++ Py.LF +++ "* "
               +++ Location_echo (POINT myLoc) (ANGLE myLoc) (AXIS myLoc)
                     (MATRIX myLoc)),
          protoSeen1)
  end.

(** [Geometry.BuildGriddedGeo(myGrid,myProtoList,myProtoGeos,osRegNames,
    lLattice,lTrigScoring,lGeoDirs)]. A [lTrigScoring] that is not a list is
    spread over [range(myGrid)], which Python refuses for a grid. *)
Definition BuildGriddedGeo (myGrid : list Location) (myProtoList : list string)
  (myProtoGeos : list (string * Geometry)) (osRegNames : list string)
  (lLattice : bool) (lTrigScoring : TrigScoring) (lGeoDirs : bool)
  : outcome (list Geometry) :=
  match lTrigScoring with
  | TrigList trig =>
      let protoSeen := if lLattice
                       then map (fun kv => (fst kv, -1)) myProtoGeos else [] in
      r <- fold_left
             (fun acc il =>
                '(myGeos, seen) <- acc ;;
                '(myGeo, seen') <- place myGrid myProtoList myProtoGeos
                                     osRegNames lLattice trig lGeoDirs seen
                                     (fst il) (snd il) ;;
                Ok (myGeos ++ [myGeo], seen'))
             (Py.enumerate_from 0 myGrid) (Ok ([], protoSeen)) ;;
      Ok (fst r)
  | _ => Raise
  end.

End Builder.

(** ** Sample collaborators

    Two instances of the collaborators, to run the embedding on concrete
    decks. A body is held by one reference point, a rotation matrix by its
    angles about the three axes, the card of a scoring by its text. The two
    instances differ in the order in which [list(set(l))] comes out: in the
    order of first occurrence, or in the reverse of it. *)

Definition Vec3_add (a b : Vec3) : Vec3 :=
  let '(x, y, z) := a in
  let '(x', y', z') := b in (Qplus x x', Qplus y y', Qplus z z').

Definition sample_RotMat_new (th : Q) (ax : Z) : list Q :=
  map (fun i => if i =? ax then th else 0%Q) [1; 2; 3].

Definition Sample_with (set_order : list string -> list string) : External :=
  {| shape := Vec3;
     RotMat := list Q;
     Body_rotate := fun _ _ s => s;
     Body_traslate := fun d s => Vec3_add s d;
     RotMat_new := fun th ax _ => sample_RotMat_new th ax;
     RotMat_inv := fun m => map Qopp m;
     GetGimbalAngles := fun m => m;
     Usrbin_move := fun _ d => d;
     scoring_card := string;
     regNameReplaceInDef := fun old new c => Py.replace c old new;
     list_set := set_order;
     HighLightComment := fun s => "* " +++ s;
     TailNameInt := fun newName _ nDigits addChar i =>
                      newName +++ addChar +++ Py.fmt_d_zeros nDigits i;
     rename_note := fun old new => "* NAME CHANGE: FROM " +++ old +++ " TO " +++ new;
     Location_echo := fun _ _ _ _ => "" |}.

Definition Sample : External := Sample_with first_seen.

Definition SampleRev : External :=
  Sample_with (fun l => rev (first_seen l)).

(** ** The preprocessor, in the words of the specification

    "A line is active only if every stack entry is true. [#define NAME] adds
    NAME to a flag set; [#if NAME] pushes [NAME in flagset]; [#elif NAME]
    replaces the top test and tracks whether any branch has matched yet (for
    a later [#else]); [#end] pops one level." The relation below says this
    for one line: from the state before it, to the state after it and to
    whether the line is passed on. *)

Definition is_directive (line : string) : bool :=
  existsb (Py.startswith line) ["#define"; "#if"; "#elif"; "#else"; "#end"].

Definition with_flags (st : PreProc) (flags : list string) : PreProc :=
  {| defineFlags := flags; lReads := lReads st; lElse := lElse st |}.

Definition with_stacks (st : PreProc) (reads elses : list bool) : PreProc :=
  {| defineFlags := defineFlags st; lReads := reads; lElse := elses |}.

Inductive visible_step (st : PreProc) (line : string) : PreProc -> bool -> Prop :=
| vs_define (d name : string) :
    Py.startswith line "#define" = true ->
    Py.split_ws line = [d; name] ->
    visible_step st line
      (with_flags st (if in_dec string_dec name (defineFlags st)
                      then defineFlags st else defineFlags st ++ [name]))
      false
| vs_if (name : string) :
    Py.startswith line "#if" = true ->
    nth_error (Py.split_ws line) 1 = Some name ->
    visible_step st line
      (with_stacks st (lReads st ++ [Py.mem name (defineFlags st)])
                      (lElse st ++ [Py.mem name (defineFlags st)]))
      false
| vs_elif (name : string) (rs es : list bool) (r matched : bool) :
    Py.startswith line "#elif" = true ->
    nth_error (Py.split_ws line) 1 = Some name ->
    lReads st = rs ++ [r] ->
    lElse st = es ++ [matched] ->
    visible_step st line
      (with_stacks st (rs ++ [Py.mem name (defineFlags st)])
                      (es ++ [matched || Py.mem name (defineFlags st)]))
      false
| vs_else (rs es : list bool) (r matched : bool) :
    Py.startswith line "#else" = true ->
    lReads st = rs ++ [r] ->
    lElse st = es ++ [matched] ->
    visible_step st line (with_stacks st (rs ++ [negb matched]) (lElse st)) false
| vs_end (rs es : list bool) (r matched : bool) :
    Py.startswith line "#end" = true ->
    lReads st = rs ++ [r] ->
    lElse st = es ++ [matched] ->
    visible_step st line (with_stacks st rs es) false
| vs_text (go : bool) :
    is_directive line = false ->
    (go = true <-> Forall (fun b => b = true) (lReads st)) ->
    visible_step st line st go.

(** ** Merging regions, in the words of the specification *)

(** The zones of a definition: the pieces between the bars, without the
    blanks around them, each with its position counted from one; a piece
    that holds blanks only is no zone. *)
Definition zones_from (start : Z) (pieces : list string) : list (Z * string) :=
  filter (fun iz => Py.nonempty (snd iz))
         (map (fun iz => (fst iz, Py.strip (snd iz)))
              (Py.enumerate_from start pieces)).

Definition zones (def : string) : list (Z * string) :=
  zones_from 1 (Py.split_on "|" def).

(** "Cross-product every non-empty zone of the absorbed region against every
    non-empty zone of the surviving region": the zones of the surviving
    region in order, each of them with the zones of the absorbed region in
    order; a zone of the result is the two zones with a blank in between. *)
Definition zone_product (mine theirs : list (Z * string))
  : list (Z * Z * string) :=
  flat_map (fun iz => map (fun jz => (fst iz, fst jz, snd iz +++ " " +++ snd jz))
                          theirs)
           mine.

(** The text of a definition that lists the given zones: a zone is written
    after a bar; every zone but the first starts a new line, indented, below
    a comment line that tells where the zone comes from. *)
Definition zone_entry (z : string) : string := "| " +++ z.

Definition later_entry (spacing newName myName : string) (e : Z * Z * string)
  : string :=
  let '(ii, jj, z) := e in
  Py.LF +++ merge_comment newName jj myName ii +++ Py.LF +++ spacing
    +++ zone_entry z.

Definition listing (spacing newName myName : string)
  (entries : list (Z * Z * string)) : string :=
  match entries with
  | [] => ""
  | (_, _, z) :: rest =>
      zone_entry z
        +++ String.concat "" (map (later_entry spacing newName myName) rest)
  end.

(** The inner loop, seen from the zones it accepts. *)
Definition entry_step (spacing newName myName : string) (acc : MergeAcc)
  (e : Z * Z * string) : MergeAcc :=
  let '(ii, jj, z) := e in
  if lFirst acc then
    {| accComment := tailMe (accComment acc) (merge_comment newName jj myName ii);
       mergedDef := zone_entry z; lFirst := false |}
  else
    {| accComment := accComment acc;
       mergedDef := mergedDef acc +++ later_entry spacing newName myName e;
       lFirst := false |}.

(** Two regions to merge. *)
Definition region_R1 : Region :=
  Region_set_def (Region_new "R1") "+A -B | +C" 5%Q.

Definition region_R2 : Region :=
  Region_set_def (Region_new "R2") "| +X |   | +Y" 3%Q.

(** ** Mapping by flags, in the words of the specification *)

Section FlagMapping.
Context {ext : External}.

(** The positions of the regions that are flagged as containers (+1) and
    as to be contained (-1). *)
Definition containers (g : Geometry) : list Z :=
  indices_where (fun r => rCont r =? 1) (regs g).

Definition contained (g : Geometry) : list Z :=
  indices_where (fun r => rCont r =? -1) (regs g).

(** The call returns the two geometries, each as a list of one, with the
    pairs [(hg[k], gg[k])] of container and contained region, all of them in
    the geometry at position 0 of its list. *)
Definition maps_to (CtainGeo CinedGeo : Geometry) (mapType : string)
  (hg gg : list Z) : Prop :=
  MapContRegs CtainGeo CinedGeo
  = Ok ([CtainGeo], [CinedGeo],
        {| iRhg := hg; jRhg := map (fun _ => 0) hg;
           iRgg := gg; jRgg := map (fun _ => 0) gg |},
        mapType).

(** The mapping as the claim puts it, for [m] containers and [n] regions to
    be contained: fatal for [m>1] and [n>1]; "oneGrid" with [m] pairs for
    [n==1]; "oneHive" with [n] pairs for [m==1]. *)
Definition flag_mapping_as_stated (CtainGeo CinedGeo : Geometry) : Prop :=
  let m := List.length (containers CtainGeo) in
  let n := List.length (contained CinedGeo) in
  ((1 < m)%nat /\ (1 < n)%nat -> MapContRegs CtainGeo CinedGeo = Exit)
  /\ (n = 1%nat ->
      exists j, contained CinedGeo = [j]
                /\ maps_to CtainGeo CinedGeo "oneGrid"
                           (containers CtainGeo) (repeat j m))
  /\ (m = 1%nat ->
      exists i, containers CtainGeo = [i]
                /\ maps_to CtainGeo CinedGeo "oneHive"
                           (repeat i n) (contained CinedGeo)).

(** A geometry that holds regions only, each with its flag. *)
Definition flagged_region (name : string) (cont : Z) : Region :=
  initCont (Region_new name) cont Vec3_zero 0%Q.

Definition geometry_of_regions (rs : list Region) : Geometry :=
  set_regs Geometry_new rs.

End FlagMapping.

Definition three_containers : @Geometry Sample :=
  geometry_of_regions
    [flagged_region "OUT" 0; flagged_region "H1" 1; flagged_region "H2" 1;
     flagged_region "H3" 1].

Definition one_container : @Geometry Sample :=
  geometry_of_regions [flagged_region "OUT" 0; flagged_region "H1" 1].

Definition three_contained : @Geometry Sample :=
  geometry_of_regions
    [flagged_region "G1" (-1); flagged_region "G2" (-1);
     flagged_region "IN" 0; flagged_region "G3" (-1)].

Definition one_contained : @Geometry Sample :=
  geometry_of_regions [flagged_region "IN" 0; flagged_region "G1" (-1)].

(** ** The query engine, in the words of the specification *)

Section Lookups.
Context {ext : External}.

(** The selectors of the collections, "bodies, regions, transformations,
    scoring families", and those of the relations "transform linked to a
    body/lattice-region/mesh". *)
Definition is_collection (sel : Selector) : bool :=
  match sel with
  | SBod | SLat | SReg | STransf | SBin | SSco
  | SUsryield | SUsrbdx | SUsrtrack | SUsrcoll => true
  | _ => false
  end.

Definition is_link (sel : Selector) : bool :=
  match sel with
  | STransfLinkedToBody | STransfLinkedToLat | STransfLinkedToUsrbin => true
  | _ => false
  end.

(** The collection in which a selector looks, in insertion order; for a
    relation, the collection of the owners of the links. *)
Definition entities (g : Geometry) (sel : Selector) : list Entity :=
  match sel with
  | SBod | STransfLinkedToBody => map EBody (bods g)
  | SLat | SReg | STransfLinkedToLat => map ERegion (regs g)
  | STransf => map ETransformation (tras g)
  | SBin | STransfLinkedToUsrbin => map EUsrbin (bins g)
  | SSco | SUsryield | SUsrbdx | SUsrtrack | SUsrcoll => map EScoring (scos g)
  | _ => []
  end.

(** "Name lookups are exact-match": what it takes for an entity to match
    the name under a selector. A lattice is looked up by the name of the
    lattice, a scoring family by name and kind of card. *)
Definition matches (sel : Selector) (name : string) (e : Entity) : bool :=
  match sel, e with
  | (SBod | STransfLinkedToBody), EBody b => String.eqb (bName b) name
  | (SLat | STransfLinkedToLat), ERegion r => opt_eqb (lattice r) name
  | SReg, ERegion r => String.eqb (rName r) name
  | STransf, ETransformation t => String.eqb (tName t) name
  | (SBin | STransfLinkedToUsrbin), EUsrbin u => String.eqb (uName u) name
  | SSco, EScoring s => String.eqb (sName s) name
  | SUsryield, EScoring s =>
      String.eqb (sName s) name && ScoKind_eqb (sKind s) Usryield
  | SUsrbdx, EScoring s =>
      String.eqb (sName s) name && ScoKind_eqb (sKind s) Usrbdx
  | SUsrtrack, EScoring s =>
      String.eqb (sName s) name && ScoKind_eqb (sKind s) Usrtrack
  | SUsrcoll, EScoring s =>
      String.eqb (sName s) name && ScoKind_eqb (sKind s) Usrcoll
  | _, _ => false
  end.

(** No entity matches the name. *)
Definition unmatched (g : Geometry) (sel : Selector) (name : string) : Prop :=
  forall e, In e (entities g sel) -> matches sel name e = false.

(** The entity at position [i] is the first one that matches the name. *)
Definition first_match (g : Geometry) (sel : Selector) (name : string)
  (i : nat) (e : Entity) : Prop :=
  nth_error (entities g sel) i = Some e
  /\ matches sel name e = true
  /\ forall j e', (j < i)%nat -> nth_error (entities g sel) j = Some e' ->
                  matches sel name e' = false.

(** The lookup of one name as the claim puts it: for every selector but the
    one that takes a unit number, a name that matches nothing yields the
    sentinel [(None,-1)]. *)
Definition sentinel_as_stated (g : Geometry) : Prop :=
  forall myKey sel name,
    selector_of myKey = Some sel ->
    is_collection sel = true \/ is_link sel = true ->
    is_ALL name = false ->
    unmatched g sel name ->
    ret g myKey name = Ok RNone.

(** The names of the transformations in use by the owners of a relation. *)
Definition links (g : Geometry) (sel : Selector) : list string :=
  match sel with
  | STransfLinkedToBody => linked_names bTransf (bods g)
  | STransfLinkedToLat => linked_names lattice_link (regs g)
  | STransfLinkedToUsrbin => linked_names Usrbin_link (bins g)
  | _ => []
  end.

(** What Python promises of [list(set(l))]: every element of [l], once. *)
Definition set_order_ok : Prop :=
  forall l, NoDup (list_set l) /\ forall x, In x (list_set l) <-> In x l.

(** The relation with "ALL" as the claim puts it: the names in use, each
    once, "preserving first-seen order". *)
Definition link_names_as_stated (g : Geometry) (myKey : string) : Prop :=
  forall sel, selector_of myKey = Some sel -> is_link sel = true ->
              exists idx,
                ret g myKey "ALL" = Ok (RRel (first_seen (links g sel)) idx).

(** The index that belongs to the name of a transformation: the position of
    the first transformation of this name, -1 when there is none; for a name
    that reads "ALL", the positions of all transformations. *)
Inductive indexes (g : Geometry) (name : string) : Index -> Prop :=
| indexes_first (k : nat) (t : Transformation) :
    is_ALL name = false ->
    first_match g STransf name k (ETransformation t) ->
    indexes g name (IOne (Z.of_nat k))
| indexes_none :
    is_ALL name = false ->
    unmatched g STransf name ->
    indexes g name (IOne (-1))
| indexes_all :
    is_ALL name = true ->
    indexes g name (IMany (Py.range (List.length (tras g)))).

(** The selector of a family of region-based scoring cards. *)
Definition scoring_selector (k : ScoKind) : Selector :=
  match k with
  | Usryield => SUsryield
  | Usrbdx => SUsrbdx
  | Usrtrack => SUsrtrack
  | Usrcoll => SUsrcoll
  end.

End Lookups.

(** A geometry with two bodies under two geometry directives, and one with
    scoring cards of two kinds. *)
Definition two_directives (ext : External) (s : shape) : Geometry :=
  {| bods := [ {| bName := "B1"; bComment := ""; bTransf := Some "T1";
                  bShape := s |};
               {| bName := "B2"; bComment := ""; bTransf := Some "T2";
                  bShape := s |} ];
     regs := [];
     tras := [Transformation_new 1 "T1"; Transformation_new 2 "T2"];
     bins := []; scos := []; title := "" |}.

Definition two_kinds : @Geometry Sample :=
  @mkGeometry Sample [] [] [] []
    [ @mkScoring Sample "bdx1" "" Usrbdx "";
      @mkScoring Sample "yield1" "" Usryield "";
      @mkScoring Sample "trk1" "" Usrtrack "" ] "".

(** ** The transform composer, in the words of the specification *)

Section Cards.
Context {ext : External}.

(** "A zero translation plus zero-degree rotation leaves all entity state
    bit-identical." *)
Definition zero_transform_as_stated (g : Geometry) : Prop :=
  solidTrasform g (Some Vec3_zero) None (Some (Angle 0%Q)) (Axis 3)
                true false false false "ToFinPos" None = Ok g.

(** No region is a lattice; no owner of a kind is linked. *)
Definition no_lattice (g : Geometry) : Prop :=
  forall r, In r (regs g) -> lattice r = None.

Definition bodies_unlinked (g : Geometry) : Prop :=
  forall b, In b (bods g) -> bTransf b = None.

Definition no_transformation (g : Geometry) (name : string) : Prop :=
  forall t, In t (tras g) -> tName t <> name.

End Cards.

(** Bodies B1 and B2 with the region R1 that refers to both, and a geometry
    that holds one USRBIN without transformation. *)
Definition bodies_B1_B2 : @Geometry Sample :=
  @mkGeometry Sample
    [ @mkBody Sample "B1" "" None (0, 0, 0)%Q;
      @mkBody Sample "B2" "" None (1, 0, 0)%Q ]
    [ Region_set_def (Region_new "R1") "+B1 -B2" 5%Q ] [] [] [] "two bodies".

Definition one_usrbin : @Geometry Sample :=
  @mkGeometry Sample [] [] []
    [ {| uName := "dose"; uComment := ""; uDefinition := ["a"; "b"];
         TransfName := "" |} ] [] "one mesh".

(** ** The gridded geometry builder, in the words of the specification *)

(** The translation that a card of translation steps amounts to. *)
Definition net_translation (steps : list RotDefi) : Vec3 :=
  fold_left (fun v s => match myDD s with
                        | Some d => Vec3_add v d
                        | None => v
                        end)
            steps Vec3_zero.

(** Placements without rotation: given by the matrix of the identity, whose
    angles about the three axes are zero, or by the angle zero about axis
    3. *)
Definition matrix_placement (p : Vec3) : @Location Sample :=
  @mkLocation Sample p [] [] [0; 0; 0]%Q.

Definition angle_placement (p : Vec3) : @Location Sample :=
  @mkLocation Sample p [0%Q] [3] [0; 0; 0]%Q.

(** "Two placements of the same prototype under lattice mode, second point
    offset (5,0,0) from the first." *)
Definition two_placements (placement : Vec3 -> @Location Sample)
  : outcome (list (@Geometry Sample)) :=
  BuildGriddedGeo [placement (1, 0, 0)%Q; placement (6, 0, 0)%Q] ["P"; "P"]
                  [("P", bodies_B1_B2)] [] true (TrigList [true; true]) false.

(** What the builder returns for the two kinds of placements. *)
Definition angle_result : outcome (list (@Geometry Sample)) :=
  Eval vm_compute in two_placements angle_placement.

Definition matrix_result : outcome (list (@Geometry Sample)) :=
  Eval vm_compute in two_placements matrix_placement.

(** ** The preprocessor over a whole deck *)

(** The state that the loop of [Geometry.fromInp] has reached after the
    given lines. *)
Fixpoint preproc_state (st : PreProc) (lines : list string) : outcome PreProc :=
  match lines with
  | [] => Ok st
  | l :: rest =>
      '(st', _) <- preproc_line st l ;;
      preproc_state st' rest
  end.

(** What the loop keeps true of its state: [lReads] holds [True] at the
    bottom and one entry per open block above it, [lElse] one entry per open
    block, and no name is held twice in [defineFlags]. *)
Definition stacks_ok (st : PreProc) : Prop :=
  (exists rs, lReads st = true :: rs
              /\ List.length rs = List.length (lElse st))
  /\ NoDup (defineFlags st).

(** A block of three branches: [#if A], [#elif B], [#else], [#end], with the
    lines of the branches in between. *)
Definition three_branches (l_if l_elif l_else l_end : string)
  (xs ys zs : list string) : list string :=
  [l_if] ++ xs ++ [l_elif] ++ ys ++ [l_else] ++ zs ++ [l_end].

(** ** Insertion and lookup *)

Section Insertion.
Context {ext : External}.

(** The collection that an entity belongs to, by the keyword that [add] and
    [ret] both understand, and the name under which [ret] finds it. *)
Definition collection_key (e : Entity) : string :=
  match e with
  | EBody _ => "BODY"
  | ERegion _ => "REG"
  | ETransformation _ => "TRANSF"
  | EUsrbin _ => "USRBIN"
  | EScoring _ => "SCORING"
  end.

Definition collection_selector (e : Entity) : Selector :=
  match e with
  | EBody _ => SBod
  | ERegion _ => SReg
  | ETransformation _ => STransf
  | EUsrbin _ => SBin
  | EScoring _ => SSco
  end.

Definition entity_name (e : Entity) : string :=
  match e with
  | EBody b => bName b
  | ERegion r => rName r
  | ETransformation t => tName t
  | EUsrbin u => uName u
  | EScoring s => sName s
  end.

End Insertion.

(** ** Zones of a region ([region.py]) *)

(** [c in s] for a character. *)
Fixpoint contains_char (c : ascii) (s : string) : bool :=
  match s with
  | EmptyString => false
  | String c' s' => Ascii.eqb c' c || contains_char c s'
  end.

(** [Region.addZone(self,myDef,nSpace=16)] *)
Definition addZone (r : Region) (myDef : string) (nSpace : Z) : Region :=
  Region_set_def r
    (if Py.nonempty (definition r) then
       (if negb (contains_char "|" (definition r))
        then "| " +++ definition r else definition r)
         +++ Py.LF +++ Py.repeat_char " " (Z.to_nat nSpace) +++ "| " +++ myDef
     else myDef)
    (neigh r).

(** The characters of a name. *)
Definition chars (s : string) : list ascii := list_ascii_of_string s.

(** A character that separates names in a definition: a blank or one of the
    operators [|], [+] and [-]. *)
Definition is_separator (c : ascii) : bool :=
  Py.is_space c || Ascii.eqb c "|" || Ascii.eqb c "+" || Ascii.eqb c "-".

(** A text of blanks only. *)
Definition blanks (w : string) : Prop :=
  forall c, In c (chars w) -> Py.is_space c = true.

(** ** Assigning materials: [Geometry.AssignMaterial] *)

(** [list(range(start,stop,step))]; a step of zero is refused. *)
Definition py_range3 (start stop step : Z) : outcome (list Z) :=
  if step =? 0 then Raise
  else
    let n := if 0 <? step then (stop - start + step - 1) / step
             else (start - stop - step - 1) / (- step) in
    Ok (map (fun k => start + Z.of_nat k * step) (seq 0 (Z.to_nat n))).

(** [regs[iEntry].assignMat(myMatName)], with Python's reading of a negative
    index. *)
Definition assignMat_at (rs : list Region) (iEntry : Z) (myMatName : string)
  : outcome (list Region) :=
  r <- py_index rs iEntry ;;
  let j := if iEntry <? 0 then iEntry + Z.of_nat (List.length rs) else iEntry in
  Ok (replace_nth (Z.to_nat j) (Region_set_material r myMatName) rs).

Section Materials.
Context {ext : External}.

(** The second component of a lookup, used as a number. *)
Definition index_number (r : Ret) : outcome Z :=
  match r with
  | RNone => Ok (-1)
  | ROne _ i => Ok i
  | _ => Raise
  end.

(** [Geometry.AssignMaterial(self,myMatName,myFirstRegName,myLastRegName,
    iStep)] *)
Definition AssignMaterial (g : Geometry) (myMatName myFirstRegName : string)
  (myLastRegName : option string) (iStep : Z) : outcome Geometry :=
  r1 <- ret g "REG" myFirstRegName ;;
  r2 <- match myLastRegName with
        | Some n => ret g "REG" n
        | None => Ok r1
        end ;;
  iFirst <- index_number r1 ;;
  iLast <- index_number r2 ;;
  idx <- py_range3 iFirst (iLast + 1) iStep ;;
  rs <- fold_left (fun acc iEntry => rs <- acc ;; assignMat_at rs iEntry myMatName)
                  idx (Ok (regs g)) ;;
  Ok (set_regs g rs).

End Materials.

(** ** Appending and merging geometries *)

(** [l.pop(i)], keeping the shortened list only. *)
Definition py_pop_at {A : Type} (l : list A) (i : Z) : outcome (list A) :=
  let n := Z.of_nat (List.length l) in
  let j := if i <? 0 then i + n else i in
  if (j <? 0) || (n <=? j) then Raise
  else Ok (firstn (Z.to_nat j) l ++ skipn (S (Z.to_nat j)) l).

Section Merging.
Context {ext : External}.

(** [for ii,myTras in enumerate(myGeo.tras,1): myTras.ID=ii+len(new.tras)] *)
Definition renumber (n : nat) (l : list Transformation) : list Transformation :=
  map (fun it : Z * Transformation =>
         {| tName := tName (snd it); tComment := tComment (snd it);
            ID := fst it + Z.of_nat n; RotDefis := RotDefis (snd it) |})
      (Py.enumerate_from 1 l).

(** [Geometry.appendGeometries(myGeos,myTitle)]: [append_one] is the body of
    the loop over [myGeos[1:]]. The geometries of the list are separate
    objects, as the callers in the sources build them: the new numbers are
    written into the transformations of the geometries handed over, which
    the new geometry then holds. *)
Definition append_one (new myGeo : Geometry) : Geometry :=
  {| bods := bods new ++ bods myGeo;
     regs := regs new ++ regs myGeo;
     tras := tras new ++ renumber (List.length (tras new)) (tras myGeo);
     bins := bins new ++ bins myGeo;
     scos := scos new ++ scos myGeo;
     title := title new |}.

Definition appendGeometries (myGeos : list Geometry) (myTitle : option string)
  : outcome Geometry :=
  match myGeos with
  | [] => Raise
  | first :: others =>
      Ok (set_title (fold_left append_one others first)
                    (match myTitle with
                     | Some t => t
                     | None => "appended geometries"
                     end))
  end.

(** [zip(mapping["iRhg"],mapping["jRhg"],mapping["iRgg"],mapping["jRgg"])] *)
Definition zip_mapping (m : Mapping) : list (Z * Z * Z * Z) :=
  map (fun p => (fst (fst (fst p)), snd (fst (fst p)), snd (fst p), snd p))
      (zip (zip (zip (iRhg m) (jRhg m)) (iRgg m)) (jRgg m)).

(** [geos[j].regs[i]] *)
Definition region_at (geos : list Geometry) (j i : Z) : outcome Region :=
  g <- py_index geos j ;; py_index (regs g) i.

(** [geos[j]=g] at a position that has been read. *)
Definition set_geo (geos : list Geometry) (j : Z) (g : Geometry) : list Geometry :=
  replace_nth (Z.to_nat (if j <? 0 then j + Z.of_nat (List.length geos) else j))
              g geos.

(** [geos[j].regs[i].merge(newReg)] *)
Definition merge_at (geos : list Geometry) (j i : Z) (newReg : Region)
  : outcome (list Geometry) :=
  g <- py_index geos j ;;
  r <- py_index (regs g) i ;;
  let k := if i <? 0 then i + Z.of_nat (List.length (regs g)) else i in
  Ok (set_geo geos j
        (set_regs g (replace_nth (Z.to_nat k) (merge r newReg merge_spacing)
                                 (regs g)))).

(** [myReg,iReg=geos[j].ret("REG",removeReg); geos[j].regs.pop(iReg)] *)
Definition remove_region (geos : list Geometry) (removeReg : string) (j : Z)
  : outcome (list Geometry) :=
  g <- py_index geos j ;;
  r <- ret g "REG" removeReg ;;
  iReg <- index_number r ;;
  rs <- py_pop_at (regs g) iReg ;;
  Ok (set_geo geos j (set_regs g rs)).

(** [Geometry.MergeGeos(hiveGeo,gridGeo,mapping,mapType,myTitle)]. With
    "oneHive" the regions are merged by [merge(..,lCopyComment=lFirst)];
    [Region.merge] of the sources takes no argument of this name, and Python
    refuses the call. *)
Definition MergeGeos (hiveGeo gridGeo : list Geometry) (mapping : Mapping)
  (mapType : string) (myTitle : option string) : outcome Geometry :=
  if String.eqb mapType "oneHive" then
    match zip_mapping mapping with
    | [] => appendGeometries (hiveGeo ++ gridGeo) myTitle
    | _ :: _ => Raise
    end
  else if String.eqb mapType "oneGrid" then
    '(hive, removeRegs, jRemoveRegs) <-
      fold_left
        (fun acc m =>
           '(hive, removeRegs, jRemoveRegs) <- acc ;;
           let '(iRhg, jRhg, iRgg, jRgg) := m in
           newReg <- region_at gridGeo jRgg iRgg ;;
           hive' <- merge_at hive jRhg iRhg newReg ;;
           Ok (if Py.mem (rName newReg) removeRegs
               then (hive', removeRegs, jRemoveRegs)
               else (hive', removeRegs ++ [rName newReg], jRemoveRegs ++ [jRgg])))
        (zip_mapping mapping) (Ok (hiveGeo, [], [])) ;;
    grid <- fold_left
              (fun acc p => grid <- acc ;; remove_region grid (fst p) (snd p))
              (zip removeRegs jRemoveRegs) (Ok gridGeo) ;;
    appendGeometries (hive ++ grid) myTitle
  else Exit.

(** The loops of [insertGeoInGeo] over the names of the regions: a region
    that is found gets the flag, a name that is not found ends the run. *)
Definition flag_named (g : Geometry) (names : list string) (cont : Z)
  : outcome Geometry :=
  fold_left
    (fun acc myName =>
       g' <- acc ;;
       r <- ret g' "Reg" myName ;;
       match r with
       | RNone => Exit
       | ROne (ERegion myReg) iReg =>
           Ok (set_regs g' (replace_nth (Z.to_nat iReg)
                                        (initCont myReg cont Vec3_zero 0%Q)
                                        (regs g')))
       | _ => Raise
       end)
    names (Ok g).

(** One name or a list of names. *)
Definition names_given (n : string + list string) : list string :=
  match n with
  | inl name => [name]
  | inr names => names
  end.

(** [Geometry.insertGeoInGeo(self,geoToInsert,extName,regName)] *)
Definition insertGeoInGeo (self geoToInsert : Geometry)
  (extName regName : string + list string) : outcome Geometry :=
  geoToInsert' <- flag_named geoToInsert (names_given extName) (-1) ;;
  self' <- flag_named self (names_given regName) 1 ;;
  '(HiveGeo, GridGeo, mapping, mapType) <- MapContRegs self' geoToInsert' ;;
  MergeGeos HiveGeo GridGeo mapping mapType None.

End Merging.

(** ** Transformations in use *)

Section Sharing.
Context {ext : External}.

(** [Geometry.checkTransformations(self)]: the flag [lShared]. *)
Definition checkTransformations (g : Geometry) : outcome bool :=
  r1 <- ret g "TRANSFLINKEDTOBODY" "ALL" ;;
  bodTrasfNames <- names_of r1 ;;
  r2 <- ret g "TRANSFLINKEDTOLAT" "ALL" ;;
  latTrasfNames <- names_of r2 ;;
  r3 <- ret g "TRANSFLINKEDTOUSRBIN" "ALL" ;;
  binTrasfNames <- names_of r3 ;;
  Ok (existsb (fun bodTrasfName => Py.mem bodTrasfName latTrasfNames)
              bodTrasfNames
      || existsb (fun latTrasfName => Py.mem latTrasfName binTrasfNames)
                 latTrasfNames
      || existsb (fun binTrasfName => Py.mem binTrasfName bodTrasfNames)
                 binTrasfNames).

(** A name that is in use as the transformation of owners of two kinds. *)
Definition shared_name (g : Geometry) (n : string) : Prop :=
  (In n (links g STransfLinkedToBody) /\ In n (links g STransfLinkedToLat))
  \/ (In n (links g STransfLinkedToLat) /\ In n (links g STransfLinkedToUsrbin))
  \/ (In n (links g STransfLinkedToUsrbin) /\ In n (links g STransfLinkedToBody)).

End Sharing.

(** ** Renaming, seen from one entity *)

(** What [rename] does to the entity at one position of a collection: one
    whose name is excepted stays as it is; any other one is updated with the
    name made of its position plus one. *)
Definition renamed_at {A : Type} (name : A -> string) (skip : string -> bool)
  (fmt : Z -> string) (update : A -> string -> list string * list string -> A)
  (ia : Z * A) (a' : A) : Prop :=
  if skip (name (snd ia)) then a' = snd ia
  else exists acc, a' = update (snd ia) (fmt (fst ia + 1)) acc.

(** ** The transform composer on bodies and meshes *)

Section Baking.
Context {ext : External}.

(** The rotation that one call of [solidTrasform] applies to the bodies: the
    matrix given, or the matrix of the angle about the axis when no matrix
    is given and the angle is not zero. *)
Definition rotation_applied (myMat : option RotMat) (myTheta : option Q)
  (myAxis : Z) (lDegs : bool) : option RotMat :=
  match myMat, myTheta with
  | Some m, _ => Some m
  | None, Some th => if nonzero th then Some (RotMat_new th myAxis lDegs) else None
  | None, None => None
  end.

(** A shape after the rotation, if any, and then the translation. *)
Definition rotated_then_moved (rot : option RotMat) (lDegs : bool) (dd : Vec3)
  (s : shape) : shape :=
  Body_traslate dd (match rot with
                    | Some m => Body_rotate m lDegs s
                    | None => s
                    end).

End Baking.

(** ** USRBIN cards as text ([scorings.py]) *)

(** [s[a:b]] for [0 <= a <= b], and [s[a:]]. *)
Definition slice (a b : nat) (s : string) : string := substring a (b - a) s.

(** ["%-10s" % s] and ["%10s" % s], for any width. *)
Definition ljust (width : nat) (s : string) : string :=
  s +++ Py.repeat_char " " (width - String.length s).

Definition rjust (width : nat) (s : string) : string :=
  Py.repeat_char " " (width - String.length s) +++ s.

(** [Usrbin()] *)
Definition Usrbin_new : Usrbin :=
  {| uName := ""; uComment := ""; uDefinition := []; TransfName := "" |}.

(** The body of the loop of [Usrbin.fromBuf] over the lines of the buffer.
    [GeoObject.tailMe] and [GeoObject.rename] are the ones modelled above. *)
Definition fromBuf_line (acc : outcome Usrbin) (line : string) : outcome Usrbin :=
  newUsrBin <- acc ;;
  let myLine := Py.strip line in
  if Py.startswith myLine "*" then
    Ok {| uName := uName newUsrBin;
          uComment := tailMe (uComment newUsrBin) myLine;
          uDefinition := uDefinition newUsrBin;
          TransfName := TransfName newUsrBin |}
  else if Py.startswith myLine "ROTPRBIN" then
    let u := Usrbin_assignTrasf newUsrBin (Py.strip (slice 20 30 myLine)) in
    if (String.length (TransfName u) =? 0)%nat then Exit else Ok u
  else
    let defs := uDefinition newUsrBin ++ [slice 10 70 myLine] in
    Ok {| uName := if (List.length defs =? 1)%nat
                   then Py.strip (Py.drop 70 myLine) else uName newUsrBin;
          uComment := uComment newUsrBin;
          uDefinition := defs;
          TransfName := TransfName newUsrBin |}.

(** [Usrbin.fromBuf(myBuffer)] *)
Definition Usrbin_fromBuf (myBuffer : string) : outcome Usrbin :=
  newUsrBin <- fold_left fromBuf_line (Py.split_on (ascii_of_nat 10) myBuffer)
                         (Ok Usrbin_new) ;;
  if negb (List.length (uDefinition newUsrBin) =? 2)%nat then Exit
  else if (String.length (uName newUsrBin) =? 0)%nat then Exit
  else Ok newUsrBin.

(** ["%-10s%10s%10s%10s%10s" % ("ROTPRBIN","",trasf,"",name)] and
    ["%-10s%60s%-10s" % ("USRBIN",myDef,mySdum)] *)
Definition rotprbin_card (trasf name : string) : string :=
  ljust 10 "ROTPRBIN" +++ rjust 10 "" +++ rjust 10 trasf +++ rjust 10 ""
    +++ rjust 10 name.

Definition usrbin_card (myDef mySdum : string) : string :=
  ljust 10 "USRBIN" +++ rjust 60 myDef +++ ljust 10 mySdum.

(** [Usrbin.echo(self)]. [GeoObject.echoComm] is not in the sources: its
    result is handed over as [comm]; [echoName] gives the name. *)
Definition Usrbin_echo (comm : string) (u : Usrbin) : string :=
  let tmpBuf :=
    if (0 <? String.length (TransfName u))%nat
    then comm +++ rotprbin_card (TransfName u) (uName u) +++ Py.LF
    else comm in
  fold_left
    (fun buf p =>
       let '(myDef, mySdum, myEoL) := p in
       buf +++ usrbin_card myDef mySdum +++ myEoL)
    (zip (zip (uDefinition u) [uName u; "&"]) [Py.LF; ""])
    tmpBuf.

(** The lines of a buffer that are cards of the USRBIN itself: neither
    comments nor ROTPRBIN cards. *)
Definition is_card_line (line : string) : bool :=
  negb (Py.startswith (Py.strip line) "*")
  && negb (Py.startswith (Py.strip line) "ROTPRBIN").

(** A text without blank of any kind, and a text that does not end in a
    blank. *)
Definition solid (s : string) : Prop :=
  forall c, In c (chars s) -> Py.is_space c = false.

Definition ends_solid (s : string) : Prop :=
  exists p c, s = p +++ String c "" /\ Py.is_space c = false.

Section Cells.
Context {ext : External}.

(** One turn of the loop of [BuildGriddedGeo] that gives a cell. *)
Definition cell_of (myProtoList : list string)
  (myProtoGeos : list (string * Geometry)) (lTrigScoring : list bool)
  (il : Z * Location) (geo : Geometry) : Prop :=
  (exists p pg trig,
      py_index myProtoList (fst il) = Ok p
      /\ dict_get myProtoGeos p = Some pg
      /\ py_index lTrigScoring (fst il) = Ok trig)
  /\ let fmt := TailNameInt ("GR" +++ Py.fmt_d_zeros 3 (fst il)) None 2 "_" in
     map bName (bods geo)
     = map (fun k => fmt (k + 1)) (Py.range (List.length (bods geo)))
     /\ map rName (regs geo)
        = map (fun k => fmt (k + 1)) (Py.range (List.length (regs geo))).

End Cells.

(** The two cells that the builder returns for two placements by
    matrices. *)
Definition two_cells : list (@Geometry Sample) :=
  Eval vm_compute in
    match two_placements matrix_placement with
    | Ok geos => geos
    | _ => []
    end.

(** ** The zones of a definition, comment lines apart *)

(** A definition may hold comment lines between the lines of its zones
    (class [Region]: "support only for preceding comments or commented lines
    between region definition lines"); [Region.retBodiesInDef] leaves out the
    lines that start with [*] ("comment line"). The lines of a definition
    that are no comment lines, the definition made of them, and its zones:
    the union terms of the expression of the region. *)
Definition code_lines (def : string) : list string :=
  filter (fun myLine => negb (Py.startswith myLine "*")) (splitlines def).

Definition expression (def : string) : string :=
  String.concat Py.LF (code_lines def).

Definition zone_terms (def : string) : list string :=
  map (fun iz => snd iz) (zones (expression def)).

(** A third region, with one zone, to merge into the first after the
    second. *)
Definition region_R3 : Region :=
  Region_set_def (Region_new "R3") "+Z" 2%Q.

(** ** The card of the bodies, in the words of the specification *)

Section CardOfBodies.
Context {ext : External}.

(** The card of a body under a geometry directive: the first transformation
    that has the name that the body is linked to. *)
Definition card_of_body (g : Geometry) (b : Body) (t : Transformation) : Prop :=
  exists n i, bTransf b = Some n
              /\ first_match g STransf n i (ETransformation t).

(** "For every geometry transformed by solidTrasform with a 90-degree
    rotation about axis 2 followed by translation (0,0,10) in
    external-transform (geometry-directive) mode, the recorded external
    transform card holds exactly two steps in this order: first a
    translation step equal to (0,0,-10), then a rotation step of -90 degrees
    about axis 2": whenever the call returns, the card of every body holds
    these two steps and no other. *)
Definition card_as_stated (g : Geometry) : Prop :=
  forall g',
    solidTrasform g (Some (0, 0, 10)%Q) None (Some (Angle 90%Q)) (Axis 2)
                  true true false false "ToFinPos" None = Ok g' ->
    forall b, In b (bods g') ->
              exists t, card_of_body g' b t
                        /\ RotDefis t = [translation_step (0, 0, -10)%Q;
                                         rotation_step 2 (-90)%Q].

(** The transformations of a name. *)
Definition named (name : string) (t : Transformation) : bool :=
  String.eqb (tName t) name.

(** A name that is not in use: no transformation has it, and no lattice
    region and no USRBIN is linked to it. *)
Definition name_free (g : Geometry) (name : string) : Prop :=
  no_transformation g name
  /\ (forall r, In r (regs g) -> isLattice r = true -> rTransf r <> Some name)
  /\ (forall u, In u (bins g) -> TransfName u <> name).

(** Two geometries with the same bodies, regions and USRBINs, and the same
    transformations of a name. *)
Definition same_but_cards (name : string) (g g' : Geometry) : Prop :=
  bods g' = bods g /\ regs g' = regs g /\ bins g' = bins g
  /\ filter (named name) (tras g') = filter (named name) (tras g).

End CardOfBodies.

(** A body under the geometry directive T1, whose card holds one step; and
    the bodies B1 and B2 beside a lattice region and a USRBIN, none of them
    linked. *)
Definition linked_body : @Geometry Sample :=
  @mkGeometry Sample
    [ @mkBody Sample "B1" "" (Some "T1") (0, 0, 0)%Q ]
    [ Region_set_def (Region_new "R1") "+B1" 5%Q ]
    [ {| tName := "T1"; tComment := ""; ID := 1;
         RotDefis := [translation_step (1, 0, 0)%Q] |} ]
    [] [] "one body under a directive".

Definition bodies_lattice_mesh : @Geometry Sample :=
  @mkGeometry Sample
    [ @mkBody Sample "B1" "" None (0, 0, 0)%Q;
      @mkBody Sample "B2" "" None (1, 0, 0)%Q ]
    [ Region_set_def (Region_new "R1") "+B1 -B2" 5%Q;
      Region_assignLat (Region_new "CELL") "CELL" ]
    []
    [ {| uName := "dose"; uComment := ""; uDefinition := ["a"; "b"];
         TransfName := "" |} ]
    [] "two bodies, a lattice and a mesh".

(** What the call gives for them. *)
Definition bodies_lattice_mesh_moved : @Geometry Sample :=
  Eval vm_compute in
    match solidTrasform bodies_lattice_mesh (Some (0, 0, 10)%Q) None
                        (Some (Angle 90%Q)) (Axis 2)
                        true true false false "ToFinPos" None with
    | Ok g' => g'
    | _ => bodies_lattice_mesh
    end.

(** * Part II: verified properties *)

(** ** Lists and strings of Python *)

Lemma py_index_nth {A : Type} (l : list A) (n : nat) :
  py_index l (Z.of_nat n) = match nth_error l n with Some a => Ok a | None => Raise end.
Proof.
  unfold py_index.
  destruct (Z.ltb_spec (Z.of_nat n) 0); [lia|].
  rewrite Nat2Z.id.
  destruct (Z.ltb_spec (Z.of_nat n) 0); [lia|]. simpl.
  destruct (Z.leb_spec (Z.of_nat (List.length l)) (Z.of_nat n)).
  - assert (Hn : nth_error l n = None) by (apply nth_error_None; lia).
    now rewrite Hn.
  - reflexivity.
Qed.

Lemma rev_snoc_eq {A : Type} (l : list A) :
  match rev l with
  | [] => l = []
  | a :: r => l = rev r ++ [a]
  end.
Proof.
  destruct (rev l) as [|a r] eqn:E.
  - apply (f_equal (@rev A)) in E. now rewrite rev_involutive in E.
  - apply (f_equal (@rev A)) in E. now rewrite rev_involutive in E.
Qed.

Lemma py_last_snoc {A : Type} (l : list A) (a : A) : py_last (l ++ [a]) = Ok a.
Proof. unfold py_last. now rewrite rev_unit. Qed.

Lemma py_set_last_snoc {A : Type} (l : list A) (a v : A) :
  py_set_last (l ++ [a]) v = Ok (l ++ [v]).
Proof. unfold py_set_last. now rewrite rev_unit, rev_involutive. Qed.

Lemma py_pop_snoc {A : Type} (l : list A) (a : A) : py_pop (l ++ [a]) = Ok l.
Proof. unfold py_pop. now rewrite rev_unit, rev_involutive. Qed.

Lemma py_last_Ok {A : Type} (l : list A) (a : A) :
  py_last l = Ok a -> exists r, l = r ++ [a].
Proof.
  unfold py_last. pose proof (rev_snoc_eq l) as H.
  destruct (rev l) as [|x r]; [discriminate|].
  intros [= ->]. now exists (rev r).
Qed.

Lemma py_set_last_Ok {A : Type} (l l' : list A) (v : A) :
  py_set_last l v = Ok l' -> exists r a, l = r ++ [a] /\ l' = r ++ [v].
Proof.
  unfold py_set_last. pose proof (rev_snoc_eq l) as H.
  destruct (rev l) as [|x r]; [discriminate|].
  intros [= <-]. now exists (rev r), x.
Qed.

Lemma py_pop_Ok {A : Type} (l l' : list A) :
  py_pop l = Ok l' -> exists a, l = l' ++ [a].
Proof.
  unfold py_pop. pose proof (rev_snoc_eq l) as H.
  destruct (rev l) as [|x r]; [discriminate|].
  intros [= <-]. now exists x.
Qed.

Lemma mem_In (x : string) (l : list string) : Py.mem x l = true <-> In x l.
Proof.
  unfold Py.mem. rewrite existsb_exists. split.
  - intros [y [Hy E]]. apply String.eqb_eq in E. now subst.
  - intros H. exists x. split; [assumption|apply String.eqb_refl].
Qed.

Lemma mem_in_dec (x : string) (l : list string) (X Y : list string) :
  (if Py.mem x l then X else Y) = (if in_dec string_dec x l then X else Y).
Proof.
  destruct (in_dec string_dec x l) as [H|H].
  - apply mem_In in H. now rewrite H.
  - destruct (Py.mem x l) eqn:E; [|reflexivity].
    apply mem_In in E. contradiction.
Qed.

Lemma py_all_Forall (l : list bool) :
  py_all l = true <-> Forall (fun b => b = true) l.
Proof.
  unfold py_all. rewrite forallb_forall, Forall_forall. reflexivity.
Qed.

(** ** The preprocessor *)

Lemma startswith_app (s p : string) :
  Py.startswith s p = true -> exists rest, s = p +++ rest.
Proof.
  unfold Py.startswith. revert s.
  induction p as [|a p IH]; intros s H.
  - now exists s.
  - destruct s as [|b s]; [discriminate|].
    cbn [String.prefix] in H.
    destruct (ascii_dec a b) as [<-|]; [|discriminate].
    destruct (IH _ H) as [rest ->]. now exists rest.
Qed.

(** A line that starts with one directive keyword does not start with
    another one that the loop tests before it. *)
Lemma startswith_if (line : string) :
  Py.startswith line "#if" = true -> Py.startswith line "#define" = false.
Proof. intros H. apply startswith_app in H as [rest ->]. reflexivity. Qed.

Lemma startswith_elif (line : string) :
  Py.startswith line "#elif" = true ->
  Py.startswith line "#define" = false /\ Py.startswith line "#if" = false.
Proof. intros H. apply startswith_app in H as [rest ->]. now split. Qed.

Lemma startswith_else (line : string) :
  Py.startswith line "#else" = true ->
  Py.startswith line "#define" = false /\ Py.startswith line "#if" = false
  /\ Py.startswith line "#elif" = false.
Proof. intros H. apply startswith_app in H as [rest ->]. now repeat split. Qed.

Lemma startswith_end (line : string) :
  Py.startswith line "#end" = true ->
  Py.startswith line "#define" = false /\ Py.startswith line "#if" = false
  /\ Py.startswith line "#elif" = false /\ Py.startswith line "#else" = false.
Proof. intros H. apply startswith_app in H as [rest ->]. now repeat split. Qed.

(** C8. A turn of the parsing loop succeeds with a new state and a verdict
    exactly when the specification allows this step: a line that is no
    directive is processed if and only if every entry of the visibility stack
    is true; [#define NAME] adds NAME to the flag set; [#if NAME] pushes the
    test whether NAME is in the flag set; [#elif NAME] replaces the top entry
    with that test and keeps track of whether a branch of the block has
    matched; [#else] replaces the top entry with the negation of "some branch
    has matched"; [#end] pops one entry. *)
Theorem preprocessor_visibility (st st' : PreProc) (line : string) (go : bool) :
  preproc_line st line = Ok (st', go) <-> visible_step st line st' go.
Proof.
  split.
  - unfold preproc_line.
    destruct (Py.startswith line "#define") eqn:Hdef.
    { destruct (Nat.ltb_spec 2 (List.length (Py.split_ws line))) as [|Hlen];
        [discriminate|].
      change 1 with (Z.of_nat 1). rewrite py_index_nth.
      destruct (Py.split_ws line) as [|d [|name [|x rest]]] eqn:Hs;
        simpl in *; try discriminate; try lia.
      intros [= <- <-]. rewrite mem_in_dec.
      now apply (vs_define st line d name). }
    destruct (Py.startswith line "#if") eqn:Hif.
    { change 1 with (Z.of_nat 1). rewrite py_index_nth.
      destruct (nth_error (Py.split_ws line) 1) as [name|] eqn:Hn;
        simpl; [|discriminate].
      intros [= <- <-]. now apply (vs_if st line name). }
    destruct (Py.startswith line "#elif") eqn:Helif.
    { change 1 with (Z.of_nat 1). rewrite py_index_nth.
      destruct (nth_error (Py.split_ws line) 1) as [name|] eqn:Hn;
        simpl; [|discriminate].
      destruct (py_set_last (lReads st) _) as [reads| |] eqn:Hr;
        simpl; try discriminate.
      destruct (py_last (lElse st)) as [seen| |] eqn:Hl; simpl; try discriminate.
      destruct (py_set_last (lElse st) _) as [elses| |] eqn:He;
        simpl; try discriminate.
      intros [= <- <-].
      apply py_set_last_Ok in Hr as (rs & r & Hr1 & ->).
      apply py_last_Ok in Hl as (es & Hl).
      rewrite Hl, py_set_last_snoc in He. injection He as <-.
      now apply (vs_elif st line name rs es r seen). }
    destruct (Py.startswith line "#else") eqn:Helse.
    { destruct (py_last (lElse st)) as [seen| |] eqn:Hl; simpl; try discriminate.
      destruct (py_set_last (lReads st) _) as [reads| |] eqn:Hr;
        simpl; try discriminate.
      intros [= <- <-].
      apply py_set_last_Ok in Hr as (rs & r & Hr1 & ->).
      apply py_last_Ok in Hl as (es & Hl).
      now apply (vs_else st line rs es r seen). }
    destruct (Py.startswith line "#end") eqn:Hend.
    { destruct (py_pop (lReads st)) as [reads| |] eqn:Hr; simpl; try discriminate.
      destruct (py_pop (lElse st)) as [elses| |] eqn:He; simpl; try discriminate.
      intros [= <- <-].
      apply py_pop_Ok in Hr as (r & Hr). apply py_pop_Ok in He as (e & He).
      now apply (vs_end st line reads elses r e). }
    intros [= <- <-]. apply vs_text.
    + unfold is_directive. simpl. now rewrite Hdef, Hif, Helif, Helse, Hend.
    + apply py_all_Forall.
  - intros H. unfold preproc_line. destruct H as
      [d name Hdef Hs | name Hif Hn | name rs es r m Helif Hn Hr He
      | rs es r m Helse Hr He | rs es r m Hend Hr He | go Hdir Hgo].
    + rewrite Hdef, Hs. simpl. now rewrite mem_in_dec.
    + rewrite (startswith_if _ Hif), Hif. change 1 with (Z.of_nat 1).
      rewrite py_index_nth, Hn. reflexivity.
    + destruct (startswith_elif _ Helif) as [-> ->]. rewrite Helif.
      change 1 with (Z.of_nat 1). rewrite py_index_nth, Hn. simpl.
      rewrite Hr, He, py_set_last_snoc, py_last_snoc. simpl.
      now rewrite py_set_last_snoc.
    + destruct (startswith_else _ Helse) as (-> & -> & ->). rewrite Helse.
      unfold with_stacks.
      rewrite Hr, He, py_last_snoc. simpl. now rewrite py_set_last_snoc.
    + destruct (startswith_end _ Hend) as (-> & -> & -> & ->). rewrite Hend.
      rewrite Hr, He, !py_pop_snoc. reflexivity.
    + unfold is_directive in Hdir. simpl in Hdir.
      repeat (apply orb_false_elim in Hdir as [? Hdir]).
      repeat match goal with H : Py.startswith _ _ = false |- _ => rewrite H; clear H end.
      f_equal. f_equal.
      destruct (py_all (lReads st)) eqn:E.
      * apply py_all_Forall in E. symmetry. now apply Hgo.
      * destruct go; [|reflexivity].
        destruct Hgo as [Hgo _]. specialize (Hgo eq_refl).
        apply py_all_Forall in Hgo. congruence.
Qed.

(** A block with three branches, of which the first matches, and a block of
    which only the last one does. *)
Example active_lines_nested :
  active_lines PreProc_init
    ["#define A"; "#if A"; "x"; "#elif B"; "y"; "#else"; "z"; "#endif"; "w";
     "#if B"; "u"; "#else"; "v"; "#end"]
  = Ok ["x"; "w"; "v"].
Proof. reflexivity. Qed.

Lemma preprocessor_visibility_witness :
  preproc_line {| defineFlags := ["A"]; lReads := [true; true];
                  lElse := [true] |} "#else"
  = Ok ({| defineFlags := ["A"]; lReads := [true; false]; lElse := [true] |},
        false).
Proof.
  apply preprocessor_visibility.
  exact (vs_else {| defineFlags := ["A"]; lReads := [true; true];
                    lElse := [true] |} "#else" [true] [] true true
                 eq_refl eq_refl eq_refl).
Defined.

(** ** Merging regions *)

Lemma sapp_assoc (a b c : string) : (a +++ b) +++ c = a +++ (b +++ c).
Proof. induction a as [|x a IH]; simpl; [reflexivity|now rewrite IH]. Qed.

Lemma sapp_nil_r (a : string) : a +++ "" = a.
Proof. induction a as [|x a IH]; simpl; [reflexivity|now rewrite IH]. Qed.

Lemma concat_empty_cons (x : string) (l : list string) :
  String.concat "" (x :: l) = x +++ String.concat "" l.
Proof.
  destruct l as [|y l]; simpl; [now rewrite sapp_nil_r|reflexivity].
Qed.

Lemma concat_empty_app (l1 l2 : list string) :
  String.concat "" (l1 ++ l2) = String.concat "" l1 +++ String.concat "" l2.
Proof.
  induction l1 as [|x l1 IH]; [reflexivity|].
  rewrite <- app_comm_cons, !concat_empty_cons, IH. now rewrite sapp_assoc.
Qed.

Lemma merge_inner_loop spacing newName myName ii sMy pieces :
  forall start acc,
    fold_left (merge_pair spacing newName myName ii sMy)
              (Py.enumerate_from start pieces) acc
    = fold_left (entry_step spacing newName myName)
                (map (fun jz => (ii, fst jz, sMy +++ " " +++ snd jz))
                     (zones_from start pieces))
                acc.
Proof.
  induction pieces as [|p pieces IH]; intros start acc; [reflexivity|].
  unfold zones_from in *. cbn [Py.enumerate_from map filter fold_left fst snd].
  rewrite IH. unfold merge_pair.
  destruct (Py.nonempty (Py.strip p)) eqn:E; [|reflexivity].
  cbn [map fold_left fst snd]. apply (f_equal (fold_left _ _)).
  unfold entry_step. now destruct (lFirst acc).
Qed.

Lemma merge_outer_loop spacing newName myName theirs pieces :
  forall start acc,
    fold_left (merge_zone spacing newName myName theirs)
              (Py.enumerate_from start pieces) acc
    = fold_left (entry_step spacing newName myName)
                (zone_product (zones_from start pieces) (zones_from 1 theirs))
                acc.
Proof.
  induction pieces as [|p pieces IH]; intros start acc; [reflexivity|].
  unfold zones_from in *. cbn [Py.enumerate_from map filter fold_left fst snd].
  rewrite IH. unfold merge_zone.
  destruct (Py.nonempty (Py.strip p)) eqn:E; [|reflexivity].
  unfold zone_product. cbn [flat_map fst snd]. rewrite fold_left_app.
  apply (f_equal (fold_left _ _)). apply merge_inner_loop.
Qed.

Lemma entry_steps_later spacing newName myName entries :
  forall acc,
    lFirst acc = false ->
    mergedDef (fold_left (entry_step spacing newName myName) entries acc)
    = mergedDef acc
        +++ String.concat "" (map (later_entry spacing newName myName) entries).
Proof.
  induction entries as [|e entries IH]; intros acc Hacc.
  - simpl. now rewrite sapp_nil_r.
  - cbn [fold_left map]. rewrite IH.
    + rewrite concat_empty_cons. destruct e as [[ii jj] z].
      unfold entry_step at 1. rewrite Hacc. cbn [mergedDef].
      now rewrite sapp_assoc.
    + destruct e as [[ii jj] z]. unfold entry_step. now destruct (lFirst acc).
Qed.

Lemma entry_steps_listing spacing newName myName entries comment :
  mergedDef (fold_left (entry_step spacing newName myName) entries
                       {| accComment := comment; mergedDef := "";
                          lFirst := true |})
  = listing spacing newName myName entries.
Proof.
  destruct entries as [|[[ii jj] z] rest]; [reflexivity|].
  cbn [fold_left]. rewrite entry_steps_later; reflexivity.
Qed.

Lemma zone_product_nonempty (mine theirs : list (Z * string)) :
  mine <> [] -> theirs <> [] -> zone_product mine theirs <> [].
Proof.
  destruct mine as [|m mine]; [congruence|].
  destruct theirs as [|t theirs]; [congruence|].
  discriminate.
Qed.

Lemma zone_product_texts (mine theirs : list (Z * string)) :
  map (fun e => snd e) (zone_product mine theirs)
  = flat_map (fun a => map (fun b => snd a +++ " " +++ snd b) theirs) mine.
Proof.
  unfold zone_product.
  induction mine as [|a l IH]; [reflexivity|].
  cbn [flat_map]. rewrite map_app, IH, map_map. reflexivity.
Qed.

(** The text that [Region.merge] writes. When the surviving and the absorbed
    region have a piece between bars that is not blank, the new definition
    lists, for every such piece of the surviving region in turn, this piece
    joined to every such piece of the absorbed region, every entry but the
    first below a comment line; and the neighbour count becomes the sum of
    the two. *)
Theorem merge_zone_product (self newReg : Region) (spacing : string) :
  zones (definition self) <> [] ->
  zones (definition newReg) <> [] ->
  let product := zone_product (zones (definition self))
                              (zones (definition newReg)) in
  product <> []
  /\ map (fun e => snd e) product
     = flat_map (fun a => map (fun b => snd a +++ " " +++ snd b)
                              (zones (definition newReg)))
                (zones (definition self))
  /\ definition (merge self newReg spacing)
     = listing spacing (rName newReg) (rName self) product
  /\ neigh (merge self newReg spacing) = Qplus (neigh self) (neigh newReg).
Proof.
  intros Hmine Htheirs product. repeat split.
  - now apply zone_product_nonempty.
  - apply zone_product_texts.
  - unfold merge. cbn [definition initCont_default initCont].
    rewrite merge_outer_loop. apply entry_steps_listing.
Qed.

Example merge_R1_R2 :
  definition (merge region_R1 region_R2 merge_spacing)
  = "| +A -B +X" +++ Py.LF
    +++ "* merging zone R2:4 into R1:1" +++ Py.LF
    +++ "                | +A -B +Y" +++ Py.LF
    +++ "* merging zone R2:2 into R1:2" +++ Py.LF
    +++ "                | +C +X" +++ Py.LF
    +++ "* merging zone R2:4 into R1:2" +++ Py.LF
    +++ "                | +C +Y".
Proof. reflexivity. Qed.

Lemma merge_zone_product_witness :
  definition (merge region_R1 region_R2 merge_spacing)
  = listing merge_spacing "R2" "R1"
      [(1, 2, "+A -B +X"); (1, 4, "+A -B +Y"); (2, 2, "+C +X"); (2, 4, "+C +Y")].
Proof.
  refine (proj1 (proj2 (proj2
    (merge_zone_product region_R1 region_R2 merge_spacing _ _))));
    discriminate.
Defined.

(** C3, at a region that was merged before. The first merge of two regions
    gives the cross-product of their zones, and writes a comment line after
    every zone but the last, so that the pieces between the bars, which the
    next merge takes for the zones, end in a comment line. The next merge
    into the same region writes the zone of the absorbed region at the end
    of these comment lines, and only the last zone of the surviving region
    is joined to it. Of the four zones that the cross-product with the zone
    [+Z] holds, the definition holds one; the three others are left as they
    were. The neighbour counts are added. *)
Theorem merge_again_loses_zones :
  let once := merge region_R1 region_R2 merge_spacing in
  let twice := merge once region_R3 merge_spacing in
  zone_terms (definition once)
  = map (fun e => snd e)
        (zone_product (zones (definition region_R1))
                      (zones (definition region_R2)))
  /\ map (fun iz => snd iz) (zones (definition once))
     = [ "+A -B +X" +++ Py.LF +++ "* merging zone R2:4 into R1:1";
         "+A -B +Y" +++ Py.LF +++ "* merging zone R2:2 into R1:2";
         "+C +X" +++ Py.LF +++ "* merging zone R2:4 into R1:2";
         "+C +Y" ]
  /\ splitlines (definition twice)
     = [ "| +A -B +X";
         "* merging zone R2:4 into R1:1 +Z";
         "* merging zone R3:1 into R1:3";
         "                | +A -B +Y";
         "* merging zone R2:2 into R1:2 +Z";
         "* merging zone R3:1 into R1:4";
         "                | +C +X";
         "* merging zone R2:4 into R1:2 +Z";
         "* merging zone R3:1 into R1:5";
         "                | +C +Y +Z" ]
  /\ zone_terms (definition twice)
     = ["+A -B +X"; "+A -B +Y"; "+C +X"; "+C +Y +Z"]
  /\ map (fun e => snd e)
         (zone_product (zones (expression (definition once)))
                       (zones (definition region_R3)))
     = ["+A -B +X +Z"; "+A -B +Y +Z"; "+C +X +Z"; "+C +Y +Z"]
  /\ neigh twice = Qplus (Qplus (neigh region_R1) (neigh region_R2))
                         (neigh region_R3).
Proof. repeat split; reflexivity. Qed.

(** C9. After [Region.merge] the containment state of the surviving region
    is reset: the tag is 0, the centre is the origin and the maximum length
    is 0.0. *)
Theorem merge_resets_containment (self newReg : Region) (spacing : string) :
  rCont (merge self newReg spacing) = 0
  /\ rCent (merge self newReg spacing) = (0%Q, 0%Q, 0%Q)
  /\ rMaxLen (merge self newReg spacing) = 0%Q.
Proof. repeat split. Qed.

(** ** Mapping by flags *)

Section FlagMappingFacts.
Context {ext : External}.

Lemma mapM_const {A B : Type} (b : B) (l : list A) :
  mapM (fun _ => Ok b) l = Ok (repeat b (List.length l)).
Proof.
  induction l as [|a l IH]; [reflexivity|]. simpl. now rewrite IH.
Qed.

Lemma mapM_first {A : Type} (l : list A) (x : Z) (xs : list Z) :
  mapM (fun _ => py_index (x :: xs) 0) l = Ok (repeat x (List.length l)).
Proof. apply (mapM_const x). Qed.

(** C4, as amended. With [m] regions flagged as containers and [n] regions
    flagged as to be contained, [MapContRegs] is fatal for [m>1] and [n>1];
    for [n==1] and [m>=1] it returns "oneGrid" with [m] pairs that share the
    one contained region; for [m==1] and [n] other than 1 it returns
    "oneHive" with [n] pairs that share the one container. (One container
    and one contained region make a "oneGrid" mapping of one pair.) *)
Theorem MapContRegs_cardinality (CtainGeo CinedGeo : Geometry) :
  let m := List.length (containers CtainGeo) in
  let n := List.length (contained CinedGeo) in
  ((1 < m)%nat /\ (1 < n)%nat -> MapContRegs CtainGeo CinedGeo = Exit)
  /\ (n = 1%nat -> (1 <= m)%nat ->
      exists j, contained CinedGeo = [j]
                /\ maps_to CtainGeo CinedGeo "oneGrid"
                           (containers CtainGeo) (repeat j m))
  /\ (m = 1%nat -> n <> 1%nat ->
      exists i, containers CtainGeo = [i]
                /\ maps_to CtainGeo CinedGeo "oneHive"
                           (repeat i n) (contained CinedGeo)).
Proof.
  unfold maps_to, MapContRegs, containers, contained.
  set (hs := indices_where _ (regs CtainGeo)).
  set (gs := indices_where _ (regs CinedGeo)).
  cbv zeta. repeat split.
  - intros [Hm Hn].
    destruct (Nat.ltb_spec 1 (List.length hs)); [|lia].
    destruct (Nat.ltb_spec 1 (List.length gs)); [|lia]. reflexivity.
  - intros Hn Hm.
    destruct gs as [|j [|j' gs']]; try discriminate. exists j. split; [reflexivity|].
    change (List.length [j]) with 1%nat.
    rewrite (proj2 (Nat.ltb_ge 1 1)) by lia. rewrite andb_false_r.
    rewrite (proj2 (Nat.leb_le 1 (List.length hs))) by lia.
    rewrite Nat.eqb_refl. cbn [andb bind]. rewrite mapM_first. reflexivity.
  - intros Hm Hn.
    destruct hs as [|i [|i' hs']]; try discriminate. exists i. split; [reflexivity|].
    change (List.length [i]) with 1%nat.
    rewrite (proj2 (Nat.ltb_ge 1 1)) by lia. rewrite andb_false_l.
    rewrite (proj2 (Nat.eqb_neq (List.length gs) 1)) by assumption.
    rewrite andb_false_r. cbn [bind]. rewrite mapM_first. reflexivity.
Qed.

End FlagMappingFacts.

(** One container and one region to be contained: the first guard wins. *)
Example MapContRegs_one_to_one :
  MapContRegs one_container one_contained
  = Ok ([one_container], [one_contained],
        {| iRhg := [1]; jRhg := [0]; iRgg := [1]; jRgg := [0] |}, "oneGrid").
Proof. reflexivity. Qed.

(** One container and one region to be contained: the mapping is "oneGrid",
    where the claim has both "oneGrid" and "oneHive". *)
Lemma flag_mapping_one_to_one :
  ~ flag_mapping_as_stated one_container one_contained.
Proof.
  intros (_ & _ & H). destruct (H eq_refl) as (i & _ & Hmap).
  unfold maps_to in Hmap. rewrite MapContRegs_one_to_one in Hmap.
  apply (f_equal (fun r => match r with
                           | Ok (_, mapType) => mapType
                           | _ => ""
                           end)) in Hmap.
  discriminate Hmap.
Qed.

Example MapContRegs_three_to_one :
  MapContRegs three_containers one_contained
  = Ok ([three_containers], [one_contained],
        {| iRhg := [1; 2; 3]; jRhg := [0; 0; 0];
           iRgg := [1; 1; 1]; jRgg := [0; 0; 0] |}, "oneGrid").
Proof. reflexivity. Qed.

Example MapContRegs_one_to_three :
  MapContRegs one_container three_contained
  = Ok ([one_container], [three_contained],
        {| iRhg := [1; 1; 1]; jRhg := [0; 0; 0];
           iRgg := [0; 1; 3]; jRgg := [0; 0; 0] |}, "oneHive").
Proof. reflexivity. Qed.

Example MapContRegs_three_to_three :
  MapContRegs three_containers three_contained = Exit.
Proof. reflexivity. Qed.

Lemma MapContRegs_cardinality_witness :
  exists j, contained one_contained = [j]
            /\ maps_to three_containers one_contained "oneGrid"
                       (containers three_containers) (repeat j 3).
Proof.
  refine (proj1 (proj2 (MapContRegs_cardinality three_containers one_contained))
                eq_refl _).
  vm_compute. lia.
Defined.

(** ** The query engine *)

Section LookupFacts.
Context {ext : External}.

Lemma find_from_Some {A : Type} (p : A -> bool) (l : list A) :
  forall s k a,
    find_from p s l = Some (k, a) ->
    exists n, k = s + Z.of_nat n /\ nth_error l n = Some a /\ p a = true
              /\ forall j a', (j < n)%nat -> nth_error l j = Some a' ->
                              p a' = false.
Proof.
  induction l as [|x l IH]; intros s k a H; [discriminate|].
  cbn [find_from] in H. destruct (p x) eqn:Hx.
  - injection H as <- <-. exists 0%nat. repeat split; [lia|assumption|].
    intros j a' Hj. lia.
  - destruct (IH _ _ _ H) as (n & -> & Hn & Ha & Hfirst).
    exists (S n). repeat split; [lia|assumption|assumption|].
    intros [|j] a' Hj Hnth.
    + now injection Hnth as <-.
    + apply (Hfirst j); [lia|assumption].
Qed.

Lemma find_from_None {A : Type} (p : A -> bool) (l : list A) :
  forall s, find_from p s l = None -> forall a, In a l -> p a = false.
Proof.
  induction l as [|x l IH]; intros s H a [].
  - subst. cbn [find_from] in H. now destruct (p a).
  - cbn [find_from] in H. destruct (p x); [discriminate|]. now apply (IH _ H).
Qed.

(** A lookup in a collection, told by the entities it holds. *)
Lemma lookup_unmatched {A : Type} (inj : A -> Entity) (p : A -> bool)
  (q : Entity -> bool) (l : list A) :
  (forall a, q (inj a) = p a) ->
  (forall e, In e (map inj l) -> q e = false) ->
  lookup inj p l = RNone.
Proof.
  intros Hq Hun. unfold lookup.
  destruct (find_from p 0 l) as [[k a]|] eqn:E; [|reflexivity].
  apply find_from_Some in E as (n & _ & Hn & Ha & _).
  rewrite <- Hq, Hun in Ha; [discriminate|].
  apply in_map. now apply nth_error_In with n.
Qed.

Lemma lookup_first {A : Type} (inj : A -> Entity) (p : A -> bool)
  (q : Entity -> bool) (l : list A) (i : nat) (e : Entity) :
  (forall a, q (inj a) = p a) ->
  nth_error (map inj l) i = Some e ->
  q e = true ->
  (forall j e', (j < i)%nat -> nth_error (map inj l) j = Some e' ->
                q e' = false) ->
  lookup inj p l = ROne e (Z.of_nat i).
Proof.
  intros Hq Hi He Hfirst. unfold lookup.
  destruct (find_from p 0 l) as [[k a]|] eqn:E.
  - apply find_from_Some in E as (n & -> & Hn & Ha & Hmin).
    assert (Hn' : nth_error (map inj l) n = Some (inj a))
      by now rewrite nth_error_map, Hn.
    destruct (Nat.lt_trichotomy n i) as [Hlt|[->|Hgt]].
    + pose proof (Hfirst _ _ Hlt Hn') as Hf. rewrite Hq in Hf. congruence.
    + rewrite Hi in Hn'. now injection Hn' as ->.
    + rewrite nth_error_map in Hi.
      destruct (nth_error l i) as [a'|] eqn:Ei; [|discriminate].
      injection Hi as <-. rewrite Hq, (Hmin _ _ Hgt Ei) in He. discriminate.
  - rewrite nth_error_map in Hi.
    destruct (nth_error l i) as [a'|] eqn:Ei; [|discriminate].
    injection Hi as <-. rewrite Hq in He.
    rewrite (find_from_None _ _ _ E a') in He; [discriminate|].
    now apply nth_error_In with i.
Qed.

(** The chain, entered with a key of a known selector. *)
Lemma ret_selector (g : Geometry) (myKey myValue : string) (sel : Selector) :
  selector_of myKey = Some sel ->
  ret g myKey myValue = ret_sel (ret_fuel 2 g) g sel myValue.
Proof. intros H. unfold ret. cbn [ret_fuel]. now rewrite H. Qed.

(** For a single name, a selector of a collection runs the loop with
    [break] over the entities, testing [matches]. *)
Lemma ret_sel_collection self (g : Geometry) (sel : Selector) (name : string) :
  is_collection sel = true ->
  is_ALL name = false ->
  (unmatched g sel name -> ret_sel self g sel name = Ok RNone)
  /\ (forall i e, first_match g sel name i e ->
                  ret_sel self g sel name = Ok (ROne e (Z.of_nat i))).
Proof.
  intros Hsel Hall. unfold unmatched, first_match.
  destruct sel; try discriminate Hsel;
    cbn [ret_sel entities]; unfold ret_collection, ret_scoring; rewrite Hall;
    (split;
     [ intros Hun; f_equal;
       match type of Hun with
       | forall e, _ -> matches ?s _ _ = false =>
           apply (lookup_unmatched _ _ (matches s name));
           [reflexivity|exact Hun]
       end
     | intros i e (Hi & He & Hfirst); f_equal;
       match type of He with
       | matches ?s _ _ = true =>
           apply (lookup_first _ _ (matches s name));
           [reflexivity|assumption..]
       end ]).
Qed.

(** C5, as amended. For a name other than "ALL" and a selector of a
    collection (bodies, lattices, regions, transformations, USRBINs,
    region-based scorings and their four families), [ret] returns the
    sentinel [(None,-1)] when no entity matches the name, and the first
    entity that matches together with its position when one does. For the
    relations "transformation linked to a body / lattice / USRBIN", a name
    that matches no owner ends the run with [exit(1)]. *)
Theorem ret_single_name (g : Geometry) (myKey name : string) (sel : Selector) :
  selector_of myKey = Some sel ->
  is_ALL name = false ->
  (is_collection sel = true -> unmatched g sel name ->
   ret g myKey name = Ok RNone)
  /\ (is_collection sel = true ->
      forall i e, first_match g sel name i e ->
                  ret g myKey name = Ok (ROne e (Z.of_nat i)))
  /\ (is_link sel = true -> unmatched g sel name -> ret g myKey name = Exit).
Proof.
  intros Hkey Hall. rewrite (ret_selector _ _ _ _ Hkey). repeat split.
  - intros Hsel. now apply ret_sel_collection.
  - intros Hsel. now apply ret_sel_collection.
  - intros Hsel Hun.
    destruct sel; try discriminate Hsel;
      cbn [ret_sel]; unfold ret_linked; rewrite Hall.
    + change (ret_fuel 2 g "body" name)
        with (ret_sel (ret_fuel 1 g) g SBod name).
      now rewrite (proj1 (ret_sel_collection (ret_fuel 1 g) g SBod name
                            eq_refl Hall) Hun).
    + change (ret_fuel 2 g "lat" name)
        with (ret_sel (ret_fuel 1 g) g SLat name).
      now rewrite (proj1 (ret_sel_collection (ret_fuel 1 g) g SLat name
                            eq_refl Hall) Hun).
    + change (ret_fuel 2 g "usrbin" name)
        with (ret_sel (ret_fuel 1 g) g SBin name).
      now rewrite (proj1 (ret_sel_collection (ret_fuel 1 g) g SBin name
                            eq_refl Hall) Hun).
Qed.

End LookupFacts.

(** The relation "transformation linked to a body", asked for a name that
    was never inserted: the run ends, and no sentinel is returned. *)
Lemma sentinel_not_for_links : ~ sentinel_as_stated (@Geometry_new Sample).
Proof.
  intros H.
  specialize (H "TRANSFLINKEDTOBODY" STransfLinkedToBody "B1" eq_refl
                (or_intror eq_refl) eq_refl).
  assert (Hun : unmatched (@Geometry_new Sample) STransfLinkedToBody "B1")
    by (intros e []).
  specialize (H Hun).
  assert (Hrun : ret (@Geometry_new Sample) "TRANSFLINKEDTOBODY" "B1" = Exit)
    by reflexivity.
  rewrite Hrun in H. discriminate H.
Qed.

Lemma ret_single_name_witness :
  ret (two_directives Sample (0, 0, 0)%Q) "TRANSF" "T2"
  = Ok (ROne (ETransformation (Transformation_new 2 "T2")) 1).
Proof.
  refine (proj1 (proj2 (ret_single_name (two_directives Sample (0, 0, 0)%Q)
                          "TRANSF" "T2" STransf eq_refl eq_refl))
                eq_refl 1%nat _ _).
  repeat split.
  intros [|j] e' Hj Hnth; [|lia].
  injection Hnth as <-. reflexivity.
Defined.

(** ** Relations and families of the query engine *)

Lemma add_new_In (seen : list string) (x y : string) :
  In y (add_new seen x) <-> In y seen \/ y = x.
Proof.
  unfold add_new. destruct (Py.mem x seen) eqn:E.
  - apply mem_In in E. split; [now left|]. now intros [H| ->].
  - rewrite in_app_iff. simpl. intuition.
Qed.

Lemma NoDup_snoc {A : Type} (l : list A) (x : A) :
  NoDup l -> ~ In x l -> NoDup (l ++ [x]).
Proof.
  induction l as [|a l IH]; intros Hl Hx.
  - constructor; [intros []|constructor].
  - inversion Hl as [|? ? Ha Hl']; subst. simpl. constructor.
    + rewrite in_app_iff. simpl. intros [H|[H|[]]]; [contradiction|].
      subst. apply Hx. now left.
    + apply IH; [assumption|]. intros H. apply Hx. now right.
Qed.

Lemma add_new_NoDup (seen : list string) (x : string) :
  NoDup seen -> NoDup (add_new seen x).
Proof.
  intros H. unfold add_new. destruct (Py.mem x seen) eqn:E; [assumption|].
  apply NoDup_snoc; [assumption|].
  intros Hin. apply mem_In in Hin. congruence.
Qed.

Lemma fold_add_new (l : list string) :
  forall acc,
    NoDup acc ->
    NoDup (fold_left add_new l acc)
    /\ forall x, In x (fold_left add_new l acc) <-> In x acc \/ In x l.
Proof.
  induction l as [|a l IH]; intros acc Hacc.
  - simpl. split; [assumption|]. intuition.
  - simpl. destruct (IH _ (add_new_NoDup acc a Hacc)) as [Hn Hin].
    split; [assumption|]. intros x. rewrite Hin, add_new_In. intuition.
Qed.

Lemma first_seen_NoDup (l : list string) : NoDup (first_seen l).
Proof. apply fold_add_new. constructor. Qed.

Lemma first_seen_In (l : list string) (x : string) :
  In x (first_seen l) <-> In x l.
Proof.
  unfold first_seen. rewrite (proj2 (fold_add_new l [] (NoDup_nil _))).
  simpl. intuition.
Qed.

(** Both sample orders are orders that a Python set may come out in. *)
Lemma Sample_set_order : @set_order_ok Sample.
Proof. intros l. split; [apply first_seen_NoDup|apply first_seen_In]. Qed.

Lemma SampleRev_set_order : @set_order_ok SampleRev.
Proof.
  intros l. split.
  - apply NoDup_rev, first_seen_NoDup.
  - intros x. cbn. rewrite <- in_rev. apply first_seen_In.
Qed.

Section RelationFacts.
Context {ext : External}.

Lemma mapM_Forall2 {A B : Type} (f : A -> outcome B) (R : A -> B -> Prop)
  (l : list A) :
  (forall a, exists b, f a = Ok b /\ R a b) ->
  exists bs, mapM f l = Ok bs /\ Forall2 R l bs.
Proof.
  intros Hf. induction l as [|a l (bs & Hbs & HR)].
  - exists []. now split.
  - destruct (Hf a) as (b & Hb & Hab). exists (b :: bs).
    cbn [mapM]. rewrite Hb, Hbs. split; [reflexivity|now constructor].
Qed.

(** The nested lookup of one transformation name. *)
Lemma transf_index (g : Geometry) (tEntry : string) :
  exists i,
    (r <- ret_fuel 2 g "transf" tEntry ;; index_of r) = Ok i
    /\ indexes g tEntry i.
Proof.
  change (ret_fuel 2 g "transf" tEntry)
    with (ret_sel (ret_fuel 1 g) g STransf tEntry).
  cbn [ret_sel bind]. unfold ret_collection.
  destruct (is_ALL tEntry) eqn:Hall.
  - eexists. split; [reflexivity|]. now constructor.
  - unfold lookup.
    destruct (find_from _ 0 (tras g)) as [[k t]|] eqn:E.
    + exists (IOne k). split; [reflexivity|].
      apply find_from_Some in E as (n & -> & Hn & Ht & Hfirst).
      apply (indexes_first g tEntry n t Hall). repeat split.
      * cbn [entities]. now rewrite nth_error_map, Hn.
      * exact Ht.
      * intros j e' Hj He'. cbn [entities] in He'.
        rewrite nth_error_map in He'.
        destruct (nth_error (tras g) j) as [t'|] eqn:Ej; [|discriminate].
        injection He' as <-. exact (Hfirst _ _ Hj Ej).
    + exists (IOne (-1)). split; [reflexivity|].
      apply (indexes_none g tEntry Hall). intros e He.
      cbn [entities] in He. apply in_map_iff in He as (t & <- & Ht).
      exact (find_from_None _ _ _ E t Ht).
Qed.

(** C6, as amended. With "ALL", the relations "transformation linked to a
    body / lattice / USRBIN" return the names of the transformations in use,
    each exactly once, in the order in which the set of the names comes out
    (which Python leaves open), and for every name, at the same place of the
    second list, the index that the lookup of this name among the
    transformations gives. *)
Theorem linked_ALL_each_once (g : Geometry) (myKey myValue : string)
  (sel : Selector) :
  set_order_ok ->
  selector_of myKey = Some sel ->
  is_link sel = true ->
  is_ALL myValue = true ->
  exists names idx,
    ret g myKey myValue = Ok (RRel names idx)
    /\ NoDup names
    /\ (forall n, In n names <-> In n (links g sel))
    /\ Forall2 (indexes g) names idx.
Proof.
  intros Hset Hkey Hsel Hall. rewrite (ret_selector _ _ _ _ Hkey).
  exists (list_set (links g sel)).
  destruct (mapM_Forall2 _ (indexes g) (list_set (links g sel))
                         (transf_index g)) as (idx & Hidx & HR).
  exists idx. destruct (Hset (links g sel)) as [Hnd Hin].
  repeat split; try assumption; try apply Hin.
  destruct sel; try discriminate Hsel;
    cbn [ret_sel links]; unfold ret_linked; rewrite Hall;
    cbn [links] in Hidx; rewrite Hidx; reflexivity.
Qed.

Lemma range_length (n : nat) : List.length (Py.range n) = n.
Proof. unfold Py.range. now rewrite length_map, length_seq. Qed.

Lemma range_In (n : nat) (i : Z) :
  In i (Py.range n) <-> 0 <= i < Z.of_nat n.
Proof.
  unfold Py.range. rewrite in_map_iff. split.
  - intros (k & <- & Hk). apply in_seq in Hk. lia.
  - intros H. exists (Z.to_nat i). split; [lia|]. apply in_seq. lia.
Qed.

Lemma indices_where_length {A : Type} (p : A -> bool) (l : list A) :
  List.length (indices_where p l) = List.length (filter p l).
Proof.
  unfold indices_where. rewrite length_map. generalize 0.
  induction l as [|a l IH]; intros s; [reflexivity|].
  cbn [Py.enumerate_from filter snd]. destruct (p a); cbn [List.length];
    now rewrite IH.
Qed.

Lemma filter_length_lt {A : Type} (p : A -> bool) (l : list A) (a : A) :
  In a l -> p a = false -> (List.length (filter p l) < List.length l)%nat.
Proof.
  induction l as [|x l IH]; intros [] Ha.
  - subst. cbn [filter]. rewrite Ha. cbn [List.length].
    pose proof (filter_length_le p l). lia.
  - cbn [filter]. pose proof (IH H Ha).
    destruct (p x); cbn [List.length]; lia.
Qed.

Lemma ScoKind_eqb_eq (a b : ScoKind) : ScoKind_eqb a b = true <-> a = b.
Proof. destruct a, b; simpl; split; congruence. Qed.

(** C10. When the collection of the region-based scorings holds a card that
    is not of the family asked for, the lookup of the family with "ALL"
    returns the names of the cards of the family, in their order, but as
    list of indices the enumeration [0, 1, .., len(scos)-1] of the whole
    collection: the list of the indices is longer than the list of the
    names and differs from the positions of the cards that were
    returned. *)
Theorem scoring_ALL_indices (g : Geometry) (k : ScoKind)
  (myKey myValue : string) :
  selector_of myKey = Some (scoring_selector k) ->
  is_ALL myValue = true ->
  (exists s, In s (scos g) /\ sKind s <> k) ->
  exists names idx,
    ret g myKey myValue = Ok (RAll names idx)
    /\ names = map sName (filter (fun s => ScoKind_eqb (sKind s) k) (scos g))
    /\ idx = Py.range (List.length (scos g))
    /\ (List.length names < List.length idx)%nat
    /\ idx <> indices_where (fun s => ScoKind_eqb (sKind s) k) (scos g).
Proof.
  intros Hkey Hall (s & Hs & Hk).
  exists (map sName (filter (fun s => ScoKind_eqb (sKind s) k) (scos g))).
  exists (Py.range (List.length (scos g))).
  assert (Hlt : (List.length (filter (fun s => ScoKind_eqb (sKind s) k) (scos g))
                 < List.length (scos g))%nat).
  { apply filter_length_lt with s; [assumption|].
    destruct (ScoKind_eqb (sKind s) k) eqn:E; [|reflexivity].
    apply ScoKind_eqb_eq in E. contradiction. }
  split; [|split; [reflexivity|split; [|split]]].
  - rewrite (ret_selector _ _ _ _ Hkey).
    destruct k; cbn [scoring_selector ret_sel]; unfold ret_scoring;
      now rewrite Hall.
  - reflexivity.
  - now rewrite length_map, range_length.
  - intros E. apply (f_equal (@List.length Z)) in E.
    rewrite range_length, indices_where_length in E. lia.
Qed.

End RelationFacts.

(** Two bodies with the directives T1 and T2, and a set that comes out with
    T2 before T1: the names are not in the order of first occurrence. *)
Lemma link_names_order_open :
  @set_order_ok SampleRev
  /\ ~ link_names_as_stated (two_directives SampleRev (0, 0, 0)%Q)
                            "TRANSFLINKEDTOBODY".
Proof.
  split; [exact SampleRev_set_order|].
  intros H. destruct (H STransfLinkedToBody eq_refl eq_refl) as (idx & Hret).
  assert (Hrun : ret (two_directives SampleRev (0, 0, 0)%Q)
                     "TRANSFLINKEDTOBODY" "ALL"
                 = Ok (RRel ["T2"; "T1"] [IOne 1; IOne 0])) by reflexivity.
  rewrite Hrun in Hret.
  apply (f_equal (fun r => match r with
                           | Ok (RRel (n :: _) _) => n
                           | _ => ""
                           end)) in Hret.
  discriminate Hret.
Qed.

Example linked_ALL_two_directives :
  ret (two_directives Sample (0, 0, 0)%Q) "TRANSFLINKEDTOBODY" "ALL"
  = Ok (RRel ["T1"; "T2"] [IOne 0; IOne 1]).
Proof. reflexivity. Qed.

Lemma linked_ALL_each_once_witness :
  exists names idx,
    ret (two_directives Sample (0, 0, 0)%Q) "TRANSFLINKEDTOBODY" "all"
    = Ok (RRel names idx)
    /\ NoDup names
    /\ (forall n, In n names
                  <-> In n (links (two_directives Sample (0, 0, 0)%Q)
                                  STransfLinkedToBody))
    /\ Forall2 (indexes (two_directives Sample (0, 0, 0)%Q)) names idx.
Proof.
  exact (linked_ALL_each_once (two_directives Sample (0, 0, 0)%Q)
           "TRANSFLINKEDTOBODY" "all" STransfLinkedToBody
           Sample_set_order eq_refl eq_refl eq_refl).
Defined.

Example scoring_ALL_two_kinds :
  ret two_kinds "USRYIELD" "ALL" = Ok (RAll ["yield1"] [0; 1; 2]).
Proof. reflexivity. Qed.

Lemma scoring_ALL_indices_witness :
  exists names idx,
    ret two_kinds "USRYIELD" "ALL" = Ok (RAll names idx)
    /\ names = map sName (filter (fun s => ScoKind_eqb (sKind s) Usryield)
                                 (scos two_kinds))
    /\ idx = Py.range (List.length (scos two_kinds))
    /\ (List.length names < List.length idx)%nat
    /\ idx <> indices_where (fun s => ScoKind_eqb (sKind s) Usryield)
                            (scos two_kinds).
Proof.
  apply (scoring_ALL_indices two_kinds Usryield "USRYIELD" "ALL" eq_refl eq_refl).
  exists (@mkScoring Sample "bdx1" "" Usrbdx "").
  split; [now left|discriminate].
Defined.

(** ** The transform composer *)

Section ComposerFacts.
Context {ext : External}.

Lemma set_regs_same (g : Geometry) : set_regs g (regs g) = g.
Proof. now destruct g. Qed.

Lemma set_bins_same (g : Geometry) : set_bins g (bins g) = g.
Proof. now destruct g. Qed.

Lemma replace_nth_snoc {A : Type} (l : list A) (a x : A) :
  replace_nth (List.length l) x (l ++ [a]) = l ++ [x].
Proof. induction l as [|y l IH]; simpl; [reflexivity|now rewrite IH]. Qed.

Lemma find_from_snoc {A : Type} (p : A -> bool) (l : list A) (a : A) :
  (forall x, In x l -> p x = false) -> p a = true ->
  forall s, find_from p s (l ++ [a]) = Some (s + Z.of_nat (List.length l), a).
Proof.
  intros Hl Ha. induction l as [|y l IH]; intros s.
  - simpl. rewrite Ha. do 2 f_equal. lia.
  - cbn [app find_from]. rewrite (Hl y) by now left.
    rewrite IH by (intros x Hx; apply Hl; now right).
    cbn [List.length]. do 2 f_equal. lia.
Qed.

Lemma find_from_absent {A : Type} (p : A -> bool) (l : list A) :
  (forall x, In x l -> p x = false) -> forall s, find_from p s l = None.
Proof.
  intros Hl. induction l as [|y l IH]; intros s; [reflexivity|].
  cbn [find_from]. rewrite (Hl y) by now left.
  apply IH. intros x Hx. apply Hl. now right.
Qed.

(** The lookup of a transformation by a name that does not read "ALL". *)
Lemma ret_transformation (g : Geometry) (myKey name : string) :
  selector_of myKey = Some STransf ->
  is_ALL name = false ->
  ret g myKey name
  = Ok (lookup ETransformation (fun t => String.eqb (tName t) name) (tras g)).
Proof.
  intros Hkey Hall. rewrite (ret_selector _ _ _ _ Hkey).
  cbn [ret_sel]. unfold ret_collection. now rewrite Hall.
Qed.

Lemma name_absent (g : Geometry) (name : string) :
  no_transformation g name ->
  forall t, In t (tras g) -> String.eqb (tName t) name = false.
Proof. intros H t Ht. apply String.eqb_neq. now apply H. Qed.

(** The loop over owners none of which is linked: all of them get linked to
    the new name, and no other name is noted. *)
Lemma link_all_unlinked {A : Type} (link : A -> option string)
  (assign : A -> string -> A) (Tname : string) (l : list A) :
  (forall a, In a l -> link a = None) ->
  link_all link assign Tname l
  = (map (fun a => assign a Tname) l, negb (Nat.eqb (List.length l) 0), []).
Proof.
  unfold link_all. intros Hl.
  assert (G : forall done b,
             fold_left (link_step link assign Tname) l (done, b, [])
             = (done ++ map (fun a => assign a Tname) l,
                b || negb (Nat.eqb (List.length l) 0), [])).
  { induction l as [|a l IH]; intros done b.
    - simpl. now rewrite app_nil_r, orb_false_r.
    - cbn [fold_left link_step]. rewrite (Hl a) by now left.
      rewrite IH by (intros x Hx; apply Hl; now right).
      cbn [map List.length Nat.eqb negb]. rewrite <- app_assoc.
      now rewrite orb_true_r. }
  apply (G [] false).
Qed.

(** The loop over the regions when none is a lattice, and over no USRBIN. *)
Lemma lattice_steps_none (Tname : string) (l : list Region) :
  (forall r, In r l -> lattice r = None) ->
  fold_left (lattice_step Tname) l ([], false, []) = (l, false, []).
Proof.
  intros Hl.
  assert (G : forall done,
             fold_left (lattice_step Tname) l (done, false, [])
             = (done ++ l, false, [])).
  { induction l as [|r l IH]; intros done.
    - simpl. now rewrite app_nil_r.
    - cbn [fold_left]. unfold lattice_step at 2, isLattice.
      rewrite (Hl r) by now left.
      rewrite IH by (intros x Hx; apply Hl; now right).
      now rewrite <- app_assoc. }
  apply (G []).
Qed.

Lemma add_tras (g : Geometry) (t : Transformation) :
  add g (ETransformation t) "tras" = Ok (set_tras g (tras g ++ [t])).
Proof. reflexivity. Qed.

(** Nothing to create and nothing noted: the steps go nowhere. *)
Lemma record_steps_idle (g : Geometry) (Tname : string) (L : list RotDefi)
  (wrap : option (list RotDefi)) (myComment : option string) :
  record_steps g Tname false [] L wrap myComment = Ok g.
Proof. reflexivity. Qed.

(** The transformation is created, takes the steps in reverse order of
    the list and the comment. *)
Lemma record_steps_create (g : Geometry) (Tname : string) (L : list RotDefi)
  (myComment : option string) :
  is_ALL Tname = false ->
  no_transformation g Tname ->
  record_steps g Tname true [] L None myComment
  = Ok (set_tras g
          (tras g ++
             [ {| tName := Tname;
                  tComment := match myComment with Some c => c | None => "" end;
                  ID := Z.of_nat (List.length (tras g)) + 1;
                  RotDefis := rev L |} ])).
Proof.
  intros Hall Habs. unfold record_steps.
  rewrite (ret_transformation g "TRANSF" Tname eq_refl Hall).
  unfold lookup at 1. rewrite find_from_absent by now apply name_absent.
  cbn [bind]. rewrite add_tras. cbn [bind app fold_left]. unfold on_transf.
  set (new := Transformation_new _ Tname).
  assert (Hnew : forall t', tName t' = Tname ->
            lookup ETransformation (fun t => String.eqb (tName t) Tname)
                   (tras g ++ [t'])
            = ROne (ETransformation t') (Z.of_nat (List.length (tras g)))).
  { intros t' Ht'. unfold lookup.
    rewrite find_from_snoc;
      [reflexivity|now apply name_absent|rewrite Ht'; apply String.eqb_refl]. }
  rewrite (ret_transformation _ "transf" Tname eq_refl Hall).
  cbn [tras set_tras]. rewrite (Hnew new eq_refl). cbn [bind].
  rewrite Nat2Z.id, replace_nth_snoc.
  assert (Hsteps : RotDefis (AddRotDefis new L 0) = rev L).
  { unfold AddRotDefis.
    assert (G : forall t, RotDefis (fold_left (fun t' rd => AddRotDefi t' rd 0) L t)
                          = rev L ++ RotDefis t).
    { induction L as [|rd L IH]; intros t; [reflexivity|].
      cbn [fold_left]. rewrite IH. cbn [AddRotDefi RotDefis rev].
      unfold py_insert. cbn [Z.eqb Z.ltb Z.compare].
      rewrite Z.min_l by lia. cbn [Z.to_nat firstn skipn app].
      now rewrite <- app_assoc. }
    rewrite G. cbn [new Transformation_new RotDefis]. apply app_nil_r. }
  assert (Hname : forall L', tName (AddRotDefis new L' 0) = Tname).
  { intros L'. unfold AddRotDefis.
    assert (G : forall t, tName (fold_left (fun t' rd => AddRotDefi t' rd 0) L' t)
                          = tName t).
    { induction L' as [|rd L' IH]; intros t; [reflexivity|].
      cbn [fold_left]. now rewrite IH. }
    now rewrite G. }
  assert (Hrest : forall L', tComment (AddRotDefis new L' 0) = ""
                             /\ ID (AddRotDefis new L' 0) = ID new).
  { intros L'. unfold AddRotDefis.
    assert (G : forall t, tComment (fold_left (fun t' rd => AddRotDefi t' rd 0) L' t)
                          = tComment t
                          /\ ID (fold_left (fun t' rd => AddRotDefi t' rd 0) L' t)
                             = ID t).
    { induction L' as [|rd L' IH]; intros t; [now split|].
      cbn [fold_left]. destruct (IH (AddRotDefi t rd 0)) as [-> ->]. now split. }
    apply G. }
  destruct (Hrest L) as [Hc Hid].
  assert (Hadd : AddRotDefis new L 0
                 = {| tName := Tname; tComment := "";
                      ID := Z.of_nat (List.length (tras g)) + 1;
                      RotDefis := rev L |}).
  { specialize (Hname L).
    destruct (AddRotDefis new L 0) as [n cm i rs].
    cbn [RotDefis tName tComment ID new Transformation_new] in *.
    now subst. }
  rewrite Hadd.
  destruct myComment as [c|]; [|reflexivity].
  rewrite (ret_transformation _ "TRANSF" Tname eq_refl Hall).
  cbn [tras set_tras].
  rewrite (Hnew {| tName := Tname; tComment := "";
                   ID := Z.of_nat (List.length (tras g)) + 1;
                   RotDefis := rev L |} eq_refl).
  cbn [bind]. rewrite Nat2Z.id, replace_nth_snoc. reflexivity.
Qed.

(** C7, as amended. A rotation by zero degrees emits no step: without a
    translation ([dd=None]) the call leaves the whole aggregate as it was. A
    translation by the zero vector is a translation like any other: when the
    bodies take it themselves (no geometry directives), in a geometry
    without lattice regions and without USRBINs (or with the USRBINs left
    out), no transformation and no link is created, regions,
    transformations, USRBINs and scorings stay as they were, and every body
    is handed to [Body.traslate] with the zero vector. *)
Theorem zero_rotation_emits_no_step (g : Geometry) (ax : Z)
  (lDegs lGeoDirs lOnlyGeo lWrapGeo : bool) (myName : string)
  (myComment : option string) :
  solidTrasform g None None (Some (Angle 0%Q)) (Axis ax)
                lDegs lGeoDirs lOnlyGeo lWrapGeo myName myComment = Ok g
  /\ (no_lattice g ->
      lOnlyGeo = true \/ bins g = [] ->
      solidTrasform g (Some Vec3_zero) None (Some (Angle 0%Q)) (Axis ax)
                    lDegs false lOnlyGeo lWrapGeo myName myComment
      = Ok (set_bods g (map (Body_map_shape (Body_traslate Vec3_zero))
                            (bods g)))).
Proof.
  split; [reflexivity|].
  intros Hlat Hbins.
  unfold solidTrasform. cbn [solidTrasform_fuel]. unfold solidTrasform_call.
  change (nonzero 0%Q) with false.
  cbn [bind app List.length Nat.ltb Nat.leb regs set_bods].
  rewrite (lattice_steps_none _ _ Hlat).
  rewrite record_steps_idle. cbn [bind set_regs bods regs tras bins scos title].
  unfold set_regs, set_tras, set_bods, set_bins.
  cbn [bods regs tras bins scos title].
  destruct Hbins as [-> | Hb].
  - reflexivity.
  - rewrite Hb. now destruct lOnlyGeo.
Qed.

End ComposerFacts.

(** One USRBIN without transformation: the zero translation creates the
    transformation "ToFinPos_bin" and links the USRBIN to it. *)
Lemma zero_translation_is_recorded : ~ zero_transform_as_stated one_usrbin.
Proof.
  intros H.
  apply (f_equal (fun r => match r with
                           | Ok g => map tName (tras g)
                           | _ => []
                           end)) in H.
  change (["ToFinPos_bin"] = []) in H. discriminate H.
Qed.

Example zero_translation_one_usrbin :
  solidTrasform one_usrbin (Some Vec3_zero) None (Some (Angle 0%Q)) (Axis 3)
                true false false false "ToFinPos" None
  = Ok (@mkGeometry Sample [] []
          [ {| tName := "ToFinPos_bin"; tComment := ""; ID := 1;
               RotDefis := [RotDefi_tra Vec3_zero] |} ]
          [ {| uName := "dose"; uComment := ""; uDefinition := ["a"; "b"];
               TransfName := "ToFinPos_bin" |} ] [] "one mesh").
Proof. reflexivity. Qed.

Lemma zero_rotation_emits_no_step_witness :
  solidTrasform bodies_B1_B2 (Some Vec3_zero) None (Some (Angle 0%Q)) (Axis 3)
                true false false false "ToFinPos" None
  = Ok (set_bods bodies_B1_B2
          (map (Body_map_shape (Body_traslate Vec3_zero)) (bods bodies_B1_B2))).
Proof.
  apply (proj2 (zero_rotation_emits_no_step bodies_B1_B2 3 true false false
                  false "ToFinPos" None)).
  - intros r [<- | []]; reflexivity.
  - now right.
Defined.

(** ** The gridded geometry builder *)

(** In the branch of the matrices, a later placement of a prototype looks up
    its own location where the branch of the angles looks up the location of
    the first occurrence: the clone does not depend on any other location of
    the grid. *)
Lemma place_matrix_own_location {ext : External}
  (myGrid myGrid' : list Location) (myProtoList : list string)
  (myProtoGeos : list (string * Geometry)) (osRegNames : list string)
  (lLattice : bool) (lTrigScoring : list bool) (lGeoDirs : bool)
  (protoSeen : list (string * Z)) (iLoc : Z) (myLoc : Location) :
  ANGLE myLoc = [] ->
  py_index myGrid iLoc = py_index myGrid' iLoc ->
  place myGrid myProtoList myProtoGeos osRegNames lLattice lTrigScoring
        lGeoDirs protoSeen iLoc myLoc
  = place myGrid' myProtoList myProtoGeos osRegNames lLattice lTrigScoring
          lGeoDirs protoSeen iLoc myLoc.
Proof.
  intros Hangle Hown. unfold place. rewrite Hangle.
  cbn [List.length Nat.ltb Nat.leb]. now rewrite Hown.
Qed.

Lemma two_placements_by_angles : two_placements angle_placement = angle_result.
Proof.
  exact (eq_refl angle_result <: two_placements angle_placement = angle_result).
Qed.

Lemma two_placements_by_matrices :
  two_placements matrix_placement = matrix_result.
Proof.
  exact (eq_refl matrix_result
         <: two_placements matrix_placement = matrix_result).
Qed.

(** The branch of the angles records the delta: the card of the second
    placement amounts to the translation by [-(5,0,0)]. *)
Example lattice_delta_for_angles :
  exists (g0 g1 : @Geometry Sample) r t,
    two_placements angle_placement = Ok [g0; g1]
    /\ bods g1 = [] /\ regs g1 = [r] /\ isLattice r = true
    /\ tras g1 = [t] /\ rTransf r = Some (tName t)
    /\ RotDefis t = [RotDefi_tra (-6, 0, 0)%Q; RotDefi_tra (1, 0, 0)%Q]
    /\ net_translation (RotDefis t) = Vec3_opp (5, 0, 0)%Q.
Proof.
  rewrite two_placements_by_angles. unfold angle_result.
  do 4 eexists. repeat split; reflexivity.
Qed.

(** C2, at two placements given by matrices. The second placement yields a
    single lattice region and no body, but the card of its transformation
    is the translation to the second point and back: it amounts to no
    translation at all, where the delta between the two points is
    (5,0,0). *)
Theorem lattice_delta_lost_for_matrices :
  exists (g0 g1 : @Geometry Sample) r t,
    two_placements matrix_placement = Ok [g0; g1]
    /\ bods g1 = [] /\ regs g1 = [r] /\ isLattice r = true
    /\ tras g1 = [t] /\ rTransf r = Some (tName t)
    /\ RotDefis t = [RotDefi_tra (-6, 0, 0)%Q; RotDefi_tra (6, 0, 0)%Q]
    /\ net_translation (RotDefis t) = Vec3_zero.
Proof.
  rewrite two_placements_by_matrices. unfold matrix_result.
  do 4 eexists. repeat split; reflexivity.
Qed.

(** * Part III: further properties of the code

    Properties of the functions around those of Part II: the state of the
    preprocessor, insertion and lookup, regions and their zones, materials,
    appending and merging, copies, flags, names, the transform composer on
    bodies and meshes, USRBIN cards as text, and the cells of a gridded
    geometry. *)

(** ** The preprocessor over a whole deck *)

Lemma py_set_last_length {A : Type} (l l' : list A) (v : A) :
  py_set_last l v = Ok l' -> List.length l' = List.length l.
Proof.
  intros H. apply py_set_last_Ok in H as (r & a & -> & ->).
  now rewrite !length_app.
Qed.

Lemma py_set_last_head {A : Type} (x : A) (rs : list A) (l' : list A) (v : A) :
  rs <> [] -> py_set_last (x :: rs) v = Ok l' ->
  exists rs', l' = x :: rs' /\ List.length rs' = List.length rs.
Proof.
  intros Hne H. apply py_set_last_Ok in H as (r & a & E & ->).
  destruct r as [|y r].
  - destruct rs; [contradiction|discriminate].
  - injection E as <- ->. exists (r ++ [v]). split; [reflexivity|].
    now rewrite !length_app.
Qed.

Lemma py_pop_head {A : Type} (x : A) (rs : list A) (l' : list A) :
  rs <> [] -> py_pop (x :: rs) = Ok l' ->
  exists rs', l' = x :: rs' /\ S (List.length rs') = List.length rs.
Proof.
  intros Hne H. apply py_pop_Ok in H as (a & E).
  destruct l' as [|y r].
  - destruct rs; [contradiction|discriminate].
  - injection E as <- ->. exists r. split; [reflexivity|].
    rewrite length_app. simpl. lia.
Qed.

Lemma length_nonempty {A B : Type} (l : list A) (l' : list B) (b : B) :
  List.length l = List.length (l' ++ [b]) -> l <> [].
Proof. rewrite length_app. simpl. destruct l; [simpl; lia|discriminate]. Qed.

(** Reading the outcome of a sequence of fallible steps. *)
Lemma bind_Ok {A B : Type} (m : outcome A) (f : A -> outcome B) (b : B) :
  bind m f = Ok b -> exists a, m = Ok a /\ f a = Ok b.
Proof. destruct m; simpl; intros H; try discriminate. now exists a. Qed.

Lemma stack_top {A : Type} (x : A) (rs r : list A) (a : A) :
  x :: rs = r ++ [a] -> rs <> [] ->
  exists r', r = x :: r' /\ rs = r' ++ [a].
Proof.
  intros E Hne. destruct r as [|y r].
  - destruct rs; [contradiction|discriminate].
  - injection E as <- ->. now exists r.
Qed.

Lemma preproc_line_keeps (st st' : PreProc) (line : string) (go : bool) :
  stacks_ok st -> preproc_line st line = Ok (st', go) -> stacks_ok st'.
Proof.
  intros [(rs & Hr & Hlen) Hnd] H. unfold preproc_line in H.
  destruct (Py.startswith line "#define").
  { destruct (_ <? _)%nat; [discriminate|].
    apply bind_Ok in H as (name & _ & [= <- _]).
    split; [now exists rs|]. simpl.
    destruct (Py.mem name (defineFlags st)) eqn:E; [assumption|].
    apply NoDup_snoc; [assumption|]. intros Hin. apply mem_In in Hin. congruence. }
  destruct (Py.startswith line "#if").
  { apply bind_Ok in H as (name & _ & [= <- _]).
    split; [|assumption]. simpl. rewrite Hr.
    exists (rs ++ [Py.mem name (defineFlags st)]). split; [reflexivity|].
    rewrite !length_app. simpl. lia. }
  destruct (Py.startswith line "#elif").
  { apply bind_Ok in H as (name & _ & H).
    apply bind_Ok in H as (reads & Hreads & H).
    apply bind_Ok in H as (seen & Hseen & H).
    apply bind_Ok in H as (elses & Helses & [= <- _]).
    apply py_set_last_Ok in Hreads as (r & a & Er & ->).
    apply py_set_last_Ok in Helses as (e & b & Ee & ->).
    split; [|assumption]. simpl.
    rewrite Ee in Hlen. rewrite Hr in Er.
    destruct (stack_top _ _ _ _ Er (length_nonempty _ _ _ Hlen)) as (r' & -> & ->).
    exists (r' ++ [Py.mem name (defineFlags st)]). split; [reflexivity|].
    rewrite !length_app in *. simpl in *. lia. }
  destruct (Py.startswith line "#else").
  { apply bind_Ok in H as (seen & Hseen & H).
    apply bind_Ok in H as (reads & Hreads & [= <- _]).
    apply py_set_last_Ok in Hreads as (r & a & Er & ->).
    apply py_last_Ok in Hseen as (e & Ee).
    split; [|assumption]. simpl.
    rewrite Ee in Hlen. rewrite Hr in Er.
    destruct (stack_top _ _ _ _ Er (length_nonempty _ _ _ Hlen)) as (r' & -> & ->).
    exists (r' ++ [negb seen]). split; [reflexivity|].
    rewrite Ee. rewrite !length_app in *. simpl in *. lia. }
  destruct (Py.startswith line "#end").
  { apply bind_Ok in H as (reads & Hreads & H).
    apply bind_Ok in H as (elses & Helses & [= <- _]).
    apply py_pop_Ok in Hreads as (a & Er).
    apply py_pop_Ok in Helses as (b & Ee).
    split; [|assumption]. simpl.
    rewrite Ee in Hlen. rewrite Hr in Er.
    destruct (stack_top _ _ _ _ Er (length_nonempty _ _ _ Hlen)) as (r' & -> & ->).
    exists r'. split; [reflexivity|].
    rewrite !length_app in *. simpl in *. lia. }
  injection H as <- _. split; [now exists rs|assumption].
Qed.

(** X1. The state of the preprocessor after any number of lines of a deck
    that the loop has read without failing: [lReads] still holds [True] at
    the bottom, [lReads] is one entry longer than [lElse], and no name is
    held twice in [defineFlags]. *)
Theorem preproc_state_stacks (lines : list string) (st : PreProc) :
  preproc_state PreProc_init lines = Ok st ->
  (exists rs, lReads st = true :: rs
              /\ List.length rs = List.length (lElse st))
  /\ NoDup (defineFlags st).
Proof.
  assert (Hgen : forall st0, stacks_ok st0 ->
                             preproc_state st0 lines = Ok st -> stacks_ok st).
  { induction lines as [|l rest IH]; intros st0 H0 H.
    - now injection H as <-.
    - cbn [preproc_state] in H.
      apply bind_Ok in H as ([st1 go] & H1 & H).
      apply (IH st1); [|assumption].
      now apply (preproc_line_keeps st0 st1 l go). }
  apply Hgen. split; [|constructor].
  now exists [].
Qed.

Lemma preproc_state_stacks_witness :
  (exists rs, lReads {| defineFlags := ["A"]; lReads := [true; false];
                        lElse := [true] |} = true :: rs
              /\ List.length rs = 1%nat)
  /\ NoDup ["A"].
Proof.
  exact (preproc_state_stacks ["#define A"; "#if A"; "#define A"; "#else"]
           {| defineFlags := ["A"]; lReads := [true; false]; lElse := [true] |}
           eq_refl).
Defined.

(** An index or the last place of a list yields a value or an exception,
    never the end of the run. *)
Lemma py_index_total {A : Type} (l : list A) (i : Z) :
  (exists a, py_index l i = Ok a) \/ py_index l i = Raise.
Proof.
  unfold py_index. destruct (_ || _); [now right|].
  destruct (nth_error _ _) as [a|]; [left; now exists a|now right].
Qed.

Lemma py_set_last_total {A : Type} (l : list A) (v : A) :
  (exists l', py_set_last l v = Ok l') \/ py_set_last l v = Raise.
Proof.
  unfold py_set_last. destruct (rev l) as [|a r]; [now right|].
  left. now eexists.
Qed.

(** X2. With no block open, a line that starts with [#elif], [#else] or
    [#end] ends the run with an exception: the loop reaches for the top of
    the empty list [lElse]. *)
Theorem preproc_unbalanced_raises (st : PreProc) (line : string) :
  lElse st = [] ->
  Py.startswith line "#elif" = true \/ Py.startswith line "#else" = true
  \/ Py.startswith line "#end" = true ->
  preproc_line st line = Raise.
Proof.
  intros He H. unfold preproc_line.
  destruct H as [H | [H | H]].
  - destruct (startswith_elif _ H) as (-> & ->). rewrite H, He.
    destruct (py_index_total (Py.split_ws line) 1) as [[name ->] | ->];
      [|reflexivity]. cbn [bind].
    destruct (py_set_last_total (lReads st) (Py.mem name (defineFlags st)))
      as [[reads ->] | ->]; reflexivity.
  - destruct (startswith_else _ H) as (-> & -> & ->). now rewrite H, He.
  - destruct (startswith_end _ H) as (-> & -> & -> & ->). rewrite H, He.
    unfold py_pop at 1. destruct (rev (lReads st)); reflexivity.
Qed.

Lemma preproc_unbalanced_raises_witness :
  preproc_line PreProc_init "#endif" = Raise.
Proof.
  apply preproc_unbalanced_raises; [reflexivity|]. right. right. reflexivity.
Defined.

(** Lines that are no directives pass or are left out all together, and the
    state stays as it is. *)
Lemma active_lines_text (st : PreProc) (xs rest : list string) :
  Forall (fun l => is_directive l = false) xs ->
  active_lines st (xs ++ rest)
  = (more <- active_lines st rest ;;
     Ok ((if py_all (lReads st) then xs else []) ++ more)).
Proof.
  induction 1 as [|x xs Hx Hxs IH].
  - simpl. destruct (active_lines st rest); try reflexivity.
    cbn [bind]. now destruct (py_all _).
  - cbn [app active_lines].
    assert (Hline : preproc_line st x = Ok (st, py_all (lReads st))).
    { unfold is_directive in Hx. cbn [existsb] in Hx.
      repeat (apply orb_false_elim in Hx as [? Hx]).
      unfold preproc_line.
      repeat match goal with H : Py.startswith x _ = false |- _ =>
               rewrite H; clear H end.
      reflexivity. }
    rewrite Hline. cbn [bind]. rewrite IH.
    destruct (active_lines st rest); try reflexivity.
    cbn [bind]. now destruct (py_all _).
Qed.

Lemma py_all_snoc (l : list bool) (b : bool) :
  py_all (l ++ [b]) = py_all l && b.
Proof.
  unfold py_all. rewrite forallb_app. simpl. now rewrite andb_true_r.
Qed.

(** X3. A block [#if A] .. [#elif B] .. [#else] .. [#end] met where lines
    are being read: the lines after [#if A] pass when [A] is defined; the
    lines after [#elif B] pass when [B] is defined, whether or not [A] is;
    the lines after [#else] pass when neither is. After the block the loop
    is in the state in which it met it. *)
Theorem three_branches_read (st : PreProc) (l_if l_elif l_else l_end A B : string)
  (xs ys zs rest : list string) :
  py_all (lReads st) = true ->
  Py.startswith l_if "#if" = true ->
  nth_error (Py.split_ws l_if) 1 = Some A ->
  Py.startswith l_elif "#elif" = true ->
  nth_error (Py.split_ws l_elif) 1 = Some B ->
  Py.startswith l_else "#else" = true ->
  Py.startswith l_end "#end" = true ->
  Forall (fun l => is_directive l = false) (xs ++ ys ++ zs) ->
  active_lines st (three_branches l_if l_elif l_else l_end xs ys zs ++ rest)
  = (more <- active_lines st rest ;;
     Ok ((if Py.mem A (defineFlags st) then xs else [])
           ++ (if Py.mem B (defineFlags st) then ys else [])
           ++ (if Py.mem A (defineFlags st) || Py.mem B (defineFlags st)
               then [] else zs)
           ++ more)).
Proof.
  intros Hall Hif HA Helif HB Helse Hend Htext.
  apply Forall_app in Htext as [Hxs Htext].
  apply Forall_app in Htext as [Hys Hzs].
  unfold three_branches. rewrite <- !app_assoc.
  set (a := Py.mem A (defineFlags st)). set (b := Py.mem B (defineFlags st)).
  (* #if *)
  assert (H1 : preproc_line st l_if
               = Ok ({| defineFlags := defineFlags st;
                        lReads := lReads st ++ [a];
                        lElse := lElse st ++ [a] |}, false)).
  { unfold preproc_line. rewrite (startswith_if _ Hif), Hif.
    rewrite (py_index_nth _ 1), HA. reflexivity. }
  cbn [app active_lines]. rewrite H1. cbn [bind].
  rewrite (active_lines_text _ xs _ Hxs). cbn [lReads].
  rewrite py_all_snoc, Hall. cbn [andb].
  (* #elif *)
  assert (H2 : preproc_line {| defineFlags := defineFlags st;
                               lReads := lReads st ++ [a];
                               lElse := lElse st ++ [a] |} l_elif
               = Ok ({| defineFlags := defineFlags st;
                        lReads := lReads st ++ [b];
                        lElse := lElse st ++ [a || b] |}, false)).
  { unfold preproc_line.
    destruct (startswith_elif _ Helif) as (-> & ->). rewrite Helif.
    rewrite (py_index_nth _ 1), HB. cbn [bind defineFlags lReads lElse].
    rewrite py_set_last_snoc. cbn [bind]. rewrite py_last_snoc. cbn [bind].
    now rewrite py_set_last_snoc. }
  cbn [app active_lines]. rewrite H2. cbn [bind].
  rewrite (active_lines_text _ ys _ Hys). cbn [lReads].
  rewrite py_all_snoc, Hall. cbn [andb].
  (* #else *)
  assert (H3 : preproc_line {| defineFlags := defineFlags st;
                               lReads := lReads st ++ [b];
                               lElse := lElse st ++ [a || b] |} l_else
               = Ok ({| defineFlags := defineFlags st;
                        lReads := lReads st ++ [negb (a || b)];
                        lElse := lElse st ++ [a || b] |}, false)).
  { unfold preproc_line.
    destruct (startswith_else _ Helse) as (-> & -> & ->). rewrite Helse.
    cbn [bind defineFlags lReads lElse].
    rewrite py_last_snoc. cbn [bind]. now rewrite py_set_last_snoc. }
  cbn [app active_lines]. rewrite H3. cbn [bind].
  rewrite (active_lines_text _ zs _ Hzs). cbn [lReads].
  rewrite py_all_snoc, Hall. cbn [andb].
  (* #end *)
  assert (H4 : preproc_line {| defineFlags := defineFlags st;
                               lReads := lReads st ++ [negb (a || b)];
                               lElse := lElse st ++ [a || b] |} l_end
               = Ok (st, false)).
  { unfold preproc_line.
    destruct (startswith_end _ Hend) as (-> & -> & -> & ->). rewrite Hend.
    cbn [bind defineFlags lReads lElse].
    rewrite py_pop_snoc. cbn [bind]. rewrite py_pop_snoc. cbn [bind].
    now destruct st. }
  cbn [app active_lines]. rewrite H4. cbn [bind].
  destruct (active_lines st rest) as [more| |]; cbn [bind]; try reflexivity.
  f_equal. destruct a, b; cbn [orb negb app]; now rewrite ?app_nil_r, ?app_assoc.
Qed.

Lemma three_branches_read_witness :
  active_lines {| defineFlags := ["A"; "B"]; lReads := [true]; lElse := [] |}
    (three_branches "#if A" "#elif B" "#else" "#endif" ["x"] ["y"] ["z"] ++ ["w"])
  = Ok ["x"; "y"; "w"].
Proof.
  apply (three_branches_read
           {| defineFlags := ["A"; "B"]; lReads := [true]; lElse := [] |}
           "#if A" "#elif B" "#else" "#endif" "A" "B" ["x"] ["y"] ["z"] ["w"]);
    try reflexivity.
  repeat constructor.
Defined.

(** ** Insertion and lookup *)

Section InsertionFacts.
Context {ext : External}.

Lemma find_from_app {A : Type} (p : A -> bool) (l : list A) (a : A) :
  forall s,
    find_from p s (l ++ [a])
    = match find_from p s l with
      | Some x => Some x
      | None => if p a then Some (s + Z.of_nat (List.length l), a) else None
      end.
Proof.
  induction l as [|x l IH]; intros s.
  - cbn [app find_from List.length]. now rewrite Z.add_0_r.
  - cbn [app find_from]. destruct (p x); [reflexivity|].
    rewrite IH. destruct (find_from p (s + 1) l); [reflexivity|].
    destruct (p a); [|reflexivity]. cbn [List.length]. do 2 f_equal. lia.
Qed.

Lemma find_from_exists {A : Type} (p : A -> bool) (l : list A) (s : Z) :
  (exists a, In a l /\ p a = true) ->
  exists k a, find_from p s l = Some (k, a) /\ In a l /\ p a = true.
Proof.
  intros (a & Ha & Hp).
  destruct (find_from p s l) as [[k b]|] eqn:E.
  - exists k, b. split; [reflexivity|].
    apply find_from_Some in E as (n & _ & Hn & Hb & _).
    split; [now apply nth_error_In in Hn|exact Hb].
  - rewrite (find_from_None _ _ _ E a Ha) in Hp. discriminate.
Qed.

Lemma lookup_app {A : Type} (inj : A -> Entity) (p : A -> bool) (l : list A)
  (a : A) :
  lookup inj p (l ++ [a])
  = match lookup inj p l with
    | RNone => if p a then ROne (inj a) (Z.of_nat (List.length l)) else RNone
    | r => r
    end.
Proof.
  unfold lookup. rewrite find_from_app.
  destruct (find_from p 0 l) as [[k b]|]; [reflexivity|].
  now destruct (p a).
Qed.

Lemma range_snoc (n : nat) : Py.range (S n) = Py.range n ++ [Z.of_nat n].
Proof. unfold Py.range. now rewrite seq_S, map_app. Qed.

Lemma ret_collection_app {A : Type} (inj : A -> Entity) (name : A -> string)
  (l : list A) (a : A) (myValue : string) :
  ret_collection inj name (l ++ [a]) myValue
  = match ret_collection inj name l myValue with
    | RNone => if String.eqb (name a) myValue
               then ROne (inj a) (Z.of_nat (List.length l)) else RNone
    | RAll names idx => RAll (names ++ [name a]) (idx ++ [Z.of_nat (List.length l)])
    | r => r
    end.
Proof.
  unfold ret_collection. destruct (is_ALL myValue).
  - rewrite map_app, length_app. cbn [List.length map].
    now rewrite Nat.add_1_r, range_snoc.
  - rewrite lookup_app. unfold lookup.
    destruct (find_from _ 0 l) as [[k b]|]; reflexivity.
Qed.

(** The lookup in the collection of an entity goes through one pass of the
    chain and needs no call of [ret] by itself. *)
Lemma ret_of_collection (g : Geometry) (e : Entity) (myValue : string) :
  ret g (collection_key e) myValue
  = Ok (match e with
        | EBody _ => ret_collection EBody bName (bods g) myValue
        | ERegion _ => ret_collection ERegion rName (regs g) myValue
        | ETransformation _ => ret_collection ETransformation tName (tras g) myValue
        | EUsrbin _ => ret_collection EUsrbin uName (bins g) myValue
        | EScoring _ => ret_collection EScoring sName (scos g) myValue
        end).
Proof. destruct e; reflexivity. Qed.

Lemma ret_collection_grows {A : Type} (inj : A -> Entity) (name : A -> string)
  (l : list A) (a : A) :
  (forall names idx,
      ret_collection inj name l "ALL" = RAll names idx ->
      ret_collection inj name (l ++ [a]) "ALL"
      = RAll (names ++ [name a]) (idx ++ [Z.of_nat (List.length names)]))
  /\ (forall v e' i,
         ret_collection inj name l v = ROne e' i ->
         ret_collection inj name (l ++ [a]) v = ROne e' i)
  /\ (ret_collection inj name l (name a) = RNone ->
      ret_collection inj name (l ++ [a]) (name a)
      = ROne (inj a) (Z.of_nat (List.length l))).
Proof.
  repeat split.
  - intros names idx H. rewrite ret_collection_app, H.
    unfold ret_collection in H. change (is_ALL "ALL") with true in H.
    cbv iota in H. injection H as <- _. now rewrite length_map.
  - intros v e' i H. now rewrite ret_collection_app, H.
  - intros H. now rewrite ret_collection_app, H, String.eqb_refl.
Qed.

(** X4. Adding an entity and looking it up. The entity goes to the end of its
    collection. With "ALL" the lookup then gives the names and the indices
    it gave before, followed by the new name and the next index; a name that
    was found before is found as before, at the same index; the name of the
    new entity, when it was not found before, is found at the new entity, at
    the index that is the number of entities held before. *)
Theorem add_then_ret (g : Geometry) (e : Entity) :
  exists g',
    add g e (collection_key e) = Ok g'
    /\ (forall names idx,
          ret g (collection_key e) "ALL" = Ok (RAll names idx) ->
          ret g' (collection_key e) "ALL"
          = Ok (RAll (names ++ [entity_name e])
                     (idx ++ [Z.of_nat (List.length names)])))
    /\ (forall name e' i,
          ret g (collection_key e) name = Ok (ROne e' i) ->
          ret g' (collection_key e) name = Ok (ROne e' i))
    /\ (ret g (collection_key e) (entity_name e) = Ok RNone ->
        ret g' (collection_key e) (entity_name e)
        = Ok (ROne e (Z.of_nat (List.length
                                  (entities g (collection_selector e)))))).
Proof.
  destruct e as [b|r|t|u|s].
  - exists (set_bods g (bods g ++ [b])). split; [reflexivity|].
    destruct (ret_collection_grows EBody bName (bods g) b) as (H1 & H2 & H3).
    cbn [entities collection_selector entity_name]. rewrite length_map.
    repeat split; intros; rewrite ret_of_collection in *;
      cbn [bods set_bods]; f_equal; auto; [apply H1|apply H2|apply H3];
      congruence.
  - exists (set_regs g (regs g ++ [r])). split; [reflexivity|].
    destruct (ret_collection_grows ERegion rName (regs g) r) as (H1 & H2 & H3).
    cbn [entities collection_selector entity_name]. rewrite length_map.
    repeat split; intros; rewrite ret_of_collection in *;
      cbn [regs set_regs]; f_equal; auto; [apply H1|apply H2|apply H3];
      congruence.
  - exists (set_tras g (tras g ++ [t])). split; [reflexivity|].
    destruct (ret_collection_grows ETransformation tName (tras g) t)
      as (H1 & H2 & H3).
    cbn [entities collection_selector entity_name]. rewrite length_map.
    repeat split; intros; rewrite ret_of_collection in *;
      cbn [tras set_tras]; f_equal; auto; [apply H1|apply H2|apply H3];
      congruence.
  - exists (set_bins g (bins g ++ [u])). split; [reflexivity|].
    destruct (ret_collection_grows EUsrbin uName (bins g) u) as (H1 & H2 & H3).
    cbn [entities collection_selector entity_name]. rewrite length_map.
    repeat split; intros; rewrite ret_of_collection in *;
      cbn [bins set_bins]; f_equal; auto; [apply H1|apply H2|apply H3];
      congruence.
  - exists (set_scos g (scos g ++ [s])). split; [reflexivity|].
    destruct (ret_collection_grows EScoring sName (scos g) s) as (H1 & H2 & H3).
    cbn [entities collection_selector entity_name]. rewrite length_map.
    repeat split; intros; rewrite ret_of_collection in *;
      cbn [scos set_scos]; f_equal; auto; [apply H1|apply H2|apply H3];
      congruence.
Qed.

Lemma find_found (g : Geometry) (sel : Selector) (name : string) :
  (exists e, In e (entities g sel) /\ matches sel name e = true) ->
  forall A (inj : A -> Entity) (p : A -> bool) (l : list A),
    entities g sel = map inj l ->
    (forall a, matches sel name (inj a) = p a) ->
    exists k a, find_from p 0 l = Some (k, a).
Proof.
  intros (e & He & Hm) A inj p l El Hp.
  rewrite El in He. apply in_map_iff in He as (a & <- & Ha).
  destruct (find_from_exists p l 0) as (k & b & E & _).
  - exists a. split; [assumption|]. now rewrite <- Hp.
  - now exists k, b.
Qed.

(** The lookup of a transformation by name, one call deep or two. *)
Lemma ret_transf_shallow (g : Geometry) (n : string) :
  exists r, ret_fuel 2 g "transf" n = Ok r
            /\ match r with RRel _ _ => False | _ => True end.
Proof.
  exists (ret_collection ETransformation tName (tras g) n).
  split; [reflexivity|]. unfold ret_collection, lookup.
  destruct (is_ALL n); [exact I|].
  now destruct (find_from _ 0 (tras g)) as [[k t]|].
Qed.

(** X5. The relations "transformation linked to a body / lattice / USRBIN"
    asked for the name of an owner that the geometry holds: the call
    returns the pair [(None,-1)], whether the owner is linked or not and
    whether its transformation exists or not. *)
Theorem ret_link_of_owner (g : Geometry) (myKey name : string) (sel : Selector) :
  selector_of myKey = Some sel ->
  is_link sel = true ->
  is_ALL name = false ->
  (exists e, In e (entities g sel) /\ matches sel name e = true) ->
  ret g myKey name = Ok RNone.
Proof.
  intros Hkey Hsel Hall Hex. rewrite (ret_selector _ _ _ _ Hkey).
  assert (Htr : forall n,
             (r' <- ret_fuel 2 g "transf" n ;;
              match r' with RNone => Ok r' | _ => Ok RNone end) = Ok RNone).
  { intros n. destruct (ret_transf_shallow g n) as (r & -> & _).
    now destruct r. }
  destruct sel; try discriminate Hsel; cbn [ret_sel]; unfold ret_linked;
    rewrite Hall.
  - change (ret_fuel 2 g "body" name)
      with (Ok (ret_collection EBody bName (bods g) name)).
    unfold ret_collection, lookup. rewrite Hall.
    destruct (find_found g _ name Hex _ EBody
                (fun b => String.eqb (bName b) name) (bods g) eq_refl
                (fun b => eq_refl)) as (k & b & ->).
    cbn [bind entity_link]. destruct (bTransf b) as [n|]; [apply Htr|reflexivity].
  - change (ret_fuel 2 g "lat" name)
      with (if is_ALL name
            then Ok (RAll (linked_names lattice (regs g))
                          (indices_where isLattice (regs g)))
            else Ok (lookup ERegion (fun r => opt_eqb (lattice r) name)
                            (regs g))).
    unfold lookup. rewrite Hall.
    destruct (find_found g _ name Hex _ ERegion
                (fun r => opt_eqb (lattice r) name) (regs g) eq_refl
                (fun r => eq_refl)) as (k & r & ->).
    cbn [bind entity_link]. destruct (rTransf r) as [n|]; [apply Htr|reflexivity].
  - change (ret_fuel 2 g "usrbin" name)
      with (Ok (ret_collection EUsrbin uName (bins g) name)).
    unfold ret_collection, lookup. rewrite Hall.
    destruct (find_found g _ name Hex _ EUsrbin
                (fun u => String.eqb (uName u) name) (bins g) eq_refl
                (fun u => eq_refl)) as (k & u & ->).
    cbn [bind entity_link]. destruct (Usrbin_link u) as [n|]; [apply Htr|reflexivity].
Qed.

End InsertionFacts.

Lemma add_then_ret_witness :
  exists g',
    add (two_directives Sample (0, 0, 0)%Q)
        (ETransformation (Transformation_new 3 "T3")) "TRANSF" = Ok g'
    /\ ret g' "TRANSF" "T3"
       = Ok (ROne (ETransformation (Transformation_new 3 "T3")) 2).
Proof.
  destruct (add_then_ret (two_directives Sample (0, 0, 0)%Q)
              (ETransformation (Transformation_new 3 "T3")))
    as (g' & Hadd & _ & _ & Hnew).
  exists g'. split; [exact Hadd|]. exact (Hnew eq_refl).
Defined.

Lemma ret_link_of_owner_witness :
  ret (two_directives Sample (0, 0, 0)%Q) "TRANSFLINKEDTOBODY" "B1" = Ok RNone.
Proof.
  apply (ret_link_of_owner _ _ _ STransfLinkedToBody); try reflexivity.
  eexists. split; [left; reflexivity|reflexivity].
Defined.

(** ** The bodies of a region *)

Section BodiesOfRegions.
Context {ext : External}.

Lemma mapM_Ok {A B : Type} (f : A -> outcome B) (l : list A) :
  (forall a, In a l -> exists b, f a = Ok b) ->
  exists bs, mapM f l = Ok bs /\ List.length bs = List.length l.
Proof.
  induction l as [|a l IH]; intros H.
  - now exists [].
  - destruct (H a (or_introl eq_refl)) as (b & Hb).
    destruct IH as (bs & Hbs & Hlen); [intros x Hx; apply H; now right|].
    exists (b :: bs). cbn [mapM]. rewrite Hb. cbn [bind]. rewrite Hbs.
    split; [reflexivity|]. cbn [List.length]. now rewrite Hlen.
Qed.

(** The index of a body by name never fails. *)
Lemma body_index (fuel : nat) (g : Geometry) (findBod : string) :
  exists i, (r' <- ret_fuel (S fuel) g "bod" findBod ;; index_of r') = Ok i.
Proof.
  change (ret_fuel (S fuel) g "bod" findBod)
    with (Ok (ret_collection EBody bName (bods g) findBod)).
  cbn [bind]. unfold ret_collection, lookup.
  destruct (is_ALL findBod); [now eexists|].
  destruct (find_from _ 0 (bods g)) as [[k b]|]; now eexists.
Qed.

(** The bodies of one region, asked for by the name of the region. *)
Lemma bodies_of_region (fuel : nat) (g : Geometry) (name : string) (r : Region) (i : Z) :
  is_ALL name = false ->
  find_from (fun r => String.eqb (rName r) name) 0 (regs g) = Some (i, r) ->
  exists idx,
    ret_fuel (S (S fuel)) g "BodsInReg" name = Ok (RRel (retBodiesInDef r) idx)
    /\ List.length idx = List.length (retBodiesInDef r)
    /\ mapM (fun findBod => r' <- ret g "bod" findBod ;; index_of r')
            (retBodiesInDef r) = Ok idx.
Proof.
  intros Hall Hfind.
  destruct (mapM_Ok (fun findBod => r' <- ret_fuel (S fuel) g "bod" findBod ;;
                                    index_of r')
                    (retBodiesInDef r)) as (idx & Hidx & Hlen).
  { intros a _. apply body_index. }
  exists idx. split; [|split; [exact Hlen|exact Hidx]].
  change (ret_fuel (S (S fuel)) g "BodsInReg" name)
    with (ret_sel (ret_fuel (S fuel) g) g SBodsInReg name).
  cbn [ret_sel]. rewrite Hall.
  change (ret_fuel (S fuel) g "reg" name)
    with (Ok (ret_collection ERegion rName (regs g) name)).
  unfold ret_collection, lookup. rewrite Hall, Hfind. cbn [bind].
  now rewrite Hidx.
Qed.

(** X6. The bodies of a region, asked for by the name of the region. For a
    region that the geometry holds, the call returns the names of the bodies
    in the definition of the first region of this name and, for every name,
    what the lookup of the body gives as index. For a name that no region
    has, the call dies on the missing region; it neither returns the pair
    [(None,-1)] nor ends the run in order. *)
Theorem ret_bodies_in_region (g : Geometry) (myKey name : string) :
  selector_of myKey = Some SBodsInReg ->
  is_ALL name = false ->
  (unmatched g SReg name -> ret g myKey name = Raise)
  /\ (forall i r,
         first_match g SReg name i (ERegion r) ->
         exists idx,
           ret g myKey name = Ok (RRel (retBodiesInDef r) idx)
           /\ mapM (fun findBod => r' <- ret g "bod" findBod ;; index_of r')
                   (retBodiesInDef r) = Ok idx).
Proof.
  intros Hkey Hall. rewrite (ret_selector _ _ _ _ Hkey).
  destruct (ret_sel_collection (ret_fuel 1 g) g SReg name eq_refl Hall)
    as [Hnone Hone].
  split.
  - intros Hun. cbn [ret_sel]. rewrite Hall.
    change (ret_fuel 2 g "reg" name) with (ret_sel (ret_fuel 1 g) g SReg name).
    now rewrite (Hnone Hun).
  - intros i r Hfirst.
    destruct (mapM_Ok (fun findBod => r' <- ret_fuel 2 g "bod" findBod ;;
                                      index_of r')
                      (retBodiesInDef r)) as (idx & Hidx & Hlen).
    { intros a _. apply body_index. }
    exists idx. split; [|exact Hidx].
    cbn [ret_sel]. rewrite Hall.
    change (ret_fuel 2 g "reg" name) with (ret_sel (ret_fuel 1 g) g SReg name).
    rewrite (Hone _ _ Hfirst). cbn [bind]. now rewrite Hidx.
Qed.

(** X7. The bodies of all regions: with "ALL" the lists that the call
    collects are dropped, and the pair [(None,-1)] is returned, whatever the
    regions hold. No region may have a name that reads "ALL". *)
Theorem ret_bodies_in_all_regions (g : Geometry) (myKey myValue : string) :
  selector_of myKey = Some SBodsInReg ->
  is_ALL myValue = true ->
  (forall r, In r (regs g) -> is_ALL (rName r) = false) ->
  ret g myKey myValue = Ok RNone.
Proof.
  intros Hkey Hall Hnames. rewrite (ret_selector _ _ _ _ Hkey).
  cbn [ret_sel]. rewrite Hall.
  change (ret_fuel 2 g "reg" "ALL")
    with (Ok (ret_collection ERegion rName (regs g) "ALL")).
  unfold ret_collection. change (is_ALL "ALL") with true. cbv iota. cbn [bind].
  destruct (mapM_Ok
              (fun findReg =>
                 r' <- ret_fuel 2 g "BodsInReg" findReg ;;
                 match r' with
                 | RRel tmpEl tmpInd => Ok (tmpEl, tmpInd)
                 | RAll _ _ => Raise
                 | _ => Raise
                 end) (map rName (regs g))) as (l & -> & _); [|reflexivity].
  intros findReg Hin. apply in_map_iff in Hin as (r & <- & Hr).
  destruct (find_from_exists (fun r' => String.eqb (rName r') (rName r))
                             (regs g) 0) as (k & r0 & Hfind & _).
  { exists r. split; [assumption|apply String.eqb_refl]. }
  destruct (bodies_of_region 0 g (rName r) r0 k (Hnames r Hr) Hfind)
    as (idx & -> & _).
  now eexists.
Qed.

End BodiesOfRegions.

Lemma ret_bodies_in_region_witness :
  exists idx,
    ret bodies_B1_B2 "BODSINREG" "R1"
    = Ok (RRel (retBodiesInDef (Region_set_def (Region_new "R1") "+B1 -B2" 5%Q))
               idx)
    /\ mapM (fun findBod => r' <- ret bodies_B1_B2 "bod" findBod ;; index_of r')
            (retBodiesInDef (Region_set_def (Region_new "R1") "+B1 -B2" 5%Q))
       = Ok idx.
Proof.
  destruct (ret_bodies_in_region bodies_B1_B2 "BODSINREG" "R1" eq_refl eq_refl)
    as [_ H].
  apply (H 0%nat). repeat split.
  intros j e' Hj. inversion Hj.
Defined.

Example bodies_in_region_R1 :
  ret bodies_B1_B2 "BODSINREG" "R1" = Ok (RRel ["B1"; "B2"] [IOne 0; IOne 1]).
Proof. reflexivity. Qed.

Lemma ret_bodies_in_all_regions_witness :
  ret bodies_B1_B2 "BODSINREG" "all" = Ok RNone.
Proof.
  apply ret_bodies_in_all_regions; try reflexivity.
  intros r [<- | []]. reflexivity.
Defined.

(** ** Zones and bodies of a region *)

Lemma forallb_chars_app (p : ascii -> bool) (a b : string) :
  forallb p (chars (a +++ b)) = forallb p (chars a) && forallb p (chars b).
Proof.
  induction a as [|c a IH]; [reflexivity|].
  cbn [String.append chars list_ascii_of_string forallb].
  unfold chars in IH. now rewrite IH, andb_assoc.
Qed.

(** The pieces of [s.split()] hold no blank and are not empty. *)
Lemma split_ws_from_tokens (s : string) :
  forall cur,
    forallb (fun c => negb (Py.is_space c)) (chars cur) = true ->
    Forall (fun t => t <> "" /\ forall c, In c (chars t) ->
                                          Py.is_space c = false
                                          /\ In c (chars (cur +++ s)))
           (Py.split_ws_from cur s).
Proof.
  induction s as [|c s IH]; intros cur Hcur.
  - cbn [Py.split_ws_from]. destruct cur as [|x cur]; [constructor|].
    constructor; [|constructor]. split; [discriminate|].
    intros c Hc. split.
    + rewrite forallb_forall in Hcur. apply Hcur in Hc.
      now apply negb_true_iff in Hc.
    + now rewrite sapp_nil_r.
  - cbn [Py.split_ws_from]. destruct (Py.is_space c) eqn:Ec.
    + assert (Hrest : Forall (fun t => t <> "" /\ forall c0, In c0 (chars t) ->
                                Py.is_space c0 = false
                                /\ In c0 (chars (cur +++ String c s)))
                             (Py.split_ws_from "" s)).
      { eapply Forall_impl; [|apply (IH ""); reflexivity].
        intros t [Hne Ht]. split; [assumption|]. intros c0 Hc0.
        destruct (Ht _ Hc0) as [Hs Hin]. split; [assumption|].
        unfold chars in *. clear - Hin. induction cur as [|x cur IHc].
        - now right.
        - now right. }
      destruct cur as [|x cur]; [exact Hrest|].
      constructor; [|exact Hrest]. split; [discriminate|].
      intros c0 Hc0. split.
      * rewrite forallb_forall in Hcur. apply Hcur in Hc0.
        now apply negb_true_iff in Hc0.
      * unfold chars in *. clear - Hc0.
        set (l := String x cur) in *. clearbody l.
        induction l as [|y l IHl]; [destruct Hc0|].
        destruct Hc0 as [-> | H]; [now left|right; now apply IHl].
    + assert (Hcur' : forallb (fun c => negb (Py.is_space c))
                              (chars (cur +++ String c "")) = true).
      { rewrite forallb_chars_app, Hcur. cbn. now rewrite Ec. }
      eapply Forall_impl; [|apply (IH _ Hcur')].
      intros t [Hne Ht]. split; [assumption|]. intros c0 Hc0.
      destruct (Ht _ Hc0) as [Hs Hin]. split; [assumption|].
      now rewrite sapp_assoc in Hin.
Qed.

Lemma lstrip_id (c : ascii) (s : string) :
  Py.is_space c = false -> Py.lstrip (String c s) = String c s.
Proof. intros H. cbn [Py.lstrip]. now rewrite H. Qed.

Lemma rstrip_id (s : string) :
  (forall c, In c (chars s) -> Py.is_space c = false) -> Py.rstrip s = s.
Proof.
  induction s as [|c s IH]; intros H; [reflexivity|].
  cbn [Py.rstrip]. rewrite IH by (intros x Hx; apply H; now right).
  destruct s; [|reflexivity]. now rewrite (H c (or_introl eq_refl)).
Qed.

Lemma strip_id (s : string) :
  (forall c, In c (chars s) -> Py.is_space c = false) -> Py.strip s = s.
Proof.
  intros H. unfold Py.strip. destruct s as [|c s]; [reflexivity|].
  rewrite lstrip_id by (apply H; now left). now apply rstrip_id.
Qed.

Lemma lstrip_chars (s : string) (c : ascii) :
  In c (chars (Py.lstrip s)) -> In c (chars s).
Proof.
  induction s as [|x s IH]; [intros []|].
  cbn [Py.lstrip]. destruct (Py.is_space x); [right; now apply IH|trivial].
Qed.

Lemma rstrip_chars (s : string) (c : ascii) :
  In c (chars (Py.rstrip s)) -> In c (chars s).
Proof.
  revert c. induction s as [|x s IH]; intros c; [intros []|].
  cbn [Py.rstrip]. destruct (Py.rstrip s) as [|y r] eqn:E.
  - destruct (Py.is_space x); [intros []|]. intros [-> | []]. now left.
  - intros [-> | H]; [now left|right]. apply IH. exact H.
Qed.

Lemma strip_chars (s : string) (c : ascii) :
  In c (chars (Py.strip s)) -> In c (chars s).
Proof. intros H. now apply lstrip_chars, rstrip_chars. Qed.

Lemma blank_char_chars (old : ascii) (s : string) (c : ascii) :
  In c (chars (blank_char old s)) ->
  c = " "%char \/ (c <> old /\ In c (chars s)).
Proof.
  induction s as [|x s IH]; [intros []|].
  cbn [blank_char chars list_ascii_of_string].
  intros [<- | H].
  - destruct (Ascii.eqb x old) eqn:E; [now left|right].
    apply Ascii.eqb_neq in E. split; [assumption|now left].
  - destruct (IH H) as [-> | [Hne Hin]]; [now left|right].
    split; [assumption|now right].
Qed.

Lemma split_ws_tokens (s : string) :
  Forall (fun t => t <> "" /\ forall c, In c (chars t) ->
                                        Py.is_space c = false /\ In c (chars s))
         (Py.split_ws s).
Proof. exact (split_ws_from_tokens s "" eq_refl). Qed.

(** X8. The names that [Region.retBodiesInDef] returns: no name is returned
    twice, no name is empty, and no name holds a blank or one of the
    operators [|], [+] and [-]. *)
Theorem retBodiesInDef_names (r : Region) :
  NoDup (retBodiesInDef r)
  /\ forall n, In n (retBodiesInDef r) ->
               n <> "" /\ forall c, In c (chars n) -> is_separator c = false.
Proof.
  unfold retBodiesInDef.
  set (clean := fun n : string =>
                  n <> "" /\ forall c, In c (chars n) -> is_separator c = false).
  enough (H : forall lines acc,
             NoDup acc /\ Forall clean acc ->
             NoDup (fold_left
                      (fun bodiesInDef myLine =>
                         if Py.startswith myLine "*" then bodiesInDef
                         else fold_left
                                (fun acc currBody => add_new acc (Py.strip currBody))
                                (Py.split_ws
                                   (Py.strip
                                      (blank_char "-"
                                         (blank_char "+" (blank_char "|" myLine)))))
                                bodiesInDef) lines acc)
             /\ Forall clean
                  (fold_left
                      (fun bodiesInDef myLine =>
                         if Py.startswith myLine "*" then bodiesInDef
                         else fold_left
                                (fun acc currBody => add_new acc (Py.strip currBody))
                                (Py.split_ws
                                   (Py.strip
                                      (blank_char "-"
                                         (blank_char "+" (blank_char "|" myLine)))))
                                bodiesInDef) lines acc)).
  { destruct (H (splitlines (definition r)) []) as [Hnd Hall].
    - split; constructor.
    - split; [exact Hnd|]. intros n Hn. rewrite Forall_forall in Hall.
      exact (Hall n Hn). }
  induction lines as [|l lines IH]; intros acc Hacc; [exact Hacc|].
  cbn [fold_left]. apply IH.
  destruct (Py.startswith l "*"); [exact Hacc|].
  set (tmpLine := blank_char "-" (blank_char "+" (blank_char "|" l))).
  pose proof (split_ws_tokens (Py.strip tmpLine)) as Htok.
  revert acc Hacc. induction Htok as [|t toks [Hne Ht] _ IHt]; intros acc Hacc.
  - exact Hacc.
  - cbn [fold_left]. apply IHt. destruct Hacc as [Hnd Hall].
    split; [now apply add_new_NoDup|].
    rewrite (strip_id t) by (intros c Hc; now destruct (Ht c Hc)).
    unfold add_new. destruct (Py.mem t acc); [assumption|].
    apply Forall_app. split; [assumption|]. constructor; [|constructor].
    split; [assumption|]. intros c Hc. destruct (Ht c Hc) as [Hs Hin].
    apply strip_chars in Hin. unfold tmpLine in Hin.
    unfold is_separator. rewrite Hs. cbn [orb].
    apply blank_char_chars in Hin as [-> | [Hm Hin]]; [discriminate Hs|].
    apply blank_char_chars in Hin as [-> | [Hp Hin]]; [discriminate Hs|].
    apply blank_char_chars in Hin as [-> | [Hb Hin]]; [discriminate Hs|].
    apply Ascii.eqb_neq in Hm, Hp, Hb. now rewrite Hm, Hp, Hb.
Qed.

Example retBodiesInDef_R1 :
  retBodiesInDef (Region_set_def (Region_new "R") ("+B1 -B2" +++ Py.LF
      +++ "* a comment" +++ Py.LF +++ "  | +B3 -B1") 5%Q)
  = ["B1"; "B2"; "B3"].
Proof. reflexivity. Qed.

(** X9. A region without any zone on one side of [Region.merge]: when the
    surviving region or the absorbed one has no zone (an empty definition,
    or bars and blanks only), the surviving region is left with the empty
    definition; the neighbour counts are still added. *)
Theorem merge_without_zones (self newReg : Region) (spacing : string) :
  zones (definition self) = [] \/ zones (definition newReg) = [] ->
  definition (merge self newReg spacing) = ""
  /\ neigh (merge self newReg spacing) = Qplus (neigh self) (neigh newReg).
Proof.
  intros H. split; [|reflexivity].
  unfold merge. cbn [definition initCont_default initCont].
  rewrite merge_outer_loop, entry_steps_listing.
  fold (zones (definition self)). fold (zones (definition newReg)).
  destruct H as [-> | ->]; [reflexivity|].
  unfold zone_product. induction (zones (definition self)); [reflexivity|].
  cbn [flat_map map app]. exact IHl.
Qed.

Lemma merge_without_zones_witness :
  definition (merge region_R1 (Region_new "EMPTY") merge_spacing) = ""
  /\ neigh (merge region_R1 (Region_new "EMPTY") merge_spacing)
     = Qplus (neigh region_R1) (neigh (Region_new "EMPTY")).
Proof.
  apply merge_without_zones. right. reflexivity.
Defined.

(** The texts of the zones: the pieces between the bars without the blanks
    around them, the empty ones left out. *)
Lemma zones_from_texts (pieces : list string) :
  forall start,
    map snd (zones_from start pieces)
    = filter Py.nonempty (map Py.strip pieces).
Proof.
  unfold zones_from. induction pieces as [|p pieces IH]; intros start.
  - reflexivity.
  - cbn [Py.enumerate_from map filter fst snd].
    destruct (Py.nonempty (Py.strip p)); cbn [map snd]; now rewrite IH.
Qed.

(** Splitting a text that goes on after a first part. *)
Lemma split_on_from_app (sep : ascii) (a : string) :
  forall cur,
    exists ps last,
      Py.split_on_from sep cur a = ps ++ [last]
      /\ forall t, Py.split_on_from sep cur (a +++ t)
                   = ps ++ Py.split_on_from sep last t.
Proof.
  induction a as [|c a IH]; intros cur.
  - exists [], cur. split; reflexivity.
  - cbn [String.append Py.split_on_from]. destruct (Ascii.eqb c sep).
    + destruct (IH "") as (ps & last & E & H).
      exists (cur :: ps), last. split; [now rewrite E|].
      intros t. now rewrite H.
    + destruct (IH (cur +++ String c "")) as (ps & last & E & H).
      exists ps, last. split; assumption.
Qed.

Lemma split_on_from_plain (sep : ascii) (w : string) :
  contains_char sep w = false ->
  forall cur t, Py.split_on_from sep cur (w +++ t)
                = Py.split_on_from sep (cur +++ w) t.
Proof.
  induction w as [|c w IH]; intros Hw cur t.
  - now rewrite sapp_nil_r.
  - cbn [contains_char] in Hw. apply orb_false_elim in Hw as [Hc Hw].
    cbn [String.append Py.split_on_from]. rewrite Hc, (IH Hw).
    now rewrite sapp_assoc.
Qed.

Lemma split_on_from_whole (sep : ascii) (w cur : string) :
  contains_char sep w = false -> Py.split_on_from sep cur w = [cur +++ w].
Proof.
  intros Hw. rewrite <- (sapp_nil_r w) at 1.
  now rewrite (split_on_from_plain sep w Hw).
Qed.

Lemma split_on_plain (sep : ascii) (w : string) :
  contains_char sep w = false -> Py.split_on sep w = [w].
Proof. intros Hw. unfold Py.split_on. now rewrite split_on_from_whole. Qed.

(** Blanks at the end do not show after [strip]. *)

Lemma rstrip_blanks (w : string) : blanks w -> Py.rstrip w = "".
Proof.
  induction w as [|c w IH]; intros H; [reflexivity|].
  cbn [Py.rstrip]. rewrite IH by (intros x Hx; apply H; now right).
  now rewrite (H c (or_introl eq_refl)).
Qed.

Lemma rstrip_app_blanks (s w : string) :
  blanks w -> Py.rstrip (s +++ w) = Py.rstrip s.
Proof.
  intros Hw. induction s as [|c s IH].
  - cbn. now apply rstrip_blanks.
  - cbn [String.append Py.rstrip]. now rewrite IH.
Qed.

Lemma strip_app_blanks (s w : string) :
  blanks w -> Py.strip (s +++ w) = Py.strip s.
Proof.
  intros Hw. unfold Py.strip. induction s as [|c s IH].
  - cbn [String.append Py.lstrip Py.rstrip].
    rewrite rstrip_blanks; [reflexivity|].
    intros x Hx. apply lstrip_chars in Hx. now apply Hw.
  - cbn [String.append Py.lstrip]. destruct (Py.is_space c); [exact IH|].
    now apply (rstrip_app_blanks (String c s)).
Qed.

Lemma blanks_app (a b : string) : blanks a -> blanks b -> blanks (a +++ b).
Proof.
  intros Ha Hb c Hc. unfold chars in Hc.
  induction a as [|x a IH]; [now apply Hb|].
  destruct Hc as [<- | Hc]; [apply Ha; now left|].
  apply IH; [|exact Hc]. intros y Hy. apply Ha. now right.
Qed.

Lemma blanks_repeat (n : nat) : blanks (Py.repeat_char " " n).
Proof.
  induction n as [|n IH]; intros c Hc; [destruct Hc|].
  destruct Hc as [<- | Hc]; [reflexivity|now apply IH].
Qed.

Lemma contains_char_app (c : ascii) (a b : string) :
  contains_char c (a +++ b) = contains_char c a || contains_char c b.
Proof.
  induction a as [|x a IH]; [reflexivity|].
  cbn [String.append contains_char]. now rewrite IH, orb_assoc.
Qed.

Lemma contains_char_blanks (w : string) :
  blanks w -> contains_char "|" w = false.
Proof.
  induction w as [|c w IH]; intros H; [reflexivity|].
  cbn [contains_char]. rewrite IH by (intros x Hx; apply H; now right).
  pose proof (H c (or_introl eq_refl)) as Hc.
  destruct (Ascii.eqb c "|") eqn:E; [|reflexivity].
  apply Ascii.eqb_eq in E. subst c. discriminate Hc.
Qed.

(** X10. A zone added with [Region.addZone] is one more zone for
    [Region.merge]: when the text added holds no bar, the zones of the new
    definition are the zones of the old one, in order, followed by the text
    added without the blanks around it (by nothing, when the text is
    blank). *)
Theorem addZone_zones (r : Region) (myDef : string) (nSpace : Z) :
  contains_char "|" myDef = false ->
  map snd (zones (definition (addZone r myDef nSpace)))
  = map snd (zones (definition r)) ++ map snd (zones myDef).
Proof.
  intros Hdef. unfold zones. rewrite !zones_from_texts.
  unfold addZone. cbn [definition Region_set_def].
  rewrite (split_on_plain _ _ Hdef).
  set (sp := Py.LF +++ Py.repeat_char " " (Z.to_nat nSpace)).
  assert (Hsp : blanks sp).
  { apply blanks_app; [|apply blanks_repeat]. intros c [<- | []]. reflexivity. }
  assert (Htail : forall last,
             Py.split_on_from "|" last (sp +++ "| " +++ myDef)
             = [last +++ sp; " " +++ myDef]).
  { intros last. rewrite (split_on_from_plain "|" sp (contains_char_blanks _ Hsp)).
    cbn [String.append Py.split_on_from Ascii.eqb Bool.eqb].
    now rewrite (split_on_from_whole "|" myDef " " Hdef). }
  assert (Hzone : Py.strip (" " +++ myDef) = Py.strip myDef) by reflexivity.
  destruct (definition r) as [|c d] eqn:Ed.
  - cbn [Py.nonempty]. rewrite (split_on_plain _ _ Hdef). reflexivity.
  - cbn [Py.nonempty]. rewrite <- Ed. clear Ed c d.
    replace (Py.LF +++ Py.repeat_char " " (Z.to_nat nSpace) +++ "| " +++ myDef)
      with (sp +++ "| " +++ myDef) by (unfold sp; now rewrite sapp_assoc).
    destruct (contains_char "|" (definition r)) eqn:Ebar; cbn [negb].
    + destruct (split_on_from_app "|" (definition r) "") as (ps & last & E & H).
      unfold Py.split_on. rewrite H, E, Htail.
      rewrite !map_app, !filter_app. cbn [map filter].
      rewrite (strip_app_blanks _ _ Hsp), Hzone.
      rewrite <- app_assoc. now destruct (Py.nonempty (Py.strip last)).
    + unfold Py.split_on.
      cbn [String.append Py.split_on_from Ascii.eqb Bool.eqb].
      rewrite (split_on_from_plain "|" (definition r) Ebar), Htail.
      rewrite (split_on_from_whole "|" (definition r) "" Ebar).
      cbn [map filter app String.append].
      change (Py.strip (String " " (definition r +++ sp)))
        with (Py.strip (definition r +++ sp)).
      rewrite (strip_app_blanks _ _ Hsp).
      change (String " " myDef) with (" " +++ myDef). rewrite Hzone.
      change (Py.strip "") with "". cbn [Py.nonempty].
      now destruct (Py.nonempty (Py.strip (definition r))).
Qed.

Lemma addZone_zones_witness :
  map snd (zones (definition (addZone region_R1 " +D -E " 16)))
  = map snd (zones (definition region_R1)) ++ map snd (zones " +D -E ").
Proof. apply addZone_zones. reflexivity. Defined.

Example addZone_R1 :
  definition (addZone region_R1 "+D -E" 4)
  = "+A -B | +C" +++ Py.LF +++ "    | +D -E"
  /\ definition (addZone (Region_set_def region_R1 "+A" 5%Q) "+D" 2)
     = "| +A" +++ Py.LF +++ "  | +D"
  /\ definition (addZone (Region_new "R") "+D" 2) = "+D".
Proof. repeat split. Qed.

(** ** Mapping by flags, without flags *)

Section NoFlags.
Context {ext : External}.

(** X11. [MapContRegs] with a side that has no flagged region. Without any
    region to be contained, the call returns the mapping "oneHive" with no
    pair, however many containers there are; with regions to be contained
    and no container, the call dies on the missing first container. *)
Theorem MapContRegs_without_flags (CtainGeo CinedGeo : Geometry) :
  (contained CinedGeo = [] -> maps_to CtainGeo CinedGeo "oneHive" [] [])
  /\ (containers CtainGeo = [] -> contained CinedGeo <> [] ->
      MapContRegs CtainGeo CinedGeo = Raise).
Proof.
  unfold maps_to, MapContRegs, containers, contained. split.
  - intros ->. cbn [List.length Nat.ltb Nat.leb Nat.eqb andb].
    rewrite !andb_false_r. reflexivity.
  - intros -> Hne.
    destruct (indices_where _ (regs CinedGeo)) as [|j js]; [contradiction|].
    reflexivity.
Qed.

End NoFlags.

Lemma MapContRegs_without_flags_witness :
  maps_to three_containers (geometry_of_regions []) "oneHive" [] []
  /\ MapContRegs (geometry_of_regions [flagged_region "OUT" 0]) one_contained
     = Raise.
Proof.
  split.
  - apply (MapContRegs_without_flags three_containers (geometry_of_regions [])).
    reflexivity.
  - apply (MapContRegs_without_flags (geometry_of_regions [flagged_region "OUT" 0])
             one_contained); [reflexivity|discriminate].
Defined.

(** ** Assigning materials *)

Lemma py_range3_unit (start stop : Z) :
  py_range3 start stop 1
  = Ok (map (fun k => start + Z.of_nat k) (seq 0 (Z.to_nat (stop - start)))).
Proof.
  unfold py_range3. cbn [Z.eqb Z.ltb Z.compare].
  replace (stop - start + 1 - 1) with (stop - start) by lia.
  rewrite Z.div_1_r. f_equal. apply map_ext. intros k. lia.
Qed.

Lemma replace_nth_length {A : Type} (l : list A) :
  forall n x, List.length (replace_nth n x l) = List.length l.
Proof.
  induction l as [|a l IH]; intros [|n] x; cbn [replace_nth List.length];
    try reflexivity.
  now rewrite IH.
Qed.

Lemma replace_nth_nth {A : Type} (l : list A) :
  forall n x k,
    nth_error (replace_nth n x l) k
    = if Nat.eqb k n then option_map (fun _ => x) (nth_error l k)
      else nth_error l k.
Proof.
  induction l as [|a l IH]; intros n x k.
  - destruct n, k; cbn [replace_nth nth_error]; now destruct (Nat.eqb _ _).
  - destruct n as [|n], k as [|k]; cbn [replace_nth nth_error Nat.eqb];
      try reflexivity.
    apply IH.
Qed.

Lemma assignMat_at_nth (rs : list Region) (i : nat) (mat : string) :
  (i < List.length rs)%nat ->
  exists rs',
    assignMat_at rs (Z.of_nat i) mat = Ok rs'
    /\ List.length rs' = List.length rs
    /\ forall k, nth_error rs' k
                 = option_map (fun r => if Nat.eqb k i
                                        then Region_set_material r mat else r)
                              (nth_error rs k).
Proof.
  intros Hi. unfold assignMat_at. rewrite py_index_nth.
  destruct (nth_error rs i) as [r|] eqn:E;
    [|apply nth_error_None in E; lia].
  cbn [bind]. destruct (Z.ltb_spec (Z.of_nat i) 0); [lia|].
  rewrite Nat2Z.id. eexists. split; [reflexivity|].
  split; [apply replace_nth_length|].
  intros k. rewrite replace_nth_nth.
  destruct (Nat.eqb_spec k i) as [->|Hk].
  - now rewrite E.
  - now destruct (nth_error rs k).
Qed.

(** The loop over a run of indices that lie inside the list. *)
Lemma assign_run (mat : string) (n : nat) :
  forall (rs : list Region) (i : nat),
    (i + n <= List.length rs)%nat ->
    exists rs',
      fold_left (fun acc iEntry => rs <- acc ;; assignMat_at rs iEntry mat)
                (map (fun k => Z.of_nat i + Z.of_nat k) (seq 0 n)) (Ok rs)
      = Ok rs'
      /\ List.length rs' = List.length rs
      /\ forall k, nth_error rs' k
                   = option_map (fun r => if (i <=? k)%nat && (k <? i + n)%nat
                                          then Region_set_material r mat else r)
                                (nth_error rs k).
Proof.
  induction n as [|n IH]; intros rs i Hi.
  - exists rs. repeat split. intros k.
    replace ((i <=? k)%nat && (k <? i + 0)%nat) with false.
    + now destruct (nth_error rs k).
    + symmetry. apply andb_false_iff.
      destruct (Nat.leb_spec i k); [right; apply Nat.ltb_ge; lia|now left].
  - rewrite seq_S, map_app, fold_left_app. cbn [map fold_left Nat.add].
    destruct (IH rs i) as (rs1 & -> & Hlen1 & Hnth1); [lia|].
    cbn [bind]. replace (Z.of_nat i + Z.of_nat n) with (Z.of_nat (i + n)) by lia.
    destruct (assignMat_at_nth rs1 (i + n) mat) as (rs2 & -> & Hlen2 & Hnth2);
      [lia|].
    exists rs2. split; [reflexivity|]. split; [congruence|].
    intros k. rewrite Hnth2, Hnth1.
    destruct (nth_error rs k) as [r|]; [|reflexivity]. cbn [option_map].
    f_equal.
    destruct (Nat.eqb_spec k (i + n)) as [->|Hk].
    + replace ((i <=? i + n)%nat && (i + n <? i + n)%nat) with false
        by (symmetry; apply andb_false_iff; right; apply Nat.ltb_ge; lia).
      replace ((i <=? i + n)%nat && (i + n <? i + S n)%nat) with true;
        [reflexivity|].
      symmetry. apply andb_true_iff. split;
        [apply Nat.leb_le|apply Nat.ltb_lt]; lia.
    + destruct (Nat.leb_spec i k); cbn [andb]; [|reflexivity].
      destruct (Nat.ltb_spec k (i + n)), (Nat.ltb_spec k (i + S n));
        try reflexivity; lia.
Qed.

Section MaterialFacts.
Context {ext : External}.

Lemma ret_region (g : Geometry) (name : string) :
  is_ALL name = false ->
  (unmatched g SReg name -> ret g "REG" name = Ok RNone)
  /\ (forall i e, first_match g SReg name i e ->
                  ret g "REG" name = Ok (ROne e (Z.of_nat i))).
Proof.
  intros Hall. rewrite (ret_selector g "REG" name SReg eq_refl).
  exact (ret_sel_collection (ret_fuel 2 g) g SReg name eq_refl Hall).
Qed.

(** X12. [Geometry.AssignMaterial] between two regions that the geometry
    holds, with the step 1: the regions from the first one of the first name
    up to and including the first one of the last name take the material;
    all the other regions, and everything else in the geometry, stay as they
    are. With the last region before the first one, nothing changes. *)
Theorem AssignMaterial_run (g : Geometry) (mat first last : string)
  (i j : nat) (ri rj : Region) :
  is_ALL first = false ->
  is_ALL last = false ->
  first_match g SReg first i (ERegion ri) ->
  first_match g SReg last j (ERegion rj) ->
  exists rs,
    AssignMaterial g mat first (Some last) 1 = Ok (set_regs g rs)
    /\ List.length rs = List.length (regs g)
    /\ forall k, nth_error rs k
                 = option_map (fun r => if (i <=? k)%nat && (k <=? j)%nat
                                        then Region_set_material r mat else r)
                              (nth_error (regs g) k).
Proof.
  intros Hfa Hla Hfirst Hlast. unfold AssignMaterial.
  rewrite (proj2 (ret_region g first Hfa) _ _ Hfirst).
  cbn [bind]. rewrite (proj2 (ret_region g last Hla) _ _ Hlast).
  cbn [bind index_number]. rewrite py_range3_unit. cbn [bind].
  assert (Hj : (j < List.length (regs g))%nat).
  { destruct Hlast as (Hn & _). cbn [entities] in Hn.
    rewrite nth_error_map in Hn.
    destruct (nth_error (regs g) j) eqn:E; [|discriminate].
    apply nth_error_Some. congruence. }
  assert (Hi : (i < List.length (regs g))%nat).
  { destruct Hfirst as (Hn & _). cbn [entities] in Hn.
    rewrite nth_error_map in Hn.
    destruct (nth_error (regs g) i) eqn:E; [|discriminate].
    apply nth_error_Some. congruence. }
  destruct (assign_run mat (Z.to_nat (Z.of_nat j + 1 - Z.of_nat i)) (regs g) i)
    as (rs & -> & Hlen & Hnth); [lia|].
  exists rs. split; [reflexivity|]. split; [exact Hlen|].
  intros k. rewrite Hnth. destruct (nth_error (regs g) k); [|reflexivity].
  cbn [option_map]. f_equal.
  destruct (Nat.leb_spec i k); cbn [andb]; [|reflexivity].
  destruct (Nat.ltb_spec k (i + Z.to_nat (Z.of_nat j + 1 - Z.of_nat i))),
           (Nat.leb_spec k j); try reflexivity; lia.
Qed.

(** X13. [Geometry.AssignMaterial] for a name that no region has, and no
    name of a last region: the lookup gives the index -1, and the material
    goes to the last region of the geometry. With no region at all the call
    dies. *)
Theorem AssignMaterial_unknown_region (g : Geometry) (mat name : string)
  (iStep : Z) :
  is_ALL name = false ->
  unmatched g SReg name ->
  0 < iStep ->
  (regs g = [] -> AssignMaterial g mat name None iStep = Raise)
  /\ (forall rs r,
         regs g = rs ++ [r] ->
         AssignMaterial g mat name None iStep
         = Ok (set_regs g (rs ++ [Region_set_material r mat]))).
Proof.
  intros Hall Hun Hstep. unfold AssignMaterial.
  rewrite (proj1 (ret_region g name Hall) Hun).
  cbn [bind index_number].
  assert (Hrange : py_range3 (-1) (-1 + 1) iStep = Ok [-1]).
  { unfold py_range3. destruct (Z.eqb_spec iStep 0); [lia|].
    destruct (Z.ltb_spec 0 iStep); [|lia].
    replace ((-1 + 1 - -1 + iStep - 1) / iStep) with 1.
    - reflexivity.
    - symmetry. replace (-1 + 1 - -1 + iStep - 1) with (1 * iStep) by lia.
      apply Z.div_mul. lia. }
  rewrite Hrange. cbn [bind fold_left]. split.
  - intros ->. reflexivity.
  - intros rs r E. rewrite E. unfold assignMat_at, py_index.
    rewrite length_app. cbn [List.length Z.ltb Z.compare].
    replace (-1 + Z.of_nat (List.length rs + 1)) with (Z.of_nat (List.length rs))
      by lia.
    destruct (Z.ltb_spec (Z.of_nat (List.length rs)) 0); [lia|].
    destruct (Z.leb_spec (Z.of_nat (List.length rs + 1))
                         (Z.of_nat (List.length rs))); [lia|].
    cbn [orb]. rewrite Nat2Z.id, nth_error_app2, Nat.sub_diag by lia.
    cbn [nth_error bind]. now rewrite replace_nth_snoc.
Qed.

End MaterialFacts.

Lemma AssignMaterial_run_witness :
  exists rs,
    AssignMaterial three_containers "COPPER" "H1" (Some "H2") 1
    = Ok (set_regs three_containers rs)
    /\ map material rs = ["BLACKHOLE"; "COPPER"; "COPPER"; "BLACKHOLE"].
Proof.
  destruct (AssignMaterial_run three_containers "COPPER" "H1" "H2" 1 2
              (flagged_region "H1" 1) (flagged_region "H2" 1)
              eq_refl eq_refl) as (rs & Hrun & Hlen & Hnth).
  - split; [reflexivity|split; [reflexivity|]].
    intros [|j] e' Hj He; [injection He as <-; reflexivity|lia].
  - split; [reflexivity|split; [reflexivity|]].
    intros [|[|j]] e' Hj He; try lia; injection He as <-; reflexivity.
  - exists rs. split; [exact Hrun|].
    pose proof (Hnth 0%nat) as H0. pose proof (Hnth 1%nat) as H1.
    pose proof (Hnth 2%nat) as H2. pose proof (Hnth 3%nat) as H3.
    destruct rs as [|a [|b [|c [|d [|x rs]]]]]; try discriminate Hlen.
    cbn in H0, H1, H2, H3.
    injection H0 as ->. injection H1 as ->. injection H2 as ->.
    injection H3 as ->. reflexivity.
Defined.

Lemma AssignMaterial_unknown_region_witness :
  AssignMaterial three_containers "COPPER" "H9" None 1
  = Ok (set_regs three_containers
          [flagged_region "OUT" 0; flagged_region "H1" 1; flagged_region "H2" 1;
           Region_set_material (flagged_region "H3" 1) "COPPER"]).
Proof.
  destruct (AssignMaterial_unknown_region three_containers "COPPER" "H9" 1
              eq_refl) as [_ H].
  - intros e [<- | [<- | [<- | [<- | []]]]]; reflexivity.
  - lia.
  - exact (H [flagged_region "OUT" 0; flagged_region "H1" 1;
              flagged_region "H2" 1] (flagged_region "H3" 1) eq_refl).
Defined.

(** ** Appending and merging geometries *)

Section MergingFacts.
Context {ext : External}.

Lemma renumber_length (n : nat) (l : list Transformation) :
  List.length (renumber n l) = List.length l.
Proof.
  unfold renumber. rewrite length_map. generalize 1.
  induction l as [|t l IH]; intros s; [reflexivity|].
  cbn [Py.enumerate_from List.length]. now rewrite IH.
Qed.

Lemma renumber_nth (n : nat) (l : list Transformation) (k : nat)
  (t : Transformation) :
  nth_error (renumber n l) k = Some t ->
  ID t = Z.of_nat (n + k) + 1
  /\ exists t0, nth_error l k = Some t0 /\ tName t = tName t0
                /\ RotDefis t = RotDefis t0 /\ tComment t = tComment t0.
Proof.
  unfold renumber.
  assert (H : forall s k,
             nth_error (map (fun it : Z * Transformation =>
                               {| tName := tName (snd it);
                                  tComment := tComment (snd it);
                                  ID := fst it + Z.of_nat n;
                                  RotDefis := RotDefis (snd it) |})
                            (Py.enumerate_from s l)) k = Some t ->
             ID t = s + Z.of_nat k + Z.of_nat n
             /\ exists t0, nth_error l k = Some t0 /\ tName t = tName t0
                           /\ RotDefis t = RotDefis t0
                           /\ tComment t = tComment t0).
  { clear k. induction l as [|a l IH]; intros s [|k] Hk; try discriminate.
    - injection Hk as <-. cbn. split; [lia|]. now exists a.
    - cbn [Py.enumerate_from map nth_error] in Hk.
      destruct (IH _ _ Hk) as (Hid & Hex). split; [lia|exact Hex]. }
  intros Hk. destruct (H 1 k Hk) as (Hid & Hex). split; [lia|exact Hex].
Qed.

Lemma renumber_names (n : nat) (l : list Transformation) :
  map tName (renumber n l) = map tName l
  /\ map RotDefis (renumber n l) = map RotDefis l.
Proof.
  unfold renumber. rewrite !map_map. cbn [tName RotDefis]. generalize 1.
  induction l as [|t l IH]; intros s; [split; reflexivity|].
  cbn [Py.enumerate_from map snd]. destruct (IH (s + 1)) as [-> ->].
  split; reflexivity.
Qed.

(** The loop of [appendGeometries], seen from the collections. *)
Lemma append_loop (others : list Geometry) :
  forall first : Geometry,
    let new := fold_left append_one others first in
    bods new = bods first ++ flat_map bods others
    /\ regs new = regs first ++ flat_map regs others
    /\ bins new = bins first ++ flat_map bins others
    /\ scos new = scos first ++ flat_map scos others
    /\ map tName (tras new)
       = map tName (tras first) ++ flat_map (fun g => map tName (tras g)) others
    /\ map RotDefis (tras new)
       = map RotDefis (tras first)
           ++ flat_map (fun g => map RotDefis (tras g)) others
    /\ firstn (List.length (tras first)) (tras new) = tras first
    /\ forall k t, (List.length (tras first) <= k)%nat ->
                   nth_error (tras new) k = Some t -> ID t = Z.of_nat k + 1.
Proof.
  induction others as [|g others IH]; intros first new.
  - subst new. cbn [fold_left flat_map]. rewrite !app_nil_r.
    repeat split; try reflexivity.
    + apply firstn_all.
    + intros k t Hk Ht. apply nth_error_None in Hk. congruence.
  - subst new. cbn [fold_left flat_map].
    specialize (IH (append_one first g)). cbv zeta in IH.
    set (new := fold_left append_one others (append_one first g)) in *.
    cbn [append_one bods regs tras bins scos] in IH.
    destruct IH as (Hb & Hr & Hu & Hs & Hn & Hd & Hf & Hid).
    destruct (renumber_names (List.length (tras first)) (tras g)) as [En Ed].
    rewrite Hb, Hr, Hu, Hs, Hn, Hd. rewrite !map_app, En, Ed, <- !app_assoc.
    split; [reflexivity|]. split; [reflexivity|]. split; [reflexivity|].
    split; [reflexivity|]. split; [reflexivity|]. split; [reflexivity|].
    rewrite length_app, renumber_length in Hf, Hid.
    split.
    + apply (f_equal (firstn (List.length (tras first)))) in Hf.
      rewrite firstn_firstn in Hf. rewrite Nat.min_l in Hf by lia.
      rewrite Hf. now rewrite firstn_app, Nat.sub_diag, firstn_all, app_nil_r.
    + intros k t Hk Ht.
      destruct (Nat.lt_ge_cases k (List.length (tras first)
                                   + List.length (tras g))) as [Hlt|Hge].
      * assert (Hin : nth_error (tras first ++ renumber (List.length (tras first))
                                                       (tras g)) k = Some t).
        { rewrite <- Hf. rewrite nth_error_firstn.
          destruct (Nat.ltb_spec k (List.length (tras first)
                                    + List.length (tras g))); [exact Ht|lia]. }
        rewrite nth_error_app2 in Hin by lia.
        apply renumber_nth in Hin as (Hid' & _). lia.
      * exact (Hid k t Hge Ht).
Qed.

(** X14. [Geometry.appendGeometries] of a list of separate geometries: the
    bodies, regions, USRBINs and scorings of the geometries follow each
    other in the order of the list; so do the transformations, with their
    names and steps as they were, those of the first geometry with the
    numbers they had and every other one with its position in the new list,
    counted from one, as its number. The title is the one given, or
    "appended geometries". An empty list is refused. *)
Theorem appendGeometries_collects (first : Geometry) (others : list Geometry)
  (myTitle : option string) :
  appendGeometries [] myTitle = Raise
  /\ exists new,
       appendGeometries (first :: others) myTitle = Ok new
       /\ bods new = flat_map bods (first :: others)
       /\ regs new = flat_map regs (first :: others)
       /\ bins new = flat_map bins (first :: others)
       /\ scos new = flat_map scos (first :: others)
       /\ map tName (tras new)
          = flat_map (fun g => map tName (tras g)) (first :: others)
       /\ map RotDefis (tras new)
          = flat_map (fun g => map RotDefis (tras g)) (first :: others)
       /\ firstn (List.length (tras first)) (tras new) = tras first
       /\ (forall k t, (List.length (tras first) <= k)%nat ->
                       nth_error (tras new) k = Some t -> ID t = Z.of_nat k + 1)
       /\ title new = match myTitle with
                      | Some t => t
                      | None => "appended geometries"
                      end.
Proof.
  split; [reflexivity|]. eexists. split; [reflexivity|].
  destruct (append_loop others first) as (Hb & Hr & Hu & Hs & Hn & Hd & Hf & Hid).
  cbn [bods regs tras bins scos title set_title flat_map].
  repeat split; assumption.
Qed.

End MergingFacts.

Section InsertionOfGeometries.
Context {ext : External}.

Lemma ret_Reg (g : Geometry) (name : string) :
  is_ALL name = false ->
  (unmatched g SReg name -> ret g "Reg" name = Ok RNone)
  /\ (forall i e, first_match g SReg name i e ->
                  ret g "Reg" name = Ok (ROne e (Z.of_nat i))).
Proof.
  intros Hall. rewrite (ret_selector g "Reg" name SReg eq_refl).
  exact (ret_sel_collection (ret_fuel 2 g) g SReg name eq_refl Hall).
Qed.

(** One name handed to the loop that flags regions by name. *)
Lemma flag_named_one (g : Geometry) (name : string) (cont : Z) :
  is_ALL name = false ->
  (unmatched g SReg name -> flag_named g [name] cont = Exit)
  /\ (forall i r, first_match g SReg name i (ERegion r) ->
                  flag_named g [name] cont
                  = Ok (set_regs g (replace_nth i (initCont r cont Vec3_zero 0%Q)
                                                (regs g)))).
Proof.
  intros Hall. unfold flag_named. cbn [fold_left bind].
  destruct (ret_Reg g name Hall) as [Hnone Hone]. split.
  - intros Hun. now rewrite (Hnone Hun).
  - intros i r Hfirst. rewrite (Hone _ _ Hfirst). cbn [bind].
    now rewrite Nat2Z.id.
Qed.

(** X15. [Geometry.insertGeoInGeo] with a name that is not there: when the
    geometry to insert holds no region of the name given as its outer
    region, or the hosting geometry holds no region of the name given as
    the place of the insertion, the run is ended. *)
Theorem insertGeoInGeo_unknown_region (self geoToInsert : Geometry)
  (extName regName : string) :
  is_ALL extName = false ->
  is_ALL regName = false ->
  unmatched geoToInsert SReg extName \/ unmatched self SReg regName ->
  insertGeoInGeo self geoToInsert (inl extName) (inl regName) = Exit.
Proof.
  intros Hext Hreg H. unfold insertGeoInGeo. cbn [names_given].
  destruct (flag_named_one geoToInsert extName (-1) Hext) as [He1 He2].
  destruct (flag_named_one self regName 1 Hreg) as [Hr1 Hr2].
  assert (Hcases : flag_named geoToInsert [extName] (-1) = Exit
                   \/ exists g', flag_named geoToInsert [extName] (-1) = Ok g').
  { unfold flag_named. cbn [fold_left bind].
    rewrite (ret_selector geoToInsert "Reg" extName SReg eq_refl).
    cbn [ret_sel]. unfold ret_collection. rewrite Hext. unfold lookup.
    destruct (find_from _ 0 (regs geoToInsert)) as [[k r]|]; cbn [bind].
    - right. now eexists.
    - now left. }
  destruct H as [H | H].
  - now rewrite (He1 H).
  - destruct Hcases as [-> | (g' & ->)]; [reflexivity|].
    cbn [bind]. now rewrite (Hr1 H).
Qed.

Lemma indices_where_replace {A : Type} (p : A -> bool) (x : A) (l : list A) :
  forall i a,
    nth_error l i = Some a ->
    (forall r, In r l -> p r = false) ->
    p x = true ->
    indices_where p (replace_nth i x l) = [Z.of_nat i].
Proof.
  unfold indices_where.
  enough (H : forall i a s,
             nth_error l i = Some a ->
             (forall r, In r l -> p r = false) ->
             p x = true ->
             map fst (filter (fun ia => p (snd ia))
                             (Py.enumerate_from s (replace_nth i x l)))
             = [s + Z.of_nat i]).
  { intros i a Hn Hp Hx. now rewrite (H i a 0 Hn Hp Hx). }
  induction l as [|b l IH]; intros [|i] a s Hn Hp Hx; try discriminate.
  - cbn [replace_nth Py.enumerate_from filter snd]. rewrite Hx.
    cbn [map fst]. f_equal; [lia|].
    assert (Hrest : forall s', map fst (filter (fun ia => p (snd ia))
                                               (Py.enumerate_from s' l)) = []).
    { clear - Hp. induction l as [|c l IHl]; intros s'; [reflexivity|].
      cbn [Py.enumerate_from filter snd].
      rewrite (Hp c (or_intror (or_introl eq_refl))).
      apply IHl. intros r [<- | Hr]; apply Hp; [now left|right; now right]. }
    apply Hrest.
  - cbn [replace_nth Py.enumerate_from filter snd].
    rewrite (Hp b (or_introl eq_refl)).
    rewrite (IH i a (s + 1) Hn); [f_equal; lia| |assumption].
    intros r Hr. apply Hp. now right.
Qed.

Lemma replace_nth_twice {A : Type} (l : list A) :
  forall i x y, replace_nth i y (replace_nth i x l) = replace_nth i y l.
Proof.
  induction l as [|a l IH]; intros [|i] x y; cbn [replace_nth]; try reflexivity.
  now rewrite IH.
Qed.

Lemma replace_nth_cut {A : Type} (l : list A) :
  forall i x,
    firstn i (replace_nth i x l) ++ skipn (S i) (replace_nth i x l)
    = firstn i l ++ skipn (S i) l.
Proof.
  induction l as [|a l IH]; intros [|i] x; cbn [replace_nth firstn skipn app];
    try reflexivity.
  f_equal. apply IH.
Qed.

Lemma first_match_region (g : Geometry) (name : string) (i : nat) (r : Region) :
  first_match g SReg name i (ERegion r) ->
  nth_error (regs g) i = Some r /\ rName r = name
  /\ (i < List.length (regs g))%nat.
Proof.
  intros (Hn & Hm & _). cbn [entities] in Hn. rewrite nth_error_map in Hn.
  destruct (nth_error (regs g) i) as [r'|] eqn:E; [|discriminate].
  injection Hn as ->. split; [reflexivity|]. split.
  - now apply String.eqb_eq in Hm.
  - apply nth_error_Some. congruence.
Qed.

Lemma first_match_replace (g : Geometry) (name : string) (i : nat)
  (r x : Region) :
  first_match g SReg name i (ERegion r) ->
  rName x = rName r ->
  first_match (set_regs g (replace_nth i x (regs g))) SReg name i (ERegion x).
Proof.
  intros Hfirst Hx. destruct (first_match_region _ _ _ _ Hfirst) as (Hn & Hr & Hi).
  destruct Hfirst as (_ & Hm & Hbefore). repeat split.
  - cbn [entities regs set_regs]. rewrite nth_error_map, replace_nth_nth.
    now rewrite Nat.eqb_refl, Hn.
  - cbn [matches] in *. now rewrite Hx.
  - intros j e' Hj He'. apply (Hbefore j e' Hj).
    cbn [entities regs set_regs] in *. rewrite nth_error_map in *.
    rewrite replace_nth_nth in He'.
    destruct (Nat.eqb_spec j i); [lia|]. exact He'.
Qed.

(** X16. [Geometry.insertGeoInGeo] of one geometry at one region of another.
    With no region of the hosting geometry flagged as container and no
    region of the geometry to insert flagged as contained beforehand, the
    call returns the geometry in which the first region of the name given
    in the hosting geometry is merged with the first region of the name
    given in the geometry to insert, this last region is gone, and all the
    rest of the geometry to insert follows the hosting geometry, its
    transformations numbered on from those of the hosting geometry. *)
Theorem insertGeoInGeo_one_region (self geoToInsert : Geometry)
  (extName regName : string) (i j : nat) (ri rj : Region) :
  is_ALL extName = false ->
  is_ALL regName = false ->
  (forall r, In r (regs self) -> rCont r <> 1) ->
  (forall r, In r (regs geoToInsert) -> rCont r <> -1) ->
  first_match self SReg regName i (ERegion ri) ->
  first_match geoToInsert SReg extName j (ERegion rj) ->
  insertGeoInGeo self geoToInsert (inl extName) (inl regName)
  = Ok {| bods := bods self ++ bods geoToInsert;
          regs := replace_nth i (merge ri rj merge_spacing) (regs self)
                    ++ (firstn j (regs geoToInsert)
                          ++ skipn (S j) (regs geoToInsert));
          tras := tras self ++ renumber (List.length (tras self))
                                        (tras geoToInsert);
          bins := bins self ++ bins geoToInsert;
          scos := scos self ++ scos geoToInsert;
          title := "appended geometries" |}.
Proof.
  intros Hext Hreg Hself Hgeo Hi Hj.
  destruct (first_match_region _ _ _ _ Hi) as (Hni & Hnamei & Hleni).
  destruct (first_match_region _ _ _ _ Hj) as (Hnj & Hnamej & Hlenj).
  unfold insertGeoInGeo. cbn [names_given].
  rewrite (proj2 (flag_named_one geoToInsert extName (-1) Hext) _ _ Hj).
  cbn [bind]. rewrite (proj2 (flag_named_one self regName 1 Hreg) _ _ Hi).
  cbn [bind].
  set (fi := initCont ri 1 Vec3_zero 0%Q). set (fj := initCont rj (-1) Vec3_zero 0%Q).
  set (self' := set_regs self (replace_nth i fi (regs self))).
  set (geo' := set_regs geoToInsert (replace_nth j fj (regs geoToInsert))).
  (* the mapping *)
  assert (Hmap : MapContRegs self' geo'
                 = Ok ([self'], [geo'],
                       {| iRhg := [Z.of_nat i]; jRhg := [0];
                          iRgg := [Z.of_nat j]; jRgg := [0] |}, "oneGrid")).
  { unfold MapContRegs. cbn [regs self' geo' set_regs].
    rewrite (indices_where_replace _ fi (regs self) i ri Hni);
      [|intros r Hr; apply Z.eqb_neq; now apply Hself|reflexivity].
    rewrite (indices_where_replace _ fj (regs geoToInsert) j rj Hnj);
      [|intros r Hr; apply Z.eqb_neq; now apply Hgeo|reflexivity].
    reflexivity. }
  rewrite Hmap. cbn [bind].
  (* the merge *)
  unfold MergeGeos. change (String.eqb "oneGrid" "oneHive") with false.
  change (String.eqb "oneGrid" "oneGrid") with true. cbv iota.
  unfold zip_mapping, zip. cbn [iRhg jRhg iRgg jRgg combine map fst snd fold_left bind].
  assert (Hgrid : region_at [geo'] 0 (Z.of_nat j) = Ok fj).
  { unfold region_at. cbn [py_index List.length Z.of_nat Z.ltb Z.leb Z.compare
                           orb Z.to_nat nth_error bind Pos.of_succ_nat
                           Pos.compare Pos.compare_cont].
    rewrite py_index_nth. cbn [regs geo' set_regs].
    now rewrite replace_nth_nth, Nat.eqb_refl, Hnj. }
  rewrite Hgrid. cbn [bind].
  assert (Hhive : merge_at [self'] 0 (Z.of_nat i) fj
                  = Ok [set_regs self
                          (replace_nth i (merge ri rj merge_spacing) (regs self))]).
  { unfold merge_at. cbn [py_index List.length Z.of_nat Z.ltb Z.leb Z.compare
                          orb Z.to_nat nth_error bind Pos.of_succ_nat
                          Pos.compare Pos.compare_cont].
    rewrite py_index_nth. cbn [regs self' set_regs].
    rewrite replace_nth_nth, Nat.eqb_refl, Hni. cbn [option_map bind].
    destruct (Z.ltb_spec (Z.of_nat i) 0); [lia|]. rewrite Nat2Z.id.
    unfold set_geo. cbn [Z.ltb Z.compare Z.to_nat replace_nth].
    rewrite replace_nth_twice. reflexivity. }
  rewrite Hhive. cbn [bind Py.mem existsb rName fj initCont app fst snd fold_left].
  (* the removal *)
  assert (Hrem : remove_region [geo'] (rName rj) 0
                 = Ok [set_regs geoToInsert
                         (firstn j (regs geoToInsert)
                            ++ skipn (S j) (regs geoToInsert))]).
  { unfold remove_region. cbn [py_index List.length Z.of_nat Z.ltb Z.leb Z.compare
                               orb Z.to_nat nth_error bind Pos.of_succ_nat
                               Pos.compare Pos.compare_cont].
    assert (Hall : is_ALL (rName rj) = false) by now rewrite Hnamej.
    rewrite (ret_selector geo' "REG" (rName rj) SReg eq_refl).
    rewrite (proj2 (ret_sel_collection (ret_fuel 2 geo') geo' SReg (rName rj)
                      eq_refl Hall) j (ERegion fj)).
    - cbn [bind index_number]. unfold py_pop_at.
      cbn [regs geo' set_regs]. rewrite replace_nth_length.
      assert (Hlt : (Z.of_nat j <? 0) = false) by (apply Z.ltb_ge; lia).
      assert (Hle : (Z.of_nat (List.length (regs geoToInsert)) <=? Z.of_nat j)
                    = false) by (apply Z.leb_gt; lia).
      rewrite !Hlt, !Hle. cbn [orb bind]. rewrite Nat2Z.id, replace_nth_cut.
      reflexivity.
    - rewrite Hnamej. now apply (first_match_replace geoToInsert extName j rj fj). }
  unfold zip. cbn [combine fold_left bind fst snd].
  rewrite Hrem. cbn [bind app appendGeometries fold_left].
  reflexivity.
Qed.

End InsertionOfGeometries.

Lemma insertGeoInGeo_unknown_region_witness :
  insertGeoInGeo one_container one_contained (inl "G9") (inl "H1") = Exit.
Proof.
  apply insertGeoInGeo_unknown_region; try reflexivity.
  left. intros e [<- | [<- | []]]; reflexivity.
Defined.

Lemma insertGeoInGeo_one_region_witness :
  insertGeoInGeo bodies_B1_B2 (@geometry_of_regions Sample [region_R1; region_R2])
                 (inl "R2") (inl "R1")
  = Ok (@mkGeometry Sample
          (bods bodies_B1_B2)
          [merge (Region_set_def (Region_new "R1") "+B1 -B2" 5%Q) region_R2
                 merge_spacing;
           region_R1]
          [] [] [] "appended geometries").
Proof.
  apply (insertGeoInGeo_one_region bodies_B1_B2
           (@geometry_of_regions Sample [region_R1; region_R2])
           "R2" "R1" 0 1
           (Region_set_def (Region_new "R1") "+B1 -B2" 5%Q) region_R2);
    try reflexivity.
  - intros r [<- | []]. discriminate.
  - intros r [<- | [<- | []]]; discriminate.
  - split; [reflexivity|split; [reflexivity|]]. intros j e' Hj. lia.
  - split; [reflexivity|split; [reflexivity|]].
    intros [|j] e' Hj He; [injection He as <-; reflexivity|lia].
Defined.

(** ** Transformations in use *)

Section SharingFacts.
Context {ext : External}.

(** The relations with "ALL": the set of the names in use. *)
Lemma ret_links_ALL (g : Geometry) (myKey : string) (sel : Selector) :
  selector_of myKey = Some sel ->
  is_link sel = true ->
  exists idx, ret g myKey "ALL" = Ok (RRel (list_set (links g sel)) idx).
Proof.
  intros Hkey Hsel. rewrite (ret_selector _ _ _ _ Hkey).
  destruct (mapM_Forall2 _ (indexes g) (list_set (links g sel))
                         (transf_index g)) as (idx & Hidx & _).
  exists idx.
  destruct sel; try discriminate Hsel;
    cbn [ret_sel links]; unfold ret_linked;
    change (is_ALL "ALL") with true; cbv iota;
    cbn [links] in Hidx; rewrite Hidx; reflexivity.
Qed.

Lemma mem_set (l : list string) (x : string) :
  set_order_ok -> Py.mem x (list_set l) = Py.mem x l.
Proof.
  intros Hset. destruct (Hset l) as [_ Hin].
  destruct (Py.mem x l) eqn:E.
  - apply mem_In. apply Hin. now apply mem_In.
  - destruct (Py.mem x (list_set l)) eqn:E'; [|reflexivity].
    apply mem_In, Hin, mem_In in E'. congruence.
Qed.

Lemma existsb_mem (l1 l2 : list string) :
  existsb (fun n => Py.mem n l2) l1 = true <-> exists n, In n l1 /\ In n l2.
Proof.
  rewrite existsb_exists. split; intros (n & H1 & H2); exists n;
    (split; [assumption|]); now apply mem_In.
Qed.

(** X17. [Geometry.checkTransformations] returns and tells whether a
    transformation is shared: the flag is [True] exactly when some name is
    in use as the transformation of bodies and of lattices, or of lattices
    and of USRBINs, or of USRBINs and of bodies. *)
Theorem checkTransformations_shared (g : Geometry) :
  set_order_ok ->
  exists lShared,
    checkTransformations g = Ok lShared
    /\ (lShared = true <-> exists n, shared_name g n).
Proof.
  intros Hset. unfold checkTransformations.
  destruct (ret_links_ALL g "TRANSFLINKEDTOBODY" _ eq_refl eq_refl) as (i1 & ->).
  cbn [bind names_of].
  destruct (ret_links_ALL g "TRANSFLINKEDTOLAT" _ eq_refl eq_refl) as (i2 & ->).
  cbn [bind names_of].
  destruct (ret_links_ALL g "TRANSFLINKEDTOUSRBIN" _ eq_refl eq_refl) as (i3 & ->).
  cbn [bind names_of]. eexists. split; [reflexivity|].
  rewrite !orb_true_iff, !existsb_mem. unfold shared_name.
  assert (Hin : forall l x, In x (list_set l) <-> In x l)
    by (intros l; apply (Hset l)).
  split.
  - intros [[(n & H1 & H2) | (n & H1 & H2)] | (n & H1 & H2)];
      exists n; apply (proj1 (Hin _ _)) in H1; apply (proj1 (Hin _ _)) in H2;
      tauto.
  - intros (n & [[H1 H2] | [[H1 H2] | [H1 H2]]]);
      apply (proj2 (Hin _ _)) in H1; apply (proj2 (Hin _ _)) in H2;
      [left; left|left; right|right]; now exists n.
Qed.

(** Taking the transformations out from the last index down to the first
    leaves those that are not to be dropped, in their order. *)
Lemma enumerate_from_snoc {A : Type} (l : list A) (a : A) :
  forall s, Py.enumerate_from s (l ++ [a])
            = Py.enumerate_from s l ++ [(s + Z.of_nat (List.length l), a)].
Proof.
  induction l as [|x l IH]; intros s.
  - cbn. now rewrite Z.add_0_r.
  - cbn [app Py.enumerate_from List.length]. rewrite IH.
    cbn [app]. do 2 f_equal.
    replace (s + 1 + Z.of_nat (List.length l))
      with (s + Z.of_nat (S (List.length l))) by lia.
    reflexivity.
Qed.

Lemma pop_where_filter (drop : string -> bool) (l : list Transformation) :
  pop_where drop (map tName l) l
  = filter (fun t => negb (drop (tName t))) l.
Proof.
  unfold pop_where.
  enough (H : forall tail,
             fold_left
               (fun acc p =>
                  if drop (snd p)
                  then firstn (Z.to_nat (fst p)) acc
                         ++ skipn (S (Z.to_nat (fst p))) acc
                  else acc)
               (rev (Py.enumerate_from 0 (map tName l))) (l ++ tail)
             = filter (fun t => negb (drop (tName t))) l ++ tail).
  { specialize (H []). now rewrite !app_nil_r in H. }
  induction l as [|t l IH] using rev_ind; intros tail; [reflexivity|].
  rewrite map_app. cbn [map]. rewrite enumerate_from_snoc, rev_unit.
  cbn [fold_left fst snd]. rewrite length_map, Z.add_0_l, Nat2Z.id.
  rewrite filter_app. cbn [filter].
  destruct (drop (tName t)); cbn [negb].
  - rewrite <- app_assoc. rewrite firstn_app, Nat.sub_diag, firstn_all.
    cbn [firstn]. rewrite app_nil_r.
    replace (skipn (S (List.length l)) (l ++ [t] ++ tail)) with tail.
    + rewrite IH. now rewrite app_nil_r.
    + rewrite skipn_app, skipn_all2 by lia.
      replace (S (List.length l) - List.length l)%nat with 1%nat by lia.
      reflexivity.
  - rewrite <- !app_assoc. apply IH.
Qed.

Lemma ret_transf_ALL (g : Geometry) :
  ret g "TRANSF" "ALL"
  = Ok (RAll (map tName (tras g)) (Py.range (List.length (tras g)))).
Proof. reflexivity. Qed.

(** X18. [Geometry.ActualCopy]: with the scoring the copy holds all that the
    geometry holds; without the scoring it holds no USRBIN and no scoring
    card, and of the transformations those that bodies are linked to, in
    their order, and no other. *)
Theorem ActualCopy_keeps (myGeo : Geometry) :
  set_order_ok ->
  ActualCopy myGeo true = Ok myGeo
  /\ ActualCopy myGeo false
     = Ok {| bods := bods myGeo; regs := regs myGeo;
             tras := filter (fun t => Py.mem (tName t)
                                             (links myGeo STransfLinkedToBody))
                            (tras myGeo);
             bins := []; scos := []; title := title myGeo |}.
Proof.
  intros Hset. split; [now destruct myGeo|].
  unfold ActualCopy. rewrite ret_transf_ALL. cbn [bind names_of].
  destruct (ret_links_ALL myGeo "TRANSFLINKEDTOBODY" _ eq_refl eq_refl)
    as (idx & ->).
  cbn [bind names_of]. rewrite pop_where_filter. do 2 f_equal.
  apply filter_ext. intros t. now rewrite negb_involutive, mem_set.
Qed.

(** X19. [Geometry.LatticeCopy]: the copy holds no body and the one region
    "LATREG", a lattice of this name filled with VACUUM; with the scoring it
    holds the transformations, USRBINs and scoring cards of the geometry;
    without it, no USRBIN, no scoring card, and the transformations but
    those that USRBINs are linked to. *)
Theorem LatticeCopy_keeps (myGeo : Geometry) (lTrigScoring : bool) :
  set_order_ok ->
  LatticeCopy myGeo lTrigScoring
  = Ok {| bods := [];
          regs := [Region_set_material
                     (Region_assignLat (Region_new "LATREG") "LATREG") "VACUUM"];
          tras := if lTrigScoring then tras myGeo
                  else filter (fun t => negb (Py.mem (tName t)
                                                (links myGeo STransfLinkedToUsrbin)))
                              (tras myGeo);
          bins := if lTrigScoring then bins myGeo else [];
          scos := if lTrigScoring then scos myGeo else [];
          title := "LATTICE of " +++ title myGeo |}.
Proof.
  intros Hset. unfold LatticeCopy.
  change (add Geometry_new
              (ERegion (Region_set_material
                          (Region_assignLat (Region_new "LATREG") "LATREG")
                          "VACUUM")) "REG")
    with (Ok (set_regs Geometry_new
                [Region_set_material
                   (Region_assignLat (Region_new "LATREG") "LATREG") "VACUUM"])).
  cbn [bind]. destruct lTrigScoring; [reflexivity|].
  rewrite ret_transf_ALL. cbn [bind names_of].
  destruct (ret_links_ALL myGeo "TRANSFLINKEDTOUSRBIN" _ eq_refl eq_refl)
    as (idx & ->).
  cbn [bind names_of]. rewrite pop_where_filter. do 2 f_equal.
  apply filter_ext. intros t. now rewrite mem_set.
Qed.

End SharingFacts.

Lemma checkTransformations_shared_witness :
  exists lShared,
    checkTransformations (two_directives Sample (0, 0, 0)%Q) = Ok lShared
    /\ (lShared = true
        <-> exists n, shared_name (two_directives Sample (0, 0, 0)%Q) n).
Proof. apply checkTransformations_shared. exact Sample_set_order. Defined.

Lemma ActualCopy_keeps_witness :
  ActualCopy (two_directives Sample (0, 0, 0)%Q) true
  = Ok (two_directives Sample (0, 0, 0)%Q)
  /\ ActualCopy (two_directives Sample (0, 0, 0)%Q) false
     = Ok (two_directives Sample (0, 0, 0)%Q).
Proof.
  exact (ActualCopy_keeps (two_directives Sample (0, 0, 0)%Q) Sample_set_order).
Defined.

Lemma LatticeCopy_keeps_witness :
  LatticeCopy one_usrbin false
  = Ok (@mkGeometry Sample []
          [Region_set_material (Region_assignLat (Region_new "LATREG") "LATREG")
                               "VACUUM"]
          [] [] [] "LATTICE of one mesh").
Proof. exact (LatticeCopy_keeps one_usrbin false Sample_set_order). Defined.

(** ** Flagging regions *)

Section FlagFacts.
Context {ext : External}.

Lemma find_from_middle {A : Type} (p : A -> bool) (l1 l2 : list A) (a : A) :
  (forall x, In x l1 -> p x = false) -> p a = true ->
  forall s, find_from p s (l1 ++ a :: l2)
            = Some (s + Z.of_nat (List.length l1), a).
Proof.
  intros H1 Ha. induction l1 as [|x l1 IH]; intros s.
  - cbn [app find_from List.length]. rewrite Ha. do 2 f_equal. lia.
  - cbn [app find_from]. rewrite (H1 x (or_introl eq_refl)).
    rewrite IH by (intros y Hy; apply H1; now right).
    cbn [List.length]. do 2 f_equal. lia.
Qed.

Lemma replace_nth_middle {A : Type} (l1 l2 : list A) (a x : A) :
  replace_nth (List.length l1) x (l1 ++ a :: l2) = l1 ++ x :: l2.
Proof.
  induction l1 as [|y l1 IH]; [reflexivity|].
  cbn [app List.length replace_nth]. now rewrite IH.
Qed.

Lemma ret_reg (g : Geometry) (name : string) :
  is_ALL name = false ->
  ret g "reg" name
  = Ok (lookup ERegion (fun r => String.eqb (rName r) name) (regs g)).
Proof.
  intros Hall. rewrite (ret_selector g "reg" name SReg eq_refl).
  cbn [ret_sel]. unfold ret_collection. now rewrite Hall.
Qed.

(** The loop of [flagRegs] over the names of regions that all differ. *)
Lemma flag_loop (g : Geometry) (cont : Z) (cent : Vec3) (todo : list Region) :
  forall done,
    NoDup (map rName (done ++ todo)) ->
    (forall r, In r todo -> is_ALL (rName r) = false) ->
    fold_left
      (fun acc whichReg =>
         g' <- acc ;;
         r <- ret g' "reg" whichReg ;;
         match r with
         | ROne (ERegion outReg) iReg =>
             Ok (set_regs g' (replace_nth (Z.to_nat iReg)
                                          (initCont outReg cont cent 0%Q)
                                          (regs g')))
         | _ => Raise
         end)
      (map rName todo)
      (Ok (set_regs g (map (fun r => initCont r cont cent 0%Q) done ++ todo)))
    = Ok (set_regs g (map (fun r => initCont r cont cent 0%Q) (done ++ todo))).
Proof.
  induction todo as [|r todo IH]; intros done Hnd Hall.
  - cbn [map fold_left]. now rewrite !app_nil_r.
  - cbn [map fold_left bind].
    rewrite ret_reg by (apply Hall; now left).
    cbn [regs set_regs]. unfold lookup.
    rewrite (find_from_middle _ _ _ r).
    + cbn [bind]. rewrite Z.add_0_l, Nat2Z.id.
      replace (List.length (map (fun r0 => initCont r0 cont cent 0%Q) done))
        with (List.length (map (fun r0 => initCont r0 cont cent 0%Q) done))
        by reflexivity.
      rewrite replace_nth_middle.
      specialize (IH (done ++ [r])).
      assert (E1 : map (fun r0 => initCont r0 cont cent 0%Q) (done ++ [r]) ++ todo
                   = map (fun r0 => initCont r0 cont cent 0%Q) done
                       ++ initCont r cont cent 0%Q :: todo)
        by (rewrite map_app, <- app_assoc; reflexivity).
      assert (E2 : (done ++ [r]) ++ todo = done ++ r :: todo)
        by (rewrite <- app_assoc; reflexivity).
      rewrite E1, E2 in IH.
      change (set_regs (set_regs g (map (fun r0 => initCont r0 cont cent 0%Q) done
                                      ++ r :: todo))
                       (map (fun r0 => initCont r0 cont cent 0%Q) done
                          ++ initCont r cont cent 0%Q :: todo))
        with (set_regs g (map (fun r0 => initCont r0 cont cent 0%Q) done
                            ++ initCont r cont cent 0%Q :: todo)).
      rewrite IH; [reflexivity|exact Hnd|].
      intros x Hx. apply Hall. now right.
    + intros x Hx. apply in_map_iff in Hx as (x0 & <- & Hx0).
      cbn [rName initCont]. apply String.eqb_neq. intros E.
      rewrite map_app in Hnd. apply NoDup_remove_2 in Hnd.
      apply Hnd. apply in_or_app. left. rewrite <- E.
      now apply in_map.
    + apply String.eqb_refl.
Qed.

(** X20. [Geometry.flagRegs] with "ALL", in a geometry whose regions have
    names that all differ and do not read "ALL": every region takes the flag
    and the centre given, and its length [rMaxLen] is set back to zero;
    nothing else changes. *)
Theorem flagRegs_ALL (g : Geometry) (whichRegs : string) (cont : Z)
  (cent : Vec3) :
  is_ALL whichRegs = true ->
  NoDup (map rName (regs g)) ->
  (forall r, In r (regs g) -> is_ALL (rName r) = false) ->
  flagRegs g (inl whichRegs) cont cent
  = Ok (set_regs g (map (fun r => initCont r cont cent 0%Q) (regs g))).
Proof.
  intros Hall Hnd Hnames. unfold flagRegs. rewrite Hall.
  change (ret g "reg" "ALL")
    with (Ok (RAll (map rName (regs g)) (Py.range (List.length (regs g))))).
  cbn [bind names_of].
  pose proof (flag_loop g cont cent (regs g) [] Hnd Hnames) as H.
  cbn [map app] in H. rewrite <- H. f_equal. now destruct g.
Qed.

(** X21. [Geometry.flagRegs] with the name of one region: the first region
    of this name takes the flag and the centre given, and its length
    [rMaxLen] is set back to zero; a name that no region has makes the call
    die on the missing region. *)
Theorem flagRegs_name (g : Geometry) (whichRegs : string) (cont : Z)
  (cent : Vec3) :
  is_ALL whichRegs = false ->
  (unmatched g SReg whichRegs -> flagRegs g (inl whichRegs) cont cent = Raise)
  /\ (forall i r,
         first_match g SReg whichRegs i (ERegion r) ->
         flagRegs g (inl whichRegs) cont cent
         = Ok (set_regs g (replace_nth i (initCont r cont cent 0%Q) (regs g)))).
Proof.
  intros Hall. unfold flagRegs. rewrite Hall. cbn [bind fold_left].
  rewrite (ret_selector g "reg" whichRegs SReg eq_refl).
  destruct (ret_sel_collection (ret_fuel 2 g) g SReg whichRegs eq_refl Hall)
    as [Hnone Hone].
  split.
  - intros Hun. now rewrite (Hnone Hun).
  - intros i r Hfirst. rewrite (Hone _ _ Hfirst). cbn [bind].
    now rewrite Nat2Z.id.
Qed.

End FlagFacts.

Lemma flagRegs_ALL_witness :
  flagRegs three_containers (inl "all") (-1) (1, 2, 3)%Q
  = Ok (set_regs three_containers
          (map (fun r => initCont r (-1) (1, 2, 3)%Q 0%Q) (regs three_containers))).
Proof.
  apply flagRegs_ALL; [reflexivity| |].
  - repeat constructor; cbn; intuition discriminate.
  - intros r [<- | [<- | [<- | [<- | []]]]]; reflexivity.
Defined.

Lemma flagRegs_name_witness :
  flagRegs three_containers (inl "H9") (-1) (1, 2, 3)%Q = Raise.
Proof.
  apply (flagRegs_name three_containers "H9" (-1) (1, 2, 3)%Q eq_refl).
  intros e [<- | [<- | [<- | [<- | []]]]]; reflexivity.
Defined.

(** ** Renaming *)

Lemma rename_loop {A : Type} (name : A -> string) (skip : string -> bool)
  (fmt : Z -> string) (update : A -> string -> list string * list string -> A)
  (l : list A) :
  forall s done0 olds0 news0,
    exists D,
      fold_left (rename_step name skip fmt update) (Py.enumerate_from s l)
                (done0, (olds0, news0))
      = (done0 ++ D,
         (olds0 ++ map name (filter (fun a => negb (skip (name a))) l),
          news0 ++ map (fun ia => fmt (fst ia + 1))
                       (filter (fun ia => negb (skip (name (snd ia))))
                               (Py.enumerate_from s l))))
      /\ Forall2 (renamed_at name skip fmt update) (Py.enumerate_from s l) D.
Proof.
  induction l as [|a l IH]; intros s done0 olds0 news0.
  - exists []. cbn. rewrite !app_nil_r. split; [reflexivity|constructor].
  - cbn [Py.enumerate_from fold_left filter snd fst].
    unfold rename_step at 2. destruct (skip (name a)) eqn:E; cbn [negb].
    + destruct (IH (s + 1) (done0 ++ [a]) olds0 news0) as (D & -> & HD).
      exists (a :: D). rewrite <- app_assoc. split; [reflexivity|].
      constructor; [|exact HD]. unfold renamed_at. cbn [snd]. now rewrite E.
    + destruct (IH (s + 1)
                   (done0 ++ [update a (fmt (s + 1))
                                     (olds0 ++ [name a], news0 ++ [fmt (s + 1)])])
                   (olds0 ++ [name a]) (news0 ++ [fmt (s + 1)]))
        as (D & -> & HD).
      eexists (_ :: D). rewrite <- !app_assoc. split; [reflexivity|].
      constructor; [|exact HD]. unfold renamed_at. cbn [snd fst]. rewrite E.
      now eexists.
Qed.

Lemma rename_all_spec {A : Type} (name : A -> string) (skip : string -> bool)
  (fmt : Z -> string) (update : A -> string -> list string * list string -> A)
  (l : list A) :
  exists D,
    rename_all name skip fmt update l
    = (D,
       (map name (filter (fun a => negb (skip (name a))) l),
        map (fun ia => fmt (fst ia + 1))
            (filter (fun ia => negb (skip (name (snd ia))))
                    (Py.enumerate_from 0 l))))
    /\ Forall2 (renamed_at name skip fmt update) (Py.enumerate_from 0 l) D.
Proof.
  unfold rename_all.
  destruct (rename_loop name skip fmt update l 0 [] [] []) as (D & E & HD).
  exists D. split; [exact E|exact HD].
Qed.

Lemma mapM_Exit {A B : Type} (f : A -> outcome B) (l : list A) :
  (forall a, In a l -> f a <> Raise) ->
  (exists a, In a l /\ f a = Exit) ->
  mapM f l = Exit.
Proof.
  induction l as [|a l IH]; intros Hno (x & Hx & Ex); [destruct Hx|].
  cbn [mapM]. destruct (f a) as [b| |] eqn:E.
  - cbn [bind]. rewrite IH; [reflexivity| |].
    + intros y Hy. apply Hno. now right.
    + destruct Hx as [<- | Hx]; [congruence|]. now exists x.
  - reflexivity.
  - exfalso. apply (Hno a (or_introl eq_refl)). exact E.
Qed.

Lemma mapM_no_Raise {A B : Type} (f : A -> outcome B) (l : list A) :
  (forall a, In a l -> f a <> Raise) -> mapM f l <> Raise.
Proof.
  induction l as [|a l IH]; intros Hno; [discriminate|].
  cbn [mapM]. destruct (f a) as [b| |] eqn:E.
  - cbn [bind]. destruct (mapM f l) eqn:El; try discriminate.
    exfalso. apply IH; [|reflexivity]. intros y Hy. apply Hno. now right.
  - discriminate.
  - exfalso. apply (Hno a (or_introl eq_refl)). exact E.
Qed.

Lemma mapM_Ok_Forall2 {A B : Type} (f : A -> outcome B) (l : list A) :
  forall l', mapM f l = Ok l' -> Forall2 (fun a b => f a = Ok b) l l'.
Proof.
  induction l as [|a l IH]; intros l' H.
  - injection H as <-. constructor.
  - cbn [mapM] in H. destruct (f a) as [b| |] eqn:E; try discriminate.
    cbn [bind] in H. destruct (mapM f l) as [bs| |]; try discriminate.
    injection H as <-. constructor; [exact E|]. now apply IH.
Qed.

Lemma Forall2_nth_right {A B : Type} (R : A -> B -> Prop) (l : list A)
  (l' : list B) :
  Forall2 R l l' ->
  forall p b, nth_error l' p = Some b ->
              exists a, nth_error l p = Some a /\ R a b.
Proof.
  induction 1 as [|a b0 l l' Hab H IH]; intros [|p] b Hp; try discriminate.
  - injection Hp as <-. now exists a.
  - now apply IH.
Qed.

Lemma Forall2_nth_left {A B : Type} (R : A -> B -> Prop) (l : list A)
  (l' : list B) :
  Forall2 R l l' ->
  forall p a, nth_error l p = Some a ->
              exists b, nth_error l' p = Some b /\ R a b.
Proof.
  induction 1 as [|a0 b l l' Hab H IH]; intros [|p] a Hp; try discriminate.
  - injection Hp as <-. now exists b.
  - now apply IH.
Qed.

Lemma enumerate_from_nth {A : Type} (l : list A) :
  forall s p ia,
    nth_error (Py.enumerate_from s l) p = Some ia ->
    fst ia = s + Z.of_nat p /\ nth_error l p = Some (snd ia).
Proof.
  induction l as [|a l IH]; intros s [|p] ia H; try discriminate.
  - injection H as <-. cbn. split; [lia|reflexivity].
  - cbn [Py.enumerate_from nth_error] in H.
    destruct (IH _ _ _ H) as [E1 E2]. split; [lia|exact E2].
Qed.

Lemma index_in_first (t : string) (l : list string) :
  Py.mem t l = true ->
  nth_error l (index_in t l) = Some t
  /\ forall j x, (j < index_in t l)%nat -> nth_error l j = Some x -> x <> t.
Proof.
  induction l as [|y l IH]; intros H; [discriminate|].
  cbn [index_in]. unfold Py.mem in H. cbn [existsb] in H.
  destruct (String.eqb_spec t y) as [->|Hne].
  - split; [reflexivity|]. intros j x Hj. lia.
  - cbn [orb] in H. destruct (IH H) as [Hn Hb]. split; [exact Hn|].
    intros [|j] x Hj Hx.
    + injection Hx as <-. congruence.
    + apply (Hb j x); [lia|exact Hx].
Qed.

Lemma enumerate_from_length {A : Type} (l : list A) :
  forall s, List.length (Py.enumerate_from s l) = List.length l.
Proof.
  induction l as [|a l IH]; intros s; [reflexivity|].
  cbn [Py.enumerate_from List.length]. now rewrite IH.
Qed.

Lemma filter_enumerate_length {A : Type} (q : A -> bool) (l : list A) :
  forall s, List.length (filter (fun ia => q (snd ia)) (Py.enumerate_from s l))
            = List.length (filter q l).
Proof.
  induction l as [|a l IH]; intros s; [reflexivity|].
  cbn [Py.enumerate_from filter snd]. destruct (q a); cbn [List.length];
    now rewrite IH.
Qed.

Section RenameFacts.
Context {ext : External}.

(** X22. [Geometry.rename] and a body under a geometry directive whose
    transformation is not among those that are renamed (no transformation
    has the name, or the name is among the exceptions): the run is ended. *)
Theorem rename_dangling_directive (g : Geometry) (newName : string)
  (lNotify : bool) (nDigits : nat) (addChar : string)
  (exceptions : option Exceptions) (b : Body) (t : string) :
  In b (bods g) ->
  bTransf b = Some t ->
  (forall tr, In tr (tras g) -> tName tr = t ->
              excepted exceptions exc_tras t = true) ->
  rename g newName lNotify nDigits addChar exceptions = Exit.
Proof.
  intros Hb Ht Hno. unfold rename.
  set (nNameFmt := TailNameInt newName None nDigits addChar).
  set (nNameScoFmt := TailNameInt newName (Some 10%nat) (nDigits + 1) addChar).
  destruct (rename_all_spec bName (excepted exceptions exc_bods) nNameFmt
              (fun b n _ =>
                 {| bName := n;
                    bComment := renamed_comment (bComment b) (bName b) n lNotify;
                    bTransf := bTransf b; bShape := bShape b |}) (bods g))
    as (bods1 & -> & Hbods1).
  destruct (rename_all _ _ _ _ (regs g)) as [regs1 [oldRegNames newRegNames]].
  destruct (rename_all_spec tName (excepted exceptions exc_tras) nNameFmt
              (fun t n _ =>
                 {| tName := n;
                    tComment := renamed_comment (tComment t) (tName t) n lNotify;
                    ID := ID t; RotDefis := RotDefis t |}) (tras g))
    as (tras1 & -> & _).
  set (oldTrasNames := map tName (filter (fun a => negb (excepted exceptions exc_tras
                                                           (tName a))) (tras g))).
  set (newTrasNames := map _ _).
  assert (Hout : Py.mem t oldTrasNames = false).
  { destruct (Py.mem t oldTrasNames) eqn:E; [|reflexivity].
    apply mem_In in E. unfold oldTrasNames in E.
    apply in_map_iff in E as (tr & Hn & Hin). apply filter_In in Hin as [Hin Hex].
    rewrite Hn in Hex. rewrite (Hno tr Hin Hn) in Hex. discriminate. }
  match goal with
  | |- bind (mapM ?f ?l) _ = _ =>
      assert (Hbins : mapM f l <> Raise)
  end.
  { apply mapM_no_Raise. intros [iBin myBin] _.
    destruct (Usrbin_isLinked myBin); cbn [bind].
    - destruct (find_from _ 0 _) as [[k p]|]; cbn [bind]; [|discriminate].
      now destruct (excepted exceptions exc_bins _).
    - now destruct (excepted exceptions exc_bins _). }
  match goal with
  | |- bind ?m _ = _ => destruct m as [bins1| |]
  end; [|reflexivity|contradiction].
  cbn [bind].
  match goal with
  | |- bind (mapM ?f ?l) _ = _ => rewrite (mapM_Exit f l)
  end; [reflexivity| |].
  - intros b1 _. destruct (bTransf b1) as [t1|]; [|discriminate].
    destruct (Py.mem t1 oldTrasNames) eqn:Emem; cbn [negb]; [|discriminate].
    (* the names kept and the names given are as many *)
    rewrite py_index_nth.
    destruct (nth_error newTrasNames (index_in t1 oldTrasNames)) eqn:E;
      [discriminate|].
    exfalso. apply nth_error_None in E.
    destruct (index_in_first t1 oldTrasNames Emem) as [Hn _].
    assert (index_in t1 oldTrasNames < List.length oldTrasNames)%nat
      by (apply nth_error_Some; congruence).
    unfold oldTrasNames, newTrasNames in *.
    rewrite !length_map in *.
    rewrite (filter_enumerate_length
               (fun a => negb (excepted exceptions exc_tras (tName a)))) in E.
    lia.
  - pose proof (Forall2_length Hbods1) as Hlen.
    apply In_nth_error in Hb as (p & Hp).
    assert (Hen : exists ia, nth_error (Py.enumerate_from 0 (bods g)) p = Some ia).
    { destruct (nth_error (Py.enumerate_from 0 (bods g)) p) eqn:E; [now eexists|].
      apply nth_error_None in E.
      rewrite enumerate_from_length in E.
      assert (p < List.length (bods g))%nat by (apply nth_error_Some; congruence).
      lia. }
    destruct Hen as (ia & Hia).
    destruct (enumerate_from_nth _ _ _ _ Hia) as [_ Hsnd].
    rewrite Hp in Hsnd. injection Hsnd as Hsnd.
    destruct (Forall2_nth_left _ _ _ Hbods1 _ _ Hia) as (b1 & Hb1 & Hren).
    exists b1. split; [now apply nth_error_In in Hb1|].
    assert (Ht1 : bTransf b1 = Some t).
    { unfold renamed_at in Hren. rewrite <- Hsnd in Hren.
      destruct (excepted exceptions exc_bods (bName b)).
      - now rewrite Hren.
      - destruct Hren as (acc & ->). exact Ht. }
    rewrite Ht1, Hout. reflexivity.
Qed.

End RenameFacts.

Lemma enumerate_from_fst {A : Type} (l : list A) :
  forall k, map fst (Py.enumerate_from (Z.of_nat k) l)
            = map Z.of_nat (seq k (List.length l)).
Proof.
  induction l as [|a l IH]; intros k; [reflexivity|].
  cbn [Py.enumerate_from map fst List.length seq]. f_equal.
  replace (Z.of_nat k + 1) with (Z.of_nat (S k)) by lia. apply IH.
Qed.

Lemma names_by_position {A B : Type} (R : Z * A -> B -> Prop)
  (nameB : B -> string) (fmt : Z -> string) (l : list A) (D : list B) :
  Forall2 R (Py.enumerate_from 0 l) D ->
  (forall ia b, R ia b -> nameB b = fmt (fst ia + 1)) ->
  map nameB D = map (fun i => fmt (i + 1)) (Py.range (List.length l)).
Proof.
  intros HF HR. unfold Py.range.
  rewrite <- (enumerate_from_fst l 0). rewrite map_map.
  change (Z.of_nat 0) with 0. induction HF as [|ia b E D Hab _ IH]; [reflexivity|].
  cbn [map]. now rewrite (HR _ _ Hab), IH.
Qed.

Lemma Forall2_compose {A B C : Type} (R : A -> B -> Prop) (S : B -> C -> Prop)
  (l : list A) (m : list B) (n : list C) :
  Forall2 R l m -> Forall2 S m n ->
  Forall2 (fun a c => exists b, R a b /\ S b c) l n.
Proof.
  intros H. revert n. induction H as [|a b l m Hab _ IH]; intros n Hn.
  - inversion Hn. constructor.
  - inversion Hn as [|b' c m' n' Hbc Hmn]; subst. constructor.
    + now exists b.
    + now apply IH.
Qed.

Lemma filter_all {A : Type} (l : list A) : filter (fun _ => true) l = l.
Proof. induction l as [|a l IH]; [reflexivity|]. cbn [filter]. now rewrite IH. Qed.

Section RenamePositions.
Context {ext : External}.

(** X23. [Geometry.rename] without exceptions, when it returns: every
    collection is as long as it was, and every entity has the name made of
    the new name and its position plus one, bodies, regions and
    transformations in one format, USRBINs and scoring cards in the other;
    a body under a geometry directive is afterwards linked to the new name
    of the first transformation that had the name it was linked to, and a
    body under no directive stays so. *)
Theorem rename_by_position (g g' : Geometry) (newName : string)
  (lNotify : bool) (nDigits : nat) (addChar : string) :
  rename g newName lNotify nDigits addChar None = Ok g' ->
  let fmt := TailNameInt newName None nDigits addChar in
  let fmtSco := TailNameInt newName (Some 10%nat) (nDigits + 1) addChar in
  map bName (bods g')
  = map (fun i => fmt (i + 1)) (Py.range (List.length (bods g)))
  /\ map rName (regs g')
     = map (fun i => fmt (i + 1)) (Py.range (List.length (regs g)))
  /\ map tName (tras g')
     = map (fun i => fmt (i + 1)) (Py.range (List.length (tras g)))
  /\ map uName (bins g')
     = map (fun i => fmtSco (i + 1)) (Py.range (List.length (bins g)))
  /\ map sName (scos g')
     = map (fun i => fmtSco (i + 1)) (Py.range (List.length (scos g)))
  /\ forall p b b',
       nth_error (bods g) p = Some b ->
       nth_error (bods g') p = Some b' ->
       match bTransf b with
       | None => bTransf b' = None
       | Some t =>
           exists k tr,
             first_match g STransf t k (ETransformation tr)
             /\ bTransf b' = Some (fmt (Z.of_nat k + 1))
       end.
Proof.
  intros H fmt fmtSco. unfold rename in H.
  fold fmt in H. fold fmtSco in H.
  match type of H with
  | context [rename_all bName ?sk ?f ?u ?l] =>
      destruct (rename_all_spec bName sk f u l) as (bods1 & Eb & Hbods1);
      rewrite Eb in H; clear Eb; cbv beta iota in H
  end.
  match type of H with
  | context [rename_all rName ?sk ?f ?u ?l] =>
      destruct (rename_all_spec rName sk f u l) as (regs1 & Er & Hregs1);
      rewrite Er in H; clear Er; cbv beta iota in H
  end.
  match type of H with
  | context [rename_all tName ?sk ?f ?u ?l] =>
      destruct (rename_all_spec tName sk f u l) as (tras1 & Et & Htras1);
      rewrite Et in H; clear Et; cbv beta iota in H
  end.
  cbn [excepted negb] in H, Hbods1, Hregs1, Htras1.
  set (oldTrasNames := map tName (filter (fun _ => true) (tras g))) in H.
  set (newTrasNames := map (fun ia : Z * Transformation => fmt (fst ia + 1))
                           (filter (fun _ => true)
                                   (Py.enumerate_from 0 (tras g)))) in H.
  apply bind_Ok in H as (bins1 & Hbins & H).
  apply bind_Ok in H as (bods2 & Hbods2 & H).
  apply bind_Ok in H as (regs2 & Hregs2 & H).
  injection H as <-. cbn [bods regs tras bins scos].
  apply mapM_Ok_Forall2 in Hbins, Hbods2, Hregs2.
  assert (Hold : oldTrasNames = map tName (tras g)).
  { unfold oldTrasNames. now rewrite filter_all. }
  assert (Hnew : forall k n, nth_error newTrasNames k = Some n ->
                             n = fmt (Z.of_nat k + 1)).
  { unfold newTrasNames. intros k n Hk.
    rewrite filter_all, nth_error_map in Hk.
    destruct (nth_error (Py.enumerate_from 0 (tras g)) k) as [ia|] eqn:E;
      [|discriminate].
    injection Hk as <-. destruct (enumerate_from_nth _ _ _ _ E) as [-> _].
    reflexivity. }
  pose proof (Forall2_compose _ _ _ _ _ Hbods1 Hbods2) as HFb.
  pose proof (Forall2_compose _ _ _ _ _ Hregs1 Hregs2) as HFr.
  unfold renamed_at in HFb, HFr, Htras1, Hbods1.
  cbn [excepted] in HFb, HFr, Htras1, Hbods1.
  split; [|split; [|split; [|split; [|split]]]].
  - apply (names_by_position _ _ _ _ _ HFb).
    intros ia b2 (b1 & (acc & ->) & Hb2). cbn [bTransf] in Hb2.
    destruct (bTransf (snd ia)) as [t|].
    + destruct (negb _); [discriminate|].
      apply bind_Ok in Hb2 as (ii & _ & [= <-]). reflexivity.
    + now injection Hb2 as <-.
  - apply (names_by_position _ _ _ _ _ HFr).
    intros ia r2 (r1 & (acc & ->) & Hr2).
    destruct (isLattice _); [|now injection Hr2 as <-].
    cbn [rTransf] in Hr2. destruct (rTransf (snd ia)) as [t|]; [|discriminate].
    destruct (negb _); [discriminate|].
    apply bind_Ok in Hr2 as (ii & _ & [= <-]). reflexivity.
  - apply (names_by_position _ _ _ _ _ Htras1).
    intros ia t1 (acc & ->). reflexivity.
  - apply (names_by_position _ _ _ _ _ Hbins).
    intros [iBin myBin] u' Hu. cbn [fst].
    apply bind_Ok in Hu as (relinked & _ & [= <-]). reflexivity.
  - unfold Py.range. rewrite <- (enumerate_from_fst (scos g) 0).
    rewrite !map_map. apply map_ext. now intros [iSco mySco].
  - intros p b b2 Hp Hp2.
    destruct (Forall2_nth_right _ _ _ Hbods2 _ _ Hp2) as (b1 & Hp1 & Hb2).
    destruct (Forall2_nth_right _ _ _ Hbods1 _ _ Hp1) as (ia & Hia & (acc & ->)).
    cbn [snd fst] in *.
    destruct (enumerate_from_nth _ _ _ _ Hia) as [_ Hsnd].
    rewrite Hp in Hsnd. injection Hsnd as Hsnd. rewrite <- Hsnd in Hb2.
    cbn [bTransf] in Hb2. destruct (bTransf b) as [t|].
    + destruct (Py.mem t oldTrasNames) eqn:Emem; cbn [negb] in Hb2;
        [|discriminate].
      apply bind_Ok in Hb2 as (ii & Hii & [= <-]).
      destruct (index_in_first t oldTrasNames Emem) as [Hn Hbefore].
      rewrite py_index_nth in Hii.
      destruct (nth_error newTrasNames (index_in t oldTrasNames)) as [n|] eqn:En;
        [|discriminate].
      injection Hii as <-. rewrite (Hnew _ _ En).
      rewrite Hold in Hn, Hbefore. rewrite Hold. rewrite nth_error_map in Hn.
      destruct (nth_error (tras g) (index_in t (map tName (tras g))))
        as [tr|] eqn:Etr; [|discriminate].
      injection Hn as Hn.
      exists (index_in t (map tName (tras g))), tr.
      split; [|reflexivity]. repeat split.
      * cbn [entities]. now rewrite nth_error_map, Etr.
      * cbn [matches]. rewrite Hn. apply String.eqb_refl.
      * intros j e' Hj He'. cbn [entities] in He'. rewrite nth_error_map in He'.
        destruct (nth_error (tras g) j) as [tj|] eqn:Ej; [|discriminate].
        injection He' as <-. cbn [matches]. apply String.eqb_neq.
        apply (Hbefore j (tName tj) Hj). now rewrite nth_error_map, Ej.
    + now injection Hb2 as <-.
Qed.

End RenamePositions.

Lemma rename_dangling_directive_witness :
  rename (two_directives Sample (0, 0, 0)%Q) "N" true 2 "_"
         (Some {| exc_bods := None; exc_regs := None; exc_tras := Some ["T2"];
                  exc_bins := None; exc_scos := None |})
  = Exit.
Proof.
  apply (rename_dangling_directive (two_directives Sample (0, 0, 0)%Q) "N" true 2
           "_" _ (@mkBody Sample "B2" "" (Some "T2") (0, 0, 0)%Q) "T2").
  - right. left. reflexivity.
  - reflexivity.
  - intros tr _ _. reflexivity.
Defined.

Lemma rename_by_position_witness :
  map bName (bods (@mkGeometry Sample
                     [ @mkBody Sample "N_01" "* NAME CHANGE: FROM B1 TO N_01"
                               (Some "N_01") (0, 0, 0)%Q;
                       @mkBody Sample "N_02" "* NAME CHANGE: FROM B2 TO N_02"
                               (Some "N_02") (0, 0, 0)%Q ]
                     []
                     [ {| tName := "N_01";
                          tComment := "* NAME CHANGE: FROM T1 TO N_01";
                          ID := 1; RotDefis := [] |};
                       {| tName := "N_02";
                          tComment := "* NAME CHANGE: FROM T2 TO N_02";
                          ID := 2; RotDefis := [] |} ]
                     [] [] ""))
  = ["N_01"; "N_02"].
Proof.
  exact (proj1 (rename_by_position (two_directives Sample (0, 0, 0)%Q) _ "N" true
                  2 "_" eq_refl)).
Defined.

(** ** The transform composer on bodies and meshes *)

Section BakingFacts.
Context {ext : External}.

Lemma usrbin_steps_moved (dd : Vec3) (Tname : string) (l : list Usrbin) :
  (forall u, In u l -> Usrbin_isLinked u = false) ->
  forall done lCreate tTrasfs,
    fold_left (usrbin_step (Some dd) Tname) l (done, lCreate, tTrasfs)
    = (done ++ map (Usrbin_moved dd) l, lCreate, tTrasfs).
Proof.
  induction l as [|u l IH]; intros H done lCreate tTrasfs.
  - cbn. now rewrite app_nil_r.
  - cbn [fold_left map]. unfold usrbin_step at 2.
    rewrite (H u (or_introl eq_refl)).
    rewrite IH by (intros x Hx; apply H; now right).
    now rewrite <- app_assoc.
Qed.

(** After the bodies: with no lattice, and the USRBINs left out or none,
    the rest of the call changes nothing. *)
Lemma solidTrasform_rest_idle (g2 : Geometry) (L : list RotDefi)
  (wrap : option (list RotDefi)) (lTraslOnly : option Vec3)
  (lOnlyGeo : bool) (myName : string) (myComment : option string) :
  no_lattice g2 ->
  lOnlyGeo = true \/ bins g2 = [] ->
  (g4 <- (let '(rs, lCreate, tTrasfs) :=
            fold_left (lattice_step (myName +++ "_lat")) (regs g2)
                      ([], false, []) in
          record_steps (set_regs g2 rs) (myName +++ "_lat") lCreate tTrasfs
                       L wrap myComment) ;;
   (if negb lOnlyGeo then
      let '(us, lCreate, tTrasfs) :=
        fold_left (usrbin_step lTraslOnly (myName +++ "_bin")) (bins g4)
                  ([], false, []) in
      record_steps (set_bins g4 us) (myName +++ "_bin") lCreate tTrasfs
                   L None myComment
    else Ok g4))
  = Ok g2.
Proof.
  intros Hlat Hbins.
  rewrite (lattice_steps_none _ _ Hlat), set_regs_same, record_steps_idle.
  cbn [bind]. destruct Hbins as [-> | Hb]; [reflexivity|].
  rewrite Hb. cbn [fold_left]. rewrite <- Hb.
  rewrite set_bins_same, record_steps_idle. now destruct lOnlyGeo.
Qed.

Lemma steps_with_translation (L : list RotDefi) (d : RotDefi) :
  (0 <? List.length (L ++ [d]))%nat = true.
Proof. rewrite length_app. apply Nat.ltb_lt. cbn [List.length]. lia. Qed.

(** X24. [Geometry.solidTrasform] applied to the bodies themselves (no
    geometry directives), in a geometry without lattice and with the USRBINs
    left out or none: the call changes the shapes of the bodies and nothing
    else, and every body is rotated first, by the matrix given or by the
    matrix of the angle about the axis, and translated second. *)
Theorem solidTrasform_rotates_then_moves (g : Geometry) (dd : Vec3)
  (myMat : option RotMat) (myTheta : option Q) (myAxis : Z)
  (lDegs lOnlyGeo lWrapGeo : bool) (myName : string)
  (myComment : option string) :
  no_lattice g ->
  lOnlyGeo = true \/ bins g = [] ->
  solidTrasform g (Some dd) myMat (option_map Angle myTheta) (Axis myAxis)
                lDegs false lOnlyGeo lWrapGeo myName myComment
  = Ok (set_bods g
          (map (Body_map_shape
                  (rotated_then_moved
                     (rotation_applied myMat myTheta myAxis lDegs) lDegs dd))
               (bods g))).
Proof.
  intros Hlat Hbins.
  unfold solidTrasform. cbn [solidTrasform_fuel]. unfold solidTrasform_call.
  destruct myMat as [m|]; [|destruct myTheta as [th|];
                            [destruct (nonzero th) eqn:Eth|]];
    cbn [option_map rotation_applied bind]; rewrite ?Eth; cbn [bind app];
    rewrite ?steps_with_translation; cbn [List.length Nat.ltb Nat.leb bind];
    rewrite solidTrasform_rest_idle; try assumption;
    unfold set_bods; cbn [bods regs tras bins scos title];
    rewrite ?map_map; reflexivity.
Qed.

(** X25. [Geometry.solidTrasform] with a translation alone, applied to the
    bodies themselves, in a geometry without lattice whose USRBINs are
    linked to no transformation: the bodies are translated, the mesh of
    every USRBIN is moved by the same vector, and no transformation is made
    and no USRBIN is linked. *)
Theorem solidTrasform_moves_meshes (g : Geometry) (dd : Vec3) (myAxis : Axes)
  (lDegs lWrapGeo : bool) (myName : string) (myComment : option string) :
  no_lattice g ->
  (forall u, In u (bins g) -> Usrbin_isLinked u = false) ->
  solidTrasform g (Some dd) None None myAxis lDegs false false lWrapGeo
                myName myComment
  = Ok {| bods := map (Body_map_shape (Body_traslate dd)) (bods g);
          regs := regs g; tras := tras g;
          bins := map (Usrbin_moved dd) (bins g);
          scos := scos g; title := title g |}.
Proof.
  intros Hlat Hbins.
  unfold solidTrasform. cbn [solidTrasform_fuel]. unfold solidTrasform_call.
  cbn [bind app List.length Nat.ltb Nat.leb negb].
  cbn [regs set_bods]. rewrite (lattice_steps_none _ _ Hlat).
  rewrite record_steps_idle. cbn [bind set_regs bins].
  rewrite (usrbin_steps_moved dd _ _ Hbins). cbn [app].
  now rewrite record_steps_idle.
Qed.

(** X26. [Geometry.solidTrasform] with a list of angles and a list of axes
    (and no translation): the lists must be as long as each other, or the
    run is ended; the call then does what the calls with one angle about
    one axis do, one after the other in the order of the lists, each under
    the name "ToFinPos" and without comment, whatever name and comment the
    call was given. *)
Theorem solidTrasform_angle_list (g : Geometry) (ths : list Q) (axs : list Z)
  (lDegs lGeoDirs lOnlyGeo lWrapGeo : bool) (myName : string)
  (myComment : option string) :
  solidTrasform g None None (Some (AngleList ths)) (AxisList axs)
                lDegs lGeoDirs lOnlyGeo lWrapGeo myName myComment
  = if (List.length ths =? List.length axs)%nat then
      fold_left
        (fun acc p =>
           ga <- acc ;;
           solidTrasform ga None None (Some (Angle (fst p))) (Axis (snd p))
                         lDegs lGeoDirs lOnlyGeo lWrapGeo "ToFinPos" None)
        (zip ths axs) (Ok g)
    else Exit.
Proof.
  unfold solidTrasform at 1. cbn [solidTrasform_fuel].
  unfold solidTrasform_call at 1.
  destruct (List.length ths =? List.length axs)%nat; cbn [negb bind];
    [|reflexivity].
  match goal with
  | |- bind (bind (fold_left ?f1 ?l ?a) _) _ = fold_left ?f2 _ _ =>
      assert (E : forall acc, fold_left f1 l acc = fold_left f2 l acc)
  end.
  { intros acc. reflexivity. }
  rewrite E.
  match goal with
  | |- bind (bind ?m _) _ = _ => destruct m as [g'| |]
  end; reflexivity.
Qed.

Lemma link_all_linked (Tname T : string) (l : list Body) :
  l <> [] ->
  (forall b, In b l -> bTransf b = Some T) ->
  link_all bTransf Body_link Tname l = (l, false, [T]).
Proof.
  intros Hne H. unfold link_all.
  destruct l as [|b l]; [contradiction|].
  cbn [fold_left]. unfold link_step at 2.
  rewrite (H b (or_introl eq_refl)). cbn [Py.mem existsb app].
  assert (Hrest : forall done,
             fold_left (link_step bTransf Body_link Tname) l (done, false, [T])
             = (done ++ l, false, [T])).
  { assert (Hl : forall b0, In b0 l -> bTransf b0 = Some T)
      by (intros b0 Hb0; apply H; now right).
    clear H Hne. induction l as [|x l IH]; intros done.
    - cbn. now rewrite app_nil_r.
    - cbn [fold_left]. unfold link_step at 2.
      rewrite (Hl x (or_introl eq_refl)).
      unfold Py.mem. cbn [existsb]. rewrite String.eqb_refl. cbn [orb].
      rewrite IH by (intros y Hy; apply Hl; now right).
      now rewrite <- app_assoc. }
  apply Hrest.
Qed.

Lemma AddRotDefis_head (t : Transformation) (L : list RotDefi) :
  AddRotDefis t L 0
  = {| tName := tName t; tComment := tComment t; ID := ID t;
       RotDefis := rev L ++ RotDefis t |}.
Proof.
  unfold AddRotDefis. revert t. induction L as [|d L IH]; intros t.
  - now destruct t.
  - cbn [fold_left]. rewrite IH. cbn [AddRotDefi tName tComment ID RotDefis].
    f_equal. cbn [Z.eqb]. unfold py_insert.
    cbn [Z.ltb Z.compare]. rewrite Z.min_l by lia.
    cbn [Z.to_nat firstn skipn app rev]. now rewrite <- app_assoc.
Qed.

(** X27. [Geometry.solidTrasform] under geometry directives, in a geometry
    whose bodies are all linked to one transformation already: no
    transformation is made; the transformation of the bodies takes the
    steps of the call in front of the steps it holds, the translation
    first and the rotation second. *)
Theorem solidTrasform_heads_card (g : Geometry) (dd : Vec3) (th : Q) (ax : Z)
  (lDegs lOnlyGeo lWrapGeo : bool) (myName : string)
  (myComment : option string) (T : string) (k : nat) (t : Transformation) :
  bods g <> [] ->
  (forall b, In b (bods g) -> bTransf b = Some T) ->
  is_ALL T = false ->
  first_match g STransf T k (ETransformation t) ->
  no_lattice g ->
  lOnlyGeo = true \/ bins g = [] ->
  nonzero th = true ->
  solidTrasform g (Some dd) None (Some (Angle th)) (Axis ax)
                lDegs true lOnlyGeo lWrapGeo myName myComment
  = Ok (set_tras g
          (replace_nth k
             {| tName := tName t; tComment := tComment t; ID := ID t;
                RotDefis := [RotDefi_tra (Vec3_opp dd); RotDefi_rot ax th]
                              ++ RotDefis t |}
             (tras g))).
Proof.
  intros Hne Hlinked Hall Hfirst Hlat Hbins Hth.
  unfold solidTrasform. cbn [solidTrasform_fuel]. unfold solidTrasform_call.
  rewrite Hth. cbn [bind app List.length Nat.ltb Nat.leb].
  rewrite (link_all_linked _ T _ Hne Hlinked).
  assert (Hrec : record_steps (set_bods g (bods g)) (myName +++ "_bdy") false [T]
                   [RotDefi_rot ax th; RotDefi_tra (Vec3_opp dd)] None myComment
                 = Ok (set_tras g
                         (replace_nth k
                            {| tName := tName t; tComment := tComment t;
                               ID := ID t;
                               RotDefis := [RotDefi_tra (Vec3_opp dd);
                                            RotDefi_rot ax th] ++ RotDefis t |}
                            (tras g)))).
  { unfold record_steps. cbn [bind fold_left]. unfold on_transf.
    rewrite (ret_selector _ "transf" T STransf eq_refl).
    rewrite (proj2 (ret_sel_collection _ (set_bods g (bods g)) STransf T
                      eq_refl Hall) k (ETransformation t) Hfirst).
    cbn [bind]. rewrite Nat2Z.id, AddRotDefis_head. now destruct g. }
  rewrite Hrec. cbn [bind].
  apply solidTrasform_rest_idle; assumption.
Qed.

End BakingFacts.

Lemma solidTrasform_rotates_then_moves_witness :
  solidTrasform bodies_B1_B2 (Some (0, 0, 10)%Q) None (Some (Angle 90%Q)) (Axis 2)
                true false false false "ToFinPos" None
  = Ok (set_bods bodies_B1_B2
          [ @mkBody Sample "B1" "" None (0, 0, 10)%Q;
            @mkBody Sample "B2" "" None (1, 0, 10)%Q ]).
Proof.
  apply (solidTrasform_rotates_then_moves bodies_B1_B2 (0, 0, 10)%Q None
           (Some 90%Q) 2 true false false "ToFinPos" None).
  - intros r [<- | []]. reflexivity.
  - now right.
Defined.

Lemma solidTrasform_moves_meshes_witness :
  solidTrasform one_usrbin (Some (0, 0, 10)%Q) None None (Axis 3)
                true false false false "ToFinPos" None
  = Ok one_usrbin.
Proof.
  apply (solidTrasform_moves_meshes one_usrbin (0, 0, 10)%Q (Axis 3) true false
           "ToFinPos" None).
  - intros r [].
  - intros u [<- | []]. reflexivity.
Defined.

Lemma solidTrasform_heads_card_witness :
  solidTrasform
    (@mkGeometry Sample [ @mkBody Sample "B1" "" (Some "T1") (0, 0, 0)%Q ]
                 [] [Transformation_new 1 "T1"] [] [] "")
    (Some (0, 0, 10)%Q) None (Some (Angle 90%Q)) (Axis 2)
    true true false false "ToFinPos" None
  = Ok (@mkGeometry Sample [ @mkBody Sample "B1" "" (Some "T1") (0, 0, 0)%Q ]
          []
          [ {| tName := "T1"; tComment := ""; ID := 1;
               RotDefis := [RotDefi_tra (0, 0, -10)%Q; RotDefi_rot 2 90%Q] |} ]
          [] [] "").
Proof.
  apply (solidTrasform_heads_card
           (@mkGeometry Sample [ @mkBody Sample "B1" "" (Some "T1") (0, 0, 0)%Q ]
                        [] [Transformation_new 1 "T1"] [] [] "")
           (0, 0, 10)%Q 90%Q 2 true false false "ToFinPos" None "T1" 0
           (Transformation_new 1 "T1")); try reflexivity.
  - discriminate.
  - intros b [<- | []]. reflexivity.
  - split; [reflexivity|split; [reflexivity|]]. intros j e' Hj. lia.
  - intros r [].
  - now right.
Defined.

(** ** USRBIN cards as text *)

Lemma substring_length_le (s : string) :
  forall n m, (String.length (substring n m s) <= m)%nat.
Proof.
  induction s as [|c s IH]; intros [|n] [|m]; cbn [substring String.length];
    try lia.
  - specialize (IH 0%nat m). lia.
  - apply IH.
  - apply IH.
Qed.

(** The loop of [fromBuf]: as many definition lines as card lines read, none
    longer than 60 characters; the run ends, it does not die. *)
Lemma fromBuf_loop (lines : list string) :
  forall u : Usrbin,
    Forall (fun d => (String.length d <= 60)%nat) (uDefinition u) ->
    fold_left fromBuf_line lines (Ok u) = Exit
    \/ exists u',
         fold_left fromBuf_line lines (Ok u) = Ok u'
         /\ List.length (uDefinition u')
            = (List.length (uDefinition u)
               + List.length (filter is_card_line lines))%nat
         /\ Forall (fun d => (String.length d <= 60)%nat) (uDefinition u').
Proof.
  assert (Hexit : forall l, fold_left fromBuf_line l Exit = Exit)
    by (induction l as [|x l IHl]; [reflexivity|exact IHl]).
  induction lines as [|line lines IH]; intros u Hu.
  - right. exists u. cbn [fold_left filter List.length].
    split; [reflexivity|]. split; [lia|exact Hu].
  - cbn [fold_left filter].
    assert (Hstep : fromBuf_line (Ok u) line = Exit
                    \/ exists v,
                         fromBuf_line (Ok u) line = Ok v
                         /\ List.length (uDefinition v)
                            = (List.length (uDefinition u)
                               + if is_card_line line then 1 else 0)%nat
                         /\ Forall (fun d => (String.length d <= 60)%nat)
                                   (uDefinition v)).
    { unfold fromBuf_line, is_card_line. cbn [bind].
      destruct (Py.startswith (Py.strip line) "*"); cbn [negb andb].
      - right. eexists. split; [reflexivity|]. cbn [uDefinition].
        split; [lia|exact Hu].
      - destruct (Py.startswith (Py.strip line) "ROTPRBIN"); cbn [negb].
        + destruct (String.length _ =? 0)%nat; [now left|].
          right. eexists. split; [reflexivity|].
          unfold Usrbin_assignTrasf. destruct (Py.nonempty _);
            cbn [uDefinition]; (split; [lia|exact Hu]).
        + right. eexists. split; [reflexivity|]. cbn [uDefinition].
          rewrite length_app. cbn [List.length]. split; [lia|].
          apply Forall_app. split; [exact Hu|].
          constructor; [|constructor]. apply substring_length_le. }
    destruct Hstep as [-> | (v & -> & Hv & Hall)]; [left; apply Hexit|].
    destruct (IH v Hall) as [He | (u' & He & Hlen & Hall')]; [now left|].
    right. exists u'. split; [exact He|]. split; [|exact Hall'].
    rewrite Hlen, Hv. destruct (is_card_line line); cbn [List.length]; lia.
Qed.

(** X28. [Usrbin.fromBuf] and the number of cards: a buffer whose lines,
    comments and ROTPRBIN cards apart, are not exactly two ends the run (so
    does the empty buffer); a USRBIN that is returned holds exactly two
    definition lines, none longer than 60 characters, and has a name. *)
Theorem Usrbin_fromBuf_two_cards (myBuffer : string) :
  (List.length (filter is_card_line (Py.split_on (ascii_of_nat 10) myBuffer))
   <> 2%nat ->
   Usrbin_fromBuf myBuffer = Exit)
  /\ (forall u,
         Usrbin_fromBuf myBuffer = Ok u ->
         List.length (uDefinition u) = 2%nat
         /\ Forall (fun d => (String.length d <= 60)%nat) (uDefinition u)
         /\ uName u <> "").
Proof.
  unfold Usrbin_fromBuf.
  destruct (fromBuf_loop (Py.split_on (ascii_of_nat 10) myBuffer) Usrbin_new)
    as [-> | (u' & -> & Hlen & Hall)]; [constructor| |].
  - split; [reflexivity|discriminate].
  - cbn [bind uDefinition Usrbin_new List.length Nat.add] in *. split.
    + intros Hne. rewrite <- Hlen in Hne.
      apply Nat.eqb_neq in Hne. now rewrite Hne.
    + intros u Hu.
      destruct (Nat.eqb_spec (List.length (uDefinition u')) 2) as [E2|];
        cbn [negb] in Hu; [|discriminate].
      destruct (String.length (uName u') =? 0)%nat eqn:En; [discriminate|].
      injection Hu as <-. split; [exact E2|]. split; [exact Hall|].
      intros E. rewrite E in En. discriminate.
Qed.

Lemma Usrbin_fromBuf_two_cards_witness :
  Usrbin_fromBuf "" = Exit.
Proof.
  apply (proj1 (Usrbin_fromBuf_two_cards "")). discriminate.
Defined.

(** ** A USRBIN written and read again *)

Lemma length_sapp (a b : string) :
  String.length (a +++ b) = (String.length a + String.length b)%nat.
Proof. induction a as [|c a IH]; [reflexivity|]. cbn. now rewrite IH. Qed.

Lemma length_repeat_char (c : ascii) (n : nat) :
  String.length (Py.repeat_char c n) = n.
Proof. induction n as [|n IH]; [reflexivity|]. cbn. now rewrite IH. Qed.

Lemma rjust_full (w : nat) (s : string) : String.length s = w -> rjust w s = s.
Proof. intros <-. unfold rjust. now rewrite Nat.sub_diag. Qed.

Lemma rjust_length (w : nat) (s : string) :
  (String.length s <= w)%nat -> String.length (rjust w s) = w.
Proof.
  intros H. unfold rjust. rewrite length_sapp, length_repeat_char. lia.
Qed.

Lemma substring_app_prefix (a b : string) :
  substring 0 (String.length a) (a +++ b) = a.
Proof.
  induction a as [|c a IH]; [now destruct b|].
  cbn [String.append String.length substring]. now rewrite IH.
Qed.

Lemma drop_app (a b : string) : Py.drop (String.length a) (a +++ b) = b.
Proof. induction a as [|c a IH]; [reflexivity|]. exact IH. Qed.

Lemma lstrip_repeat (n : nat) (s : string) :
  Py.lstrip (Py.repeat_char " " n +++ s) = Py.lstrip s.
Proof. induction n as [|n IH]; [reflexivity|]. exact IH. Qed.

Lemma rstrip_ends_solid (s : string) : ends_solid s -> Py.rstrip s = s.
Proof.
  intros (p & c & -> & Hc). induction p as [|x p IH].
  - cbn. now rewrite Hc.
  - cbn [String.append Py.rstrip]. rewrite IH. now destruct p.
Qed.

Lemma ends_solid_app (a b : string) : ends_solid b -> ends_solid (a +++ b).
Proof.
  intros (p & c & -> & Hc). exists (a +++ p), c.
  split; [now rewrite sapp_assoc|exact Hc].
Qed.

Lemma solid_ends (s : string) : solid s -> s <> "" -> ends_solid s.
Proof.
  induction s as [|c s IH]; intros Hs Hne; [contradiction|].
  destruct s as [|c' s'].
  - exists "", c. split; [reflexivity|]. apply Hs. now left.
  - destruct IH as (p & x & E & Hx); [|discriminate|].
    + intros y Hy. apply Hs. now right.
    + exists (String c p), x. split; [|exact Hx]. cbn [String.append].
      now rewrite <- E.
Qed.

Lemma strip_rjust (w : nat) (s : string) : solid s -> Py.strip (rjust w s) = s.
Proof.
  intros Hs. unfold Py.strip, rjust. rewrite lstrip_repeat.
  destruct s as [|c s]; [reflexivity|].
  rewrite lstrip_id by (apply Hs; now left). now apply rstrip_id.
Qed.

Lemma contains_char_repeat (c : ascii) (n : nat) :
  Ascii.eqb " " c = false -> contains_char c (Py.repeat_char " " n) = false.
Proof.
  intros H. induction n as [|n IH]; [reflexivity|].
  cbn [Py.repeat_char contains_char]. now rewrite H, IH.
Qed.

Lemma solid_no_LF (s : string) :
  solid s -> contains_char (ascii_of_nat 10) s = false.
Proof.
  induction s as [|c s IH]; intros Hs; [reflexivity|].
  cbn [contains_char]. rewrite IH by (intros y Hy; apply Hs; now right).
  destruct (Ascii.eqb_spec c (ascii_of_nat 10)) as [->|]; [|reflexivity].
  now specialize (Hs _ (or_introl eq_refl)).
Qed.

Lemma rjust_no_LF (w : nat) (s : string) :
  contains_char (ascii_of_nat 10) s = false ->
  contains_char (ascii_of_nat 10) (rjust w s) = false.
Proof.
  intros H. unfold rjust.
  now rewrite contains_char_app, contains_char_repeat, H.
Qed.

Lemma ljust_no_LF (w : nat) (s : string) :
  contains_char (ascii_of_nat 10) s = false ->
  contains_char (ascii_of_nat 10) (ljust w s) = false.
Proof.
  intros H. unfold ljust.
  now rewrite contains_char_app, contains_char_repeat, H.
Qed.

(** The card of the transformation and the two cards of the USRBIN as the
    loop of [fromBuf] sees them. *)
Lemma read_rotprbin_card (u : Usrbin) (T name : string) :
  solid T -> T <> "" -> (String.length T <= 10)%nat ->
  solid name -> name <> "" ->
  fromBuf_line (Ok u) (rotprbin_card T name)
  = Ok {| uName := uName u; uComment := uComment u;
          uDefinition := uDefinition u; TransfName := T |}.
Proof.
  intros HT HTne HTlen Hn Hnne.
  assert (Hstrip : Py.strip (rotprbin_card T name) = rotprbin_card T name).
  { unfold Py.strip.
    change (Py.lstrip (rotprbin_card T name)) with (rotprbin_card T name).
    apply rstrip_ends_solid. unfold rotprbin_card.
    do 4 apply ends_solid_app. unfold rjust. apply ends_solid_app.
    now apply solid_ends. }
  unfold fromBuf_line. cbn [bind]. rewrite Hstrip.
  change (Py.startswith (rotprbin_card T name) "*") with false.
  change (Py.startswith (rotprbin_card T name) "ROTPRBIN") with true.
  cbv iota.
  assert (Hslice : slice 20 30 (rotprbin_card T name) = rjust 10 T).
  { unfold slice, rotprbin_card.
    change (ljust 10 "ROTPRBIN" +++ rjust 10 "" +++ rjust 10 T +++ rjust 10 ""
              +++ rjust 10 name)
      with ("ROTPRBIN            " +++ rjust 10 T +++ rjust 10 "" +++ rjust 10 name).
    pose proof (substring_app_prefix (rjust 10 T)
                  (rjust 10 "" +++ rjust 10 name)) as E.
    rewrite (rjust_length 10 T HTlen) in E. exact E. }
  rewrite Hslice, (strip_rjust 10 T HT).
  unfold Usrbin_assignTrasf. destruct T as [|c T]; [contradiction|].
  reflexivity.
Qed.

Lemma strip_usrbin_card (d sdum : string) :
  ends_solid sdum ->
  Py.strip (usrbin_card d sdum) = "USRBIN    " +++ rjust 60 d +++ sdum.
Proof.
  intros Hs. unfold Py.strip, usrbin_card, ljust.
  change ("USRBIN" +++ Py.repeat_char " " (10 - String.length "USRBIN"))
    with "USRBIN    ".
  change (Py.lstrip ("USRBIN    " +++ rjust 60 d +++ sdum
                       +++ Py.repeat_char " " (10 - String.length sdum)))
    with ("USRBIN    " +++ rjust 60 d +++ sdum
            +++ Py.repeat_char " " (10 - String.length sdum)).
  rewrite <- !sapp_assoc. rewrite rstrip_app_blanks by apply blanks_repeat.
  rewrite !sapp_assoc. apply rstrip_ends_solid.
  now do 2 apply ends_solid_app.
Qed.

Lemma read_usrbin_card (u : Usrbin) (d sdum : string) :
  String.length d = 60%nat ->
  ends_solid sdum ->
  fromBuf_line (Ok u) (usrbin_card d sdum)
  = Ok {| uName := if (List.length (uDefinition u ++ [d]) =? 1)%nat
                   then Py.strip sdum else uName u;
          uComment := uComment u;
          uDefinition := uDefinition u ++ [d];
          TransfName := TransfName u |}.
Proof.
  intros Hd Hs. unfold fromBuf_line. cbn [bind].
  rewrite (strip_usrbin_card d sdum Hs), (rjust_full 60 d Hd).
  change (Py.startswith ("USRBIN    " +++ d +++ sdum) "*") with false.
  change (Py.startswith ("USRBIN    " +++ d +++ sdum) "ROTPRBIN") with false.
  cbv iota.
  assert (Hslice : slice 10 70 ("USRBIN    " +++ d +++ sdum) = d).
  { pose proof (substring_app_prefix d sdum) as E. rewrite Hd in E. exact E. }
  assert (Hdrop : Py.drop 70 ("USRBIN    " +++ d +++ sdum) = sdum).
  { pose proof (drop_app d sdum) as E. rewrite Hd in E. exact E. }
  now rewrite Hslice, Hdrop.
Qed.

(** X29. A USRBIN written by [Usrbin.echo] and read by [Usrbin.fromBuf]. For
    a USRBIN with two definition lines of 60 characters each, a name without
    blanks, and no transformation or one with a name of at most 10
    characters without blanks, reading what [echo] writes (the part after
    the comment) gives back the name, the two lines and the name of the
    transformation. *)
Theorem Usrbin_echo_fromBuf (u : Usrbin) (d1 d2 : string) :
  uDefinition u = [d1; d2] ->
  String.length d1 = 60%nat -> String.length d2 = 60%nat ->
  contains_char (ascii_of_nat 10) d1 = false ->
  contains_char (ascii_of_nat 10) d2 = false ->
  solid (uName u) -> uName u <> "" ->
  solid (TransfName u) -> (String.length (TransfName u) <= 10)%nat ->
  Usrbin_fromBuf (Usrbin_echo "" u)
  = Ok {| uName := uName u; uComment := ""; uDefinition := [d1; d2];
          TransfName := TransfName u |}.
Proof.
  intros Hdef H1 H2 Hl1 Hl2 Hn Hnne HT HTlen.
  pose proof (solid_no_LF _ Hn) as HnLF. pose proof (solid_no_LF _ HT) as HTLF.
  assert (Hc1 : contains_char (ascii_of_nat 10) (usrbin_card d1 (uName u)) = false).
  { unfold usrbin_card. rewrite !contains_char_app.
    now rewrite (rjust_no_LF 60 d1 Hl1), (ljust_no_LF 10 _ HnLF). }
  assert (Hc2 : contains_char (ascii_of_nat 10) (usrbin_card d2 "&") = false).
  { unfold usrbin_card. rewrite !contains_char_app.
    now rewrite (rjust_no_LF 60 d2 Hl2). }
  assert (Hcards : forall cur,
             Py.split_on_from (ascii_of_nat 10) cur
               (usrbin_card d1 (uName u) +++ Py.LF +++ usrbin_card d2 "&" +++ "")
             = [cur +++ usrbin_card d1 (uName u); usrbin_card d2 "&"]).
  { intros cur. rewrite (split_on_from_plain _ _ Hc1).
    cbn [Py.LF String.append Py.split_on_from]. rewrite Ascii.eqb_refl.
    rewrite sapp_nil_r. now rewrite (split_on_from_whole _ _ "" Hc2). }
  assert (Hread : fold_left fromBuf_line
                            [usrbin_card d1 (uName u); usrbin_card d2 "&"]
                            (Ok {| uName := ""; uComment := "";
                                   uDefinition := []; TransfName := TransfName u |})
                  = Ok {| uName := uName u; uComment := "";
                          uDefinition := [d1; d2];
                          TransfName := TransfName u |}).
  { cbn [fold_left].
    rewrite (read_usrbin_card _ d1 (uName u) H1 (solid_ends _ Hn Hnne)).
    cbn [uDefinition app List.length Nat.eqb uName uComment TransfName].
    rewrite (strip_id _ Hn).
    rewrite (read_usrbin_card _ d2 "&" H2).
    - reflexivity.
    - exists "", "&"%char. split; reflexivity. }
  unfold Usrbin_fromBuf, Usrbin_echo. rewrite Hdef.
  unfold zip. cbn [combine fold_left].
  destruct (TransfName u) as [|c T] eqn:ET.
  - cbn [String.length Nat.ltb Nat.leb]. unfold Py.split_on.
    change ("" +++ usrbin_card d1 (uName u) +++ Py.LF)
      with (usrbin_card d1 (uName u) +++ Py.LF).
    rewrite sapp_assoc, Hcards. cbn [String.append].
    unfold Usrbin_new. rewrite Hread. cbn [bind uDefinition List.length Nat.eqb negb uName].
    destruct (uName u); [contradiction|reflexivity].
  - assert (HTne : TransfName u <> "") by (rewrite ET; discriminate).
    rewrite <- ET in *. clear ET c T.
    assert (Hpos : (0 <? String.length (TransfName u))%nat = true).
    { apply Nat.ltb_lt. destruct (TransfName u); [contradiction|cbn; lia]. }
    rewrite Hpos.
    assert (Hc0 : contains_char (ascii_of_nat 10)
                    (rotprbin_card (TransfName u) (uName u)) = false).
    { unfold rotprbin_card. rewrite !contains_char_app.
      rewrite (rjust_no_LF 10 _ HTLF), (rjust_no_LF 10 _ HnLF).
      reflexivity. }
    change ("" +++ rotprbin_card (TransfName u) (uName u) +++ Py.LF)
      with (rotprbin_card (TransfName u) (uName u) +++ Py.LF).
    unfold Py.split_on. rewrite !sapp_assoc.
    rewrite (split_on_from_plain _ _ Hc0).
    cbn [Py.LF String.append Py.split_on_from]. rewrite Ascii.eqb_refl.
    change (String (ascii_of_nat 10) (usrbin_card d2 "&" +++ ""))
      with (Py.LF +++ usrbin_card d2 "&" +++ "").
    rewrite Hcards. cbn [String.append fold_left].
    rewrite (read_rotprbin_card _ _ _ HT HTne HTlen Hn Hnne).
    unfold Usrbin_new. cbn [uName uComment uDefinition].
    cbn [fold_left] in Hread. rewrite Hread.
    cbn [bind uDefinition List.length Nat.eqb negb uName].
    destruct (uName u); [contradiction|reflexivity].
Qed.

Lemma Usrbin_echo_fromBuf_witness :
  let d1 := "      10.0    ENERGY     -21.0      50.0      50.0     100.0" in
  let d2 := "     -50.0     -50.0       0.0     100.0     100.0     100.0" in
  let u := {| uName := "EneDep"; uComment := ""; uDefinition := [d1; d2];
              TransfName := "toHive" |} in
  Usrbin_fromBuf (Usrbin_echo "" u) = Ok u.
Proof.
  intros d1 d2 u. apply (Usrbin_echo_fromBuf u d1 d2); try reflexivity.
  - intros c Hc. cbn in Hc. intuition (subst; reflexivity).
  - discriminate.
  - intros c Hc. cbn in Hc. intuition (subst; reflexivity).
  - cbn. lia.
Defined.

(** ** The cells of a gridded geometry *)

Lemma on_head_map {A B : Type} (f : A -> A) (h : A -> B) (l : list A) :
  (forall a, h (f a) = h a) -> map h (on_head f l) = map h l.
Proof. intros H. destruct l as [|a l]; [reflexivity|]. cbn. now rewrite H. Qed.

Lemma on_head_length {A : Type} (f : A -> A) (l : list A) :
  List.length (on_head f l) = List.length l.
Proof. now destruct l. Qed.

Lemma fold_left_stuck {A B : Type} (f : outcome A -> B -> outcome A)
  (l : list B) (acc : outcome A) :
  (forall b, f Exit b = Exit) -> (forall b, f Raise b = Raise) ->
  forall a, fold_left f l acc = Ok a -> exists a0, acc = Ok a0.
Proof.
  intros HE HR. revert acc. induction l as [|b l IH]; intros acc a H.
  - now exists a.
  - cbn [fold_left] in H. destruct (IH _ _ H) as (a1 & E).
    destruct acc as [a0| |]; [now exists a0| |].
    + rewrite HE in E. discriminate.
    + rewrite HR in E. discriminate.
Qed.

Section BuilderFacts.
Context {ext : External}.

(** The names that [Geometry.rename] gives to bodies and regions, counted
    over the renamed geometry. *)
Lemma rename_cell_names (g g' : Geometry) (newName : string)
  (lNotify : bool) (nDigits : nat) (addChar : string) :
  rename g newName lNotify nDigits addChar None = Ok g' ->
  let fmt := TailNameInt newName None nDigits addChar in
  map bName (bods g')
  = map (fun i => fmt (i + 1)) (Py.range (List.length (bods g')))
  /\ map rName (regs g')
     = map (fun i => fmt (i + 1)) (Py.range (List.length (regs g'))).
Proof.
  intros H fmt.
  assert (Hboth :
            map bName (bods g')
            = map (fun i => fmt (i + 1)) (Py.range (List.length (bods g)))
            /\ map rName (regs g')
               = map (fun i => fmt (i + 1)) (Py.range (List.length (regs g)))).
  { unfold rename in H. fold fmt in H.
    match type of H with
    | context [rename_all bName ?sk ?f ?u ?l] =>
        destruct (rename_all_spec bName sk f u l) as (bods1 & Eb & Hbods1);
        rewrite Eb in H; clear Eb; cbv beta iota in H
    end.
    match type of H with
    | context [rename_all rName ?sk ?f ?u ?l] =>
        destruct (rename_all_spec rName sk f u l) as (regs1 & Er & Hregs1);
        rewrite Er in H; clear Er; cbv beta iota in H
    end.
    match type of H with
    | context [rename_all tName ?sk ?f ?u ?l] =>
        destruct (rename_all_spec tName sk f u l) as (tras1 & Et & Htras1);
        rewrite Et in H; clear Et; cbv beta iota in H
    end.
    cbn [excepted negb] in H, Hbods1, Hregs1, Htras1.
    apply bind_Ok in H as (bins1 & Hbins & H).
    apply bind_Ok in H as (bods2 & Hbods2 & H).
    apply bind_Ok in H as (regs2 & Hregs2 & H).
    injection H as <-. cbn [bods regs tras bins scos].
    apply mapM_Ok_Forall2 in Hbods2, Hregs2.
    pose proof (Forall2_compose _ _ _ _ _ Hbods1 Hbods2) as HFb.
    pose proof (Forall2_compose _ _ _ _ _ Hregs1 Hregs2) as HFr.
    unfold renamed_at in HFb, HFr. cbn [excepted] in HFb, HFr.
    split.
    - apply (names_by_position _ _ _ _ _ HFb).
      intros ia b2 (b1 & (acc & ->) & Hb2). cbn [bTransf] in Hb2.
      destruct (bTransf (snd ia)) as [t|].
      + destruct (negb _); [discriminate|].
        apply bind_Ok in Hb2 as (ii & _ & [= <-]). reflexivity.
      + now injection Hb2 as <-.
    - apply (names_by_position _ _ _ _ _ HFr).
      intros ia r2 (r1 & (acc & ->) & Hr2).
      destruct (isLattice _); [|now injection Hr2 as <-].
      cbn [rTransf] in Hr2. destruct (rTransf (snd ia)) as [t|]; [|discriminate].
      destruct (negb _); [discriminate|].
      apply bind_Ok in Hr2 as (ii & _ & [= <-]). reflexivity. }
  destruct Hboth as [Hb Hr].
  assert (Lb : List.length (bods g') = List.length (bods g)).
  { apply (f_equal (@List.length string)) in Hb.
    now rewrite !length_map, range_length in Hb. }
  assert (Lr : List.length (regs g') = List.length (regs g)).
  { apply (f_equal (@List.length string)) in Hr.
    now rewrite !length_map, range_length in Hr. }
  rewrite Lb, Lr. now split.
Qed.

Lemma place_cell (myGrid : list Location) (myProtoList : list string)
  (myProtoGeos : list (string * Geometry)) (osRegNames : list string)
  (lLattice : bool) (lTrigScoring : list bool) (lGeoDirs : bool)
  (protoSeen protoSeen' : list (string * Z)) (iLoc : Z) (myLoc : Location)
  (geo : Geometry) :
  place myGrid myProtoList myProtoGeos osRegNames lLattice lTrigScoring
        lGeoDirs protoSeen iLoc myLoc = Ok (geo, protoSeen') ->
  cell_of myProtoList myProtoGeos lTrigScoring (iLoc, myLoc) geo.
Proof.
  intros H. unfold place in H.
  apply bind_Ok in H as (p & Hp & H).
  destruct (dict_get myProtoGeos p) as [pg|] eqn:Hpg; [|discriminate].
  apply bind_Ok in H as (seen & _ & H).
  apply bind_Ok in H as ([myGeo seen1] & Hcopy & H).
  apply bind_Ok in H as (seen2 & _ & H).
  apply bind_Ok in H as (moved & _ & H).
  apply bind_Ok in H as (flagged & _ & H).
  apply bind_Ok in H as (named & Hnamed & H).
  injection H as <- _.
  split.
  - exists p, pg.
    destruct (negb lLattice || (seen =? -1));
      apply bind_Ok in Hcopy as (trig & Ht & _); now exists trig.
  - cbn [fst]. destruct (rename_cell_names _ _ _ _ _ _ Hnamed) as [Hb Hr].
    unfold Geometry_headMe. cbn [bods regs].
    rewrite !on_head_length.
    rewrite (on_head_map _ bName) by reflexivity.
    rewrite (on_head_map _ rName) by reflexivity.
    now split.
Qed.

Lemma cells_loop (myGrid : list Location) (myProtoList : list string)
  (myProtoGeos : list (string * Geometry)) (osRegNames : list string)
  (lLattice : bool) (trig : list bool) (lGeoDirs : bool)
  (l : list (Z * Location)) :
  forall geos0 seen0 geos seen,
    fold_left
      (fun acc il =>
         '(myGeos, seen) <- acc ;;
         '(myGeo, seen') <- place myGrid myProtoList myProtoGeos
                              osRegNames lLattice trig lGeoDirs seen
                              (fst il) (snd il) ;;
         Ok (myGeos ++ [myGeo], seen'))
      l (Ok (geos0, seen0)) = Ok (geos, seen) ->
    exists new,
      geos = geos0 ++ new
      /\ Forall2 (cell_of myProtoList myProtoGeos trig) l new.
Proof.
  induction l as [|[i loc] l IH]; intros geos0 seen0 geos seen H.
  - injection H as <- _. exists []. split; [now rewrite app_nil_r|constructor].
  - cbn [fold_left] in H.
    destruct (fold_left_stuck _ _ _ (fun _ => eq_refl) (fun _ => eq_refl) _ H)
      as ([geos1 seen1] & E).
    rewrite E in H. cbn [bind fst snd] in E.
    apply bind_Ok in E as ([geo seen'] & Hplace & E). injection E as <- <-.
    destruct (IH _ _ _ _ H) as (new & -> & HF).
    exists (geo :: new). split; [now rewrite <- app_assoc|].
    constructor; [|exact HF]. exact (place_cell _ _ _ _ _ _ _ _ _ _ _ _ Hplace).
Qed.

(** X30. [Geometry.BuildGriddedGeo], when it returns: the flags of the
    scoring were given as a list, with a flag for every location; there is
    one geometry for every location of the grid, in the order of the grid;
    the prototype named for the location is among those given; and the
    bodies and the regions of the geometry at position [i] have the names
    that [TailNameInt] makes of "GR" followed by [i] on three digits and of
    their own position plus one, with two digits and "_". *)
Theorem BuildGriddedGeo_cells (myGrid : list Location)
  (myProtoList : list string) (myProtoGeos : list (string * Geometry))
  (osRegNames : list string) (lLattice : bool) (lTrigScoring : TrigScoring)
  (lGeoDirs : bool) (geos : list Geometry) :
  BuildGriddedGeo myGrid myProtoList myProtoGeos osRegNames lLattice
                  lTrigScoring lGeoDirs = Ok geos ->
  (exists trig, lTrigScoring = TrigList trig
                /\ (List.length myGrid <= List.length trig)%nat)
  /\ List.length geos = List.length myGrid
  /\ forall i geo,
       nth_error geos i = Some geo ->
       (exists p pg, nth_error myProtoList i = Some p
                     /\ dict_get myProtoGeos p = Some pg)
       /\ let fmt := TailNameInt ("GR" +++ Py.fmt_d_zeros 3 (Z.of_nat i))
                                 None 2 "_" in
          map bName (bods geo)
          = map (fun k => fmt (k + 1)) (Py.range (List.length (bods geo)))
          /\ map rName (regs geo)
             = map (fun k => fmt (k + 1)) (Py.range (List.length (regs geo))).
Proof.
  intros H. unfold BuildGriddedGeo in H.
  destruct lTrigScoring as [| |trig]; try discriminate.
  apply bind_Ok in H as ([geos' seen] & Hloop & H). injection H as <-.
  destruct (cells_loop _ _ _ _ _ _ _ _ _ _ _ _ Hloop) as (new & -> & HF).
  cbn [app]. pose proof (Forall2_length HF) as Hlen.
  rewrite enumerate_from_length in Hlen.
  assert (Hcell : forall i geo,
             nth_error new i = Some geo ->
             exists loc, nth_error myGrid i = Some loc
                         /\ cell_of myProtoList myProtoGeos trig
                                    (Z.of_nat i, loc) geo).
  { intros i geo Hi.
    destruct (Forall2_nth_right _ _ _ HF _ _ Hi) as ([k loc] & Hk & Hc).
    destruct (enumerate_from_nth _ _ _ _ Hk) as [Ek Eloc].
    cbn [fst snd] in Ek, Eloc. subst k. exists loc. now split. }
  split; [|split].
  - exists trig. split; [reflexivity|].
    destruct myGrid as [|loc0 rest] eqn:EG; [cbn; lia|]. rewrite <- EG in *.
    assert (Hlast : exists geo, nth_error new (List.length myGrid - 1) = Some geo).
    { destruct (nth_error new (List.length myGrid - 1)) eqn:E; [now eexists|].
      apply nth_error_None in E. rewrite EG in *. cbn [List.length] in *. lia. }
    destruct Hlast as (geo & Hgeo).
    destruct (Hcell _ _ Hgeo) as (loc & _ & (p & pg & t & _ & _ & Ht) & _).
    cbn [fst] in Ht. rewrite py_index_nth in Ht.
    destruct (nth_error trig (List.length myGrid - 1)) eqn:E; [|discriminate].
    assert (List.length myGrid - 1 < List.length trig)%nat
      by (apply nth_error_Some; congruence).
    lia.
  - now symmetry.
  - intros i geo Hi.
    destruct (Hcell _ _ Hi) as (loc & _ & (p & pg & t & Hp & Hpg & _) & Hn).
    cbn [fst] in Hp, Hn. split; [|exact Hn].
    exists p, pg. split; [|exact Hpg].
    rewrite py_index_nth in Hp. now destruct (nth_error myProtoList i) as [q|];
      [injection Hp as ->|discriminate].
Qed.

End BuilderFacts.

Lemma BuildGriddedGeo_cells_witness :
  BuildGriddedGeo [matrix_placement (1, 0, 0)%Q; matrix_placement (6, 0, 0)%Q]
                  ["P"; "P"] [("P", bodies_B1_B2)] [] true
                  (TrigList [true; true]) false = Ok two_cells
  /\ List.length two_cells = 2%nat
  /\ forall i geo,
       nth_error two_cells i = Some geo ->
       map bName (bods geo)
       = map (fun k => @TailNameInt Sample
                         ("GR" +++ Py.fmt_d_zeros 3 (Z.of_nat i))
                         None 2 "_" (k + 1))
             (Py.range (List.length (bods geo))).
Proof.
  assert (H : BuildGriddedGeo
                [matrix_placement (1, 0, 0)%Q; matrix_placement (6, 0, 0)%Q]
                ["P"; "P"] [("P", bodies_B1_B2)] [] true
                (TrigList [true; true]) false = Ok two_cells)
    by (vm_compute; reflexivity).
  split; [exact H|].
  destruct (BuildGriddedGeo_cells _ _ _ _ _ _ _ _ H) as (_ & Hlen & Hcells).
  split; [exact Hlen|].
  intros i geo Hi. exact (proj1 (proj2 (Hcells i geo Hi))).
Defined.

(** ** The card of the bodies *)

Section CardFacts.
Context {ext : External}.

Lemma AddRotDefis_name (L : list RotDefi) (iAdd : Z) :
  forall t, tName (AddRotDefis t L iAdd) = tName t.
Proof.
  unfold AddRotDefis. induction L as [|rd L IH]; intros t; [reflexivity|].
  cbn [fold_left]. now rewrite IH.
Qed.

Lemma replace_nth_filter {A : Type} (p : A -> bool) (l : list A) :
  forall i a x,
    nth_error l i = Some a -> p a = false -> p x = false ->
    filter p (replace_nth i x l) = filter p l.
Proof.
  induction l as [|y l IH]; intros [|i] a x Hi Ha Hx; try discriminate.
  - injection Hi as ->. cbn [replace_nth filter]. now rewrite Ha, Hx.
  - cbn [replace_nth filter]. now rewrite (IH i a x Hi Ha Hx).
Qed.

Lemma same_but_cards_refl (name : string) (g : Geometry) :
  same_but_cards name g g.
Proof. now repeat split. Qed.

Lemma same_but_cards_trans (name : string) (g1 g2 g3 : Geometry) :
  same_but_cards name g1 g2 -> same_but_cards name g2 g3 ->
  same_but_cards name g1 g3.
Proof.
  intros (B1 & R1 & U1 & T1) (B2 & R2 & U2 & T2).
  repeat split; congruence.
Qed.

(** A method call on the transformation of another name. *)
Lemma on_transf_keeps (g g' : Geometry) (key n Tb : string)
  (f : Transformation -> Transformation) :
  selector_of key = Some STransf ->
  (forall t, tName (f t) = tName t) ->
  n <> Tb ->
  on_transf g key n f = Ok g' ->
  same_but_cards Tb g g'.
Proof.
  intros Hkey Hf Hn H. unfold on_transf in H.
  apply bind_Ok in H as (r & Hr & H).
  destruct (is_ALL n) eqn:Hall.
  - rewrite (ret_selector _ _ _ _ Hkey) in Hr. cbn [ret_sel] in Hr.
    unfold ret_collection in Hr. rewrite Hall in Hr.
    injection Hr as <-. discriminate H.
  - rewrite (ret_transformation g key n Hkey Hall) in Hr. injection Hr as <-.
    unfold lookup in H.
    destruct (find_from _ 0 (tras g)) as [[k t]|] eqn:E; [|discriminate H].
    injection H as <-.
    apply find_from_Some in E as (m & -> & Hm & Hp & _).
    cbn [Z.add]. rewrite Nat2Z.id.
    repeat split. cbn [tras set_tras].
    apply String.eqb_eq in Hp.
    apply (replace_nth_filter _ _ _ _ _ Hm); unfold named.
    + apply String.eqb_neq. congruence.
    + apply String.eqb_neq. rewrite Hf. congruence.
Qed.

Lemma on_transf_loop_keeps (Tb : string)
  (f : Transformation -> Transformation) (names : list string) :
  (forall t, tName (f t) = tName t) ->
  (forall n, In n names -> n <> Tb) ->
  forall g g',
    fold_left (fun acc myTrasName =>
                 ga <- acc ;; on_transf ga "transf" myTrasName f)
              names (Ok g) = Ok g' ->
    same_but_cards Tb g g'.
Proof.
  intros Hf. induction names as [|n names IH]; intros Hn g g' H.
  - injection H as <-. apply same_but_cards_refl.
  - cbn [fold_left] in H.
    destruct (fold_left_stuck _ _ _ (fun _ => eq_refl) (fun _ => eq_refl) _ H)
      as (g1 & E).
    rewrite E in H. cbn [bind] in E.
    apply same_but_cards_trans with g1.
    + apply (on_transf_keeps g g1 "transf" n Tb f eq_refl Hf); [|exact E].
      apply Hn. now left.
    + apply IH; [|exact H]. intros x Hx. apply Hn. now right.
Qed.

(** What follows a loop over owners leaves the transformations of a name
    alone, when the name is neither the one of the loop nor one that the
    loop has noted. *)
Lemma record_steps_keeps (g g' : Geometry) (Tname Tb : string)
  (lCreate : bool) (tTrasfs : list string) (L : list RotDefi)
  (wrap : option (list RotDefi)) (myComment : option string) :
  Tname <> Tb ->
  ~ In Tb tTrasfs ->
  record_steps g Tname lCreate tTrasfs L wrap myComment = Ok g' ->
  same_but_cards Tb g g'.
Proof.
  intros HT Hts H. unfold record_steps in H.
  apply bind_Ok in H as ([g1 ts1] & H1 & H).
  apply bind_Ok in H as (g2 & H2 & H3).
  assert (S1 : same_but_cards Tb g g1
               /\ forall n, In n ts1 -> n <> Tb).
  { assert (Hnot : forall n, In n tTrasfs -> n <> Tb)
      by (intros n Hn ->; contradiction).
    destruct lCreate.
    - apply bind_Ok in H1 as (r & _ & H1).
      destruct r as [|e i|names idx|names idx];
        try (injection H1 as <- <-; split;
             [apply same_but_cards_refl|exact Hnot]).
      rewrite add_tras in H1. cbn [bind] in H1. injection H1 as <- <-.
      split.
      + repeat split. cbn [tras set_tras]. rewrite filter_app.
        cbn [filter]. unfold named at 2. cbn [tName Transformation_new].
        replace (String.eqb Tname Tb) with false
          by (symmetry; now apply String.eqb_neq).
        apply app_nil_r.
      + intros n Hn. apply in_app_or in Hn as [Hn | [<- | []]];
          [now apply Hnot|exact HT].
    - injection H1 as <- <-. split; [apply same_but_cards_refl|exact Hnot]. }
  destruct S1 as [S1 Hts1].
  assert (S2 : same_but_cards Tb g1 g2).
  { apply (on_transf_loop_keeps Tb _ ts1) with (3 := H2); [|exact Hts1].
    intros t. destruct wrap as [I|]; now rewrite !AddRotDefis_name. }
  assert (S3 : same_but_cards Tb g2 g').
  { destruct lCreate; [destruct myComment as [c|]|].
    - apply (on_transf_keeps g2 g' "TRANSF" Tname Tb _ eq_refl) with (3 := H3);
        [reflexivity|exact HT].
    - injection H3 as <-. apply same_but_cards_refl.
    - injection H3 as <-. apply same_but_cards_refl. }
  exact (same_but_cards_trans _ _ _ _ S1 (same_but_cards_trans _ _ _ _ S2 S3)).
Qed.

(** The names that the loops over the regions and over the USRBINs note. *)
Lemma lattice_names (Tname : string) (l : list Region) :
  forall done b ts rs b' ts',
    fold_left (lattice_step Tname) l (done, b, ts) = (rs, b', ts') ->
    forall n, In n ts' ->
              In n ts \/ exists r, In r l /\ isLattice r = true
                                   /\ rTransf r = Some n.
Proof.
  induction l as [|r l IH]; intros done b ts rs b' ts' H n Hn.
  - injection H as _ _ <-. now left.
  - cbn [fold_left] in H. unfold lattice_step at 2 in H.
    destruct (isLattice r) eqn:Hlat.
    + unfold link_step in H. destruct (rTransf r) as [m|] eqn:Hm.
      * destruct (IH _ _ _ _ _ _ H n Hn) as [Hin | (x & Hx & Hl & Hr)].
        -- destruct (Py.mem m ts); [now left|].
           apply in_app_or in Hin as [Hin | [<- | []]]; [now left|].
           right. exists r. repeat split; [now left|assumption|assumption].
        -- right. exists x. repeat split; [now right|assumption|assumption].
      * destruct (IH _ _ _ _ _ _ H n Hn) as [Hin | (x & Hx & Hl & Hr)];
          [now left|].
        right. exists x. repeat split; [now right|assumption|assumption].
    + destruct (IH _ _ _ _ _ _ H n Hn) as [Hin | (x & Hx & Hl & Hr)];
        [now left|].
      right. exists x. repeat split; [now right|assumption|assumption].
Qed.

Lemma usrbin_names (lTraslOnly : option Vec3) (Tname : string)
  (l : list Usrbin) :
  forall done b ts us b' ts',
    fold_left (usrbin_step lTraslOnly Tname) l (done, b, ts) = (us, b', ts') ->
    forall n, In n ts' -> In n ts \/ exists u, In u l /\ TransfName u = n.
Proof.
  induction l as [|u l IH]; intros done b ts us b' ts' H n Hn.
  - injection H as _ _ <-. now left.
  - cbn [fold_left] in H.
    assert (Hstep : exists done1 b1 ts1,
               usrbin_step lTraslOnly Tname (done, b, ts) u = (done1, b1, ts1)
               /\ forall x, In x ts1 -> In x ts \/ TransfName u = x).
    { unfold usrbin_step, link_step, Usrbin_link.
      destruct lTraslOnly as [d|]; destruct (Usrbin_isLinked u);
        try (do 3 eexists; split; [reflexivity|]; intros x Hx; now left).
      all: destruct (Py.mem (TransfName u) ts);
        do 3 eexists; (split; [reflexivity|]); intros x Hx;
        try (now left);
        apply in_app_or in Hx as [Hx | [<- | []]]; [now left|now right]. }
    destruct Hstep as (done1 & b1 & ts1 & E & Hts1). rewrite E in H.
    destruct (IH _ _ _ _ _ _ H n Hn) as [Hin | (x & Hx & Hx')].
    + destruct (Hts1 _ Hin) as [Hin' | Hu]; [now left|].
      right. exists u. split; [now left|assumption].
    + right. exists x. split; [now right|assumption].
Qed.

Lemma filter_none {A : Type} (p : A -> bool) (l : list A) :
  (forall x, In x l -> p x = false) -> filter p l = [].
Proof.
  induction l as [|x l IH]; intros H; [reflexivity|].
  cbn [filter]. rewrite (H x) by now left.
  apply IH. intros y Hy. apply H. now right.
Qed.

Lemma filter_one_first {A : Type} (p : A -> bool) (l : list A) (a : A) :
  filter p l = [a] ->
  exists i, nth_error l i = Some a /\ p a = true
            /\ forall j a', (j < i)%nat -> nth_error l j = Some a' ->
                            p a' = false.
Proof.
  induction l as [|x l IH]; intros H; [discriminate|].
  cbn [filter] in H. destruct (p x) eqn:Hx.
  - injection H as -> _. exists 0%nat. repeat split; [assumption|].
    intros j a' Hj. lia.
  - destruct (IH H) as (i & Hi & Ha & Hfirst). exists (S i).
    repeat split; [assumption|assumption|].
    intros [|j] a' Hj Hnth.
    + now injection Hnth as <-.
    + apply (Hfirst j); [lia|assumption].
Qed.

(** The loops over the lattice regions and over the USRBINs, and what
    follows them, leave the bodies and the card of the bodies alone. *)
Lemma later_stages_keep (g3 g' : Geometry) (L : list RotDefi)
  (wrap : option (list RotDefi)) (lTraslOnly : option Vec3)
  (lOnlyGeo : bool) (myComment : option string) :
  (forall r, In r (regs g3) -> isLattice r = true ->
             rTransf r <> Some "ToFinPos_bdy") ->
  (forall u, In u (bins g3) -> TransfName u <> "ToFinPos_bdy") ->
  (g4 <- (let '(rs, lCreate, tTrasfs) :=
            fold_left (lattice_step "ToFinPos_lat") (regs g3)
                      ([], false, []) in
          record_steps (set_regs g3 rs) "ToFinPos_lat" lCreate tTrasfs L wrap
                       myComment) ;;
   if negb lOnlyGeo then
     let '(us, lCreate, tTrasfs) :=
       fold_left (usrbin_step lTraslOnly "ToFinPos_bin") (bins g4)
                 ([], false, []) in
     record_steps (set_bins g4 us) "ToFinPos_bin" lCreate tTrasfs L None
                  myComment
   else Ok g4) = Ok g' ->
  bods g' = bods g3
  /\ filter (named "ToFinPos_bdy") (tras g')
     = filter (named "ToFinPos_bdy") (tras g3).
Proof.
  intros Hlat Hbin H.
  assert (Nlat : "ToFinPos_lat" <> "ToFinPos_bdy") by discriminate.
  assert (Nbin : "ToFinPos_bin" <> "ToFinPos_bdy") by discriminate.
  apply bind_Ok in H as (g4 & H4 & H5).
  destruct (fold_left (lattice_step "ToFinPos_lat") (regs g3) ([], false, []))
    as [[rs lc] ts] eqn:El.
  assert (Hts : ~ In "ToFinPos_bdy" ts).
  { intros Hin.
    destruct (lattice_names _ _ _ _ _ _ _ _ El _ Hin)
      as [[] | (r & Hr & Hl & Hrt)].
    exact (Hlat r Hr Hl Hrt). }
  destruct (record_steps_keeps _ _ _ _ _ _ _ _ _ Nlat Hts H4)
    as (B4 & R4 & U4 & T4).
  cbn [bods regs bins tras set_regs] in B4, R4, U4, T4.
  destruct lOnlyGeo; cbn [negb] in H5.
  - injection H5 as <-. now split.
  - destruct (fold_left (usrbin_step lTraslOnly "ToFinPos_bin") (bins g4)
                        ([], false, [])) as [[us uc] uts] eqn:Eu.
    assert (Huts : ~ In "ToFinPos_bdy" uts).
    { intros Hin.
      destruct (usrbin_names _ _ _ _ _ _ _ _ _ Eu _ Hin)
        as [[] | (u & Hu & Hname)].
      rewrite U4 in Hu. exact (Hbin u Hu Hname). }
    destruct (record_steps_keeps _ _ _ _ _ _ _ _ _ Nbin Huts H5)
      as (B5 & _ & _ & T5).
    cbn [bods tras set_bins] in B5, T5. split; congruence.
Qed.

(** C1, as amended. Under geometry directives, for a geometry none of
    whose bodies is linked to a transformation and in which the name
    "ToFinPos_bdy" is not in use (no transformation has it, no lattice
    region and no USRBIN is linked to it): whenever the call with a
    rotation by a non-zero angle [th] about axis [ax] followed by a
    translation [dd] returns, every body is linked to "ToFinPos_bdy"; the
    card of a body is the one transformation of this name, which the call
    has made; and this card holds exactly two steps in this order: first
    the translation by [-dd], then the rotation about [ax] with the angle
    [th] negated. For 90 degrees about axis 2 and (0,0,10): translation
    (0,0,-10), then rotation -90 about axis 2. *)
Theorem directive_card (g g' : Geometry) (dd : Vec3) (th : Q) (ax : Z)
  (lDegs lOnlyGeo lWrapGeo : bool) (myComment : option string) :
  bodies_unlinked g ->
  name_free g "ToFinPos_bdy" ->
  nonzero th = true ->
  solidTrasform g (Some dd) None (Some (Angle th)) (Axis ax)
                lDegs true lOnlyGeo lWrapGeo "ToFinPos" myComment = Ok g' ->
  bods g' = map (fun b => Body_link b "ToFinPos_bdy") (bods g)
  /\ forall b, In b (bods g') ->
       exists t,
         card_of_body g' b t
         /\ filter (named "ToFinPos_bdy") (tras g') = [t]
         /\ ID t = Z.of_nat (List.length (tras g)) + 1
         /\ RotDefis t = [translation_step (Vec3_opp dd);
                          rotation_step ax (Qopp th)].
Proof.
  intros Hunl (Habs & Hlat & Hbin) Hnz H.
  unfold solidTrasform in H. cbn [solidTrasform_fuel] in H.
  unfold solidTrasform_call in H.
  rewrite Hnz in H. cbn [bind app List.length Nat.ltb Nat.leb] in H.
  change ("ToFinPos" +++ "_bdy") with "ToFinPos_bdy" in H.
  change ("ToFinPos" +++ "_lat") with "ToFinPos_lat" in H.
  change ("ToFinPos" +++ "_bin") with "ToFinPos_bin" in H.
  rewrite (link_all_unlinked bTransf Body_link "ToFinPos_bdy" (bods g) Hunl)
    in H.
  destruct (Nat.eqb (List.length (bods g)) 0) eqn:Hlen; cbn [negb] in H.
  - (* no body: nothing is made for the bodies *)
    rewrite record_steps_idle in H. cbn [bind] in H.
    apply later_stages_keep in H as [B _]; [|exact Hlat|exact Hbin].
    cbn [bods set_bods] in B. split; [exact B|].
    intros b Hb. rewrite B in Hb.
    destruct (bods g); [destruct Hb|discriminate Hlen].
  - rewrite record_steps_create in H; [|reflexivity|exact Habs].
    cbn [bind rev app] in H.
    apply later_stages_keep in H as [B T]; [|exact Hlat|exact Hbin].
    cbn [bods tras set_bods set_tras] in B, T.
    rewrite filter_app in T.
    rewrite (filter_none (named "ToFinPos_bdy") (tras g)
               (name_absent g "ToFinPos_bdy" Habs)) in T.
    cbn [app filter named tName String.eqb Ascii.eqb Bool.eqb] in T.
    split; [exact B|].
    intros b Hb. rewrite B in Hb. apply in_map_iff in Hb as (b0 & <- & _).
    eexists. split; [|split; [exact T|split; reflexivity]].
    destruct (filter_one_first _ _ _ T) as (i & Hi & Hp & Hfirst).
    exists "ToFinPos_bdy", i. split; [reflexivity|].
    unfold first_match. cbn [entities matches].
    split; [now rewrite nth_error_map, Hi|]. split; [exact Hp|].
    intros j e' Hj Hnth. rewrite nth_error_map in Hnth.
    destruct (nth_error (tras g') j) as [a'|] eqn:Ej; [|discriminate].
    injection Hnth as <-. exact (Hfirst j a' Hj Ej).
Qed.

End CardFacts.

(** A body that is linked already keeps its card, and the card takes the
    two steps in front of the step it holds: three steps, where the claim
    has exactly two. *)
Lemma card_of_linked_body_grows : ~ card_as_stated linked_body.
Proof.
  intros H.
  assert (Hrun : solidTrasform linked_body (Some (0, 0, 10)%Q) None
                               (Some (Angle 90%Q)) (Axis 2)
                               true true false false "ToFinPos" None
                 = Ok (set_tras linked_body
                         [ {| tName := "T1"; tComment := ""; ID := 1;
                              RotDefis := [translation_step (0, 0, -10)%Q;
                                           rotation_step 2 (-90)%Q;
                                           translation_step (1, 0, 0)%Q] |} ]))
    by (vm_compute; reflexivity).
  destruct (H _ Hrun (@mkBody Sample "B1" "" (Some "T1") (0, 0, 0)%Q)
              (or_introl eq_refl))
    as (t & (n & i & Hn & Hfirst & _) & Hsteps).
  cbn [entities tras set_tras] in Hfirst.
  destruct i as [|i]; [|now destruct i].
  injection Hfirst as <-. discriminate Hsteps.
Qed.

Example directive_card_two_bodies :
  exists g',
    solidTrasform bodies_B1_B2 (Some (0, 0, 10)%Q) None (Some (Angle 90%Q))
                  (Axis 2) true true false false "ToFinPos" None = Ok g'
    /\ map tName (tras g') = ["ToFinPos_bdy"]
    /\ map RotDefis (tras g')
       = [[translation_step (0, 0, -10)%Q; rotation_step 2 (-90)%Q]].
Proof. eexists. repeat split; reflexivity. Qed.

Lemma directive_card_witness :
  solidTrasform bodies_lattice_mesh (Some (0, 0, 10)%Q) None
                (Some (Angle 90%Q)) (Axis 2)
                true true false false "ToFinPos" None
  = Ok bodies_lattice_mesh_moved
  /\ bods bodies_lattice_mesh_moved
     = map (fun b => Body_link b "ToFinPos_bdy") (bods bodies_lattice_mesh)
  /\ forall b, In b (bods bodies_lattice_mesh_moved) ->
       exists t,
         card_of_body bodies_lattice_mesh_moved b t
         /\ filter (named "ToFinPos_bdy") (tras bodies_lattice_mesh_moved)
            = [t]
         /\ ID t = 1
         /\ RotDefis t = [translation_step (0, 0, -10)%Q;
                          rotation_step 2 (-90)%Q].
Proof.
  assert (Hrun : solidTrasform bodies_lattice_mesh (Some (0, 0, 10)%Q) None
                               (Some (Angle 90%Q)) (Axis 2)
                               true true false false "ToFinPos" None
                 = Ok bodies_lattice_mesh_moved)
    by (vm_compute; reflexivity).
  split; [exact Hrun|].
  apply (directive_card bodies_lattice_mesh bodies_lattice_mesh_moved
                        (0, 0, 10)%Q 90%Q 2 true false false None).
  - intros b [<- | [<- | []]]; reflexivity.
  - split; [intros t []|split].
    + intros r [<- | [<- | []]] Hl; discriminate.
    + intros u [<- | []]; discriminate.
  - reflexivity.
  - exact Hrun.
Defined.
